(** * The watch engine of etcdcpp (include/watch.hpp, include/internal/curl.hpp)

    A shallow embedding of [etcd::Watch<Reply>::Run] and [RunOnce] together
    with the part of [etcd::internal::Curl] they drive, in a state monad with
    exceptions.  The network ([curl_easy_perform]), the reply decoder (the
    template parameter [Reply]) and the user callback are the environment of
    the engine: the fields of [Env] and the argument [callback].  The general
    theorems hold for every environment; the concrete runs use a scripted
    server. *)

From Stdlib Require Import ZArith NArith List String Ascii Bool Lia.
From Stdlib Require Import DecimalString DecimalN.
Import ListNotations.

Local Open Scope string_scope.
Local Open Scope Z_scope.

(** ** Strings: the std::string operations used by the engine *)

Module Str.

(** [std::to_string] on a non-negative integer: its decimal digits. *)
Definition to_string (z : Z) : string :=
  NilEmpty.string_of_uint (N.to_uint (Z.to_N z)).

(** [std::string::c_str] read as a C string: the characters before the
    first NUL. *)
Fixpoint c_str (s : string) : string :=
  match s with
  | EmptyString => EmptyString
  | String c rest =>
      if Ascii.eqb c Ascii.zero then EmptyString else String c (c_str rest)
  end.

Definition LF : ascii := ascii_of_nat 10.
Definition CR : ascii := ascii_of_nat 13.

(** The lines that repeated calls of [std::getline(stream, line)] extract
    from a stream holding [s]: [line] is the text read since the last
    delimiter.  A last line without a delimiter is still extracted; at the
    end of the stream an extraction that reads nothing fails and ends the
    loop. *)
Fixpoint getlines_from (line s : string) : list string :=
  match s with
  | EmptyString => if (String.length line =? 0)%nat then [] else [line]
  | String c rest =>
      if Ascii.eqb c LF then line :: getlines_from "" rest
      else getlines_from (line ++ String c "") rest
  end.

Definition getlines (s : string) : list string := getlines_from "" s.

(** [s.find(t)]: the first position at which [t] occurs in [s]; [None] is
    [std::string::npos]. *)
Definition find (s t : string) : option nat := String.index 0 t s.

(** [s.substr(pos)], which raises [std::out_of_range] when [pos > s.size()]:
    [None] stands for that exception. *)
Definition substr (s : string) (pos : nat) : option string :=
  if (pos <=? String.length s)%nat
  then Some (String.substring pos (String.length s - pos) s)
  else None.

(** The white space [strtol] skips: SP, HT, LF, VT, FF, CR. *)
Definition isspace (c : ascii) : bool :=
  let n := nat_of_ascii c in
  ((n =? 32) || ((9 <=? n) && (n <=? 13)))%nat.

Definition digit_of (c : ascii) : option Z :=
  let n := Z.of_nat (nat_of_ascii c) in
  if (48 <=? n) && (n <=? 57) then Some (n - 48) else None.

Fixpoint skip_spaces (s : string) : string :=
  match s with
  | String c rest => if isspace c then skip_spaces rest else s
  | EmptyString => s
  end.

(** The longest prefix of decimal digits of [s], accumulated on [acc];
    [seen] records whether one digit was read. *)
Fixpoint read_digits (seen : bool) (acc : Z) (s : string) : option Z :=
  match s with
  | String c rest =>
      match digit_of c with
      | Some d => read_digits true (10 * acc + d) rest
      | None => if seen then Some acc else None
      end
  | EmptyString => if seen then Some acc else None
  end.

Definition INT_MIN : Z := - 2 ^ 31.
Definition INT_MAX : Z := 2 ^ 31 - 1.

Inductive stoi_result : Type :=
| Parsed (v : Z)
| invalid_argument
| out_of_range.

(** [std::stoi(s)] in base 10: skip white space, read an optional sign and
    the digits that follow; no digit is [std::invalid_argument], a value that
    does not fit [int] is [std::out_of_range].  What follows the digits is
    ignored. *)
Definition stoi (s : string) : stoi_result :=
  let s1 := skip_spaces s in
  let '(negative, s2) :=
    match s1 with
    | String c rest =>
        if Ascii.eqb c "-" then (true, rest)
        else if Ascii.eqb c "+" then (false, rest)
        else (false, s1)
    | EmptyString => (false, s1)
    end in
  match read_digits false 0 s2 with
  | None => invalid_argument
  | Some n =>
      let v := if negative then - n else n in
      if (INT_MIN <=? v) && (v <=? INT_MAX) then Parsed v else out_of_range
  end.

End Str.

(** ** Exceptions *)

(** Modelled from the spec: client.hpp, which declares [ReplyException], is
    absent; the spec has it as the error of a reply, carrying a numeric error
    code.  An exception object raised by a collaborator of the engine (the
    transport, the reply decoder, the callback) is described by what the
    handlers of [Run] and [RunOnce] can see of it: [reply_error_code] is
    [Some c] when the object is a [ReplyException] whose [error_code] is [c],
    so that [catch (const ReplyException&)] matches it; [std_what] is
    [Some m] when its class derives from [std::exception] and [what()]
    returns [m], so that [catch (const std::exception&)] matches it.  Both
    hold of a [ReplyException] that derives from [std::exception], which is
    what the order of the handlers (watch.hpp:130 before 160, 202 before 231)
    is written for. *)
Record thrown : Type := Thrown {
  reply_error_code : option Z;
  std_what : option string
}.

(** What leaves [Run] or [RunOnce]: the [ClientException] they construct, or
    an exception of a collaborator that no handler matched. *)
Inductive exn : Type :=
| ClientException (error : string)
| Uncaught (t : thrown).

Inductive result (X A : Type) : Type :=
| Ok (a : A)
| Throw (x : X).

Arguments Ok {X A} a.
Arguments Throw {X A} x.

Definition CURLE_OK : Z := 0.

(** curl.hpp:39-41 the text that [CurlException::what()] prints into its
    local stream: [msg], the code and [curl_easy_strerror] of the code. *)
Definition CurlException_text (strerror : Z -> string) (errorCode : Z)
    (msg : string) : string :=
  msg ++ " [code: " ++ Str.to_string errorCode ++ "] " ++ strerror errorCode.

(** curl.hpp:30 [CurlException], derived from [std::runtime_error].
    curl.hpp:42 [what()] returns [estr.str().c_str()]: a pointer into the
    temporary string that [estr.str()] returns, which is destroyed at the end
    of the [return] statement.  Who reads [what()] reads through a pointer to
    a string that is gone: the language does not say what is found there.
    [read] gives the text that is found, from the text that was printed. *)
Definition CurlException (read : string -> string) (strerror : Z -> string)
    (errorCode : Z) (msg : string) : thrown :=
  Thrown None (Some (read (CurlException_text strerror errorCode msg))).

(** The exceptions of the standard library that the header scan can raise. *)
Definition std_invalid_argument (what : string) : thrown := Thrown None (Some what).
Definition std_out_of_range (what : string) : thrown := Thrown None (Some what).

(** ** The environment of the engine *)

(** What one [curl_easy_perform] delivers: its [CURLcode], and the header and
    body bytes it hands to the header and write callbacks. *)
Record transfer : Type := Transfer {
  curl_code : Z;
  received_headers : string;
  received_body : string
}.

(** Modelled from the spec: client.hpp, which declares [Index], and the
    reply class that instantiates the template are absent; the spec has the
    index as an unsigned integer ([Index_bits] is its width, which is at
    least that of [int], so that [prev_index_ + 1] is computed in [Index])
    and the reply as a decoded body exposing a modified index, whose
    constructor signals errors by exceptions.  [World] is the state of
    everything outside the engine: the network, the server, and whatever the
    callback touches.  [read_destroyed text w] is what a read through a
    pointer to a destroyed string that held [text] finds in the world [w]
    (the memory is part of the world); nothing is assumed of it. *)
Record Env : Type := {
  Index_bits : N;
  Reply : Type;
  Reply_ctor : string -> result thrown Reply;
  get_modified_index : Reply -> Z;
  World : Type;
  curl_easy_perform : string -> World -> transfer * World;
  curl_easy_strerror : Z -> string;
  read_destroyed : string -> World -> string
}.

(** watch.hpp:6 *)
Definition MAX_FAILURES : Z := 5.

(** curl.hpp:75 the data members of [internal::Curl] that a GET reads or
    writes. *)
Record Curl : Type := mkCurl {
  enable_header_ : bool;
  write_stream_ : string;
  header_stream_ : string
}.

(** watch.hpp:75 the data members of [Watch]. *)
Record Watch : Type := mkWatch {
  prev_index_ : Z;
  url_prefix_ : string;
  handle_ : Curl
}.

Section Engine.

Variable E : Env.

(** Conversion of an integer to the unsigned type [Index]. *)
Definition to_Index (z : Z) : Z := z mod 2 ^ Z.of_N (Index_bits E).

(** [i + 1] computed in [Index]. *)
Definition Index_add1 (i : Z) : Z := to_Index (i + 1).

(** What the engine does that the outside can observe. *)
Inductive event : Type :=
| GET (url : string)
| CALLBACK (r : Reply E).

(** The machine state while [Run] or [RunOnce] executes: the [Watch] object,
    the two mutable locals, the world, and the events so far (oldest
    first). *)
Record state : Type := mkState {
  this : Watch;
  watch_url : string;
  max_failures : Z;
  world : World E;
  trace : list event
}.

Definition Callback : Type := Reply E -> World E -> result thrown unit * World E.

(** *** A state monad with exceptions

    A computation returns a value or throws, and in both cases leaves a
    state: what was written before a [throw] stays written. *)
Definition M (X A : Type) : Type := state -> result X A * state.

Definition ret {X A} (a : A) : M X A := fun s => (Ok a, s).

Definition throw {X A} (x : X) : M X A := fun s => (Throw x, s).

Definition bind {X A B} (m : M X A) (k : A -> M X B) : M X B :=
  fun s =>
    match m s with
    | (Ok a, s') => k a s'
    | (Throw x, s') => (Throw x, s')
    end.

Definition gets {X A} (f : state -> A) : M X A := fun s => (Ok (f s), s).

Definition modify {X} (f : state -> state) : M X unit := fun s => (Ok tt, f s).

(** [try { body } catch ...]: the handlers see the exception in the state the
    body left; an exception none of them matches goes on as [uncaught]. *)
Definition try_catch {X Y A} (body : M X A) (handlers : X -> option (M Y A))
    (uncaught : X -> Y) : M Y A :=
  fun s =>
    match body s with
    | (Ok a, s') => (Ok a, s')
    | (Throw x, s') =>
        match handlers x with
        | Some h => h s'
        | None => (Throw (uncaught x), s')
        end
    end.

(** [try { body } catch (...) {}] *)
Definition catch_all {X Y} (body : M X unit) : M Y unit :=
  fun s => (Ok tt, snd (body s)).

End Engine.

Arguments ret {E X A} a.
Arguments throw {E X A} x.
Arguments bind {E X A B} m k.
Arguments gets {E X A} f.
Arguments modify {E X} f.
Arguments try_catch {E X Y A} body handlers uncaught.
Arguments catch_all {E X Y} body.
Arguments mkState {E}.
Arguments this {E}.
Arguments watch_url {E}.
Arguments max_failures {E}.
Arguments world {E}.
Arguments trace {E}.
Arguments GET {E} url.
Arguments CALLBACK {E} r.

Declare Scope engine_scope.
Delimit Scope engine_scope with engine.

Notation "x <- m ;; k" := (bind m (fun x => k))
  (at level 61, m at next level, right associativity) : engine_scope.
Notation "m ;; k" := (bind m (fun _ => k))
  (at level 61, right associativity) : engine_scope.

Local Open Scope engine_scope.

(** ** internal::Curl (curl.hpp) *)

Section CurlOps.

Variable E : Env.

Definition on_handle (f : Curl -> Curl) (s : state E) : state E :=
  mkState
    (mkWatch (prev_index_ (this s)) (url_prefix_ (this s)) (f (handle_ (this s))))
    (watch_url s) (max_failures s) (world s) (trace s).

Definition record (ev : event E) (s : state E) : state E :=
  mkState (this s) (watch_url s) (max_failures s) (world s) (trace s ++ [ev]).

Definition set_world (w : World E) (s : state E) : state E :=
  mkState (this s) (watch_url s) (max_failures s) w (trace s).

(** curl.hpp:179 *)
Definition Curl_EnableHeader {X} (onOff : bool) : M E X unit :=
  modify (on_handle (fun h => mkCurl onOff (write_stream_ h) (header_stream_ h))).

(** curl.hpp:184 *)
Definition Curl_GetHeader {X} : M E X string :=
  gets (fun s => header_stream_ (handle_ (this s))).

(** curl.hpp:205; the exception is of the class [CurlException], and the
    text of its [what()] is the one that is read in the world of the
    moment. *)
Definition Curl_CheckError (err : Z) (msg : string) : M E thrown unit :=
  if negb (err =? CURLE_OK)
  then
    w <- gets world ;;
    throw (CurlException (fun text => read_destroyed E text w)
             (curl_easy_strerror E) err ("Failed " ++ msg))
  else ret tt.

(** curl.hpp:223 [_SetCommonOptions]: the write stream is cleared, and the
    header stream too when header capture is on; the [curl_easy_setopt] calls
    are taken to return [CURLE_OK]. *)
Definition Curl_SetCommonOptions (url : string) : M E thrown unit :=
  modify (on_handle (fun h =>
    mkCurl (enable_header_ h) ""
      (if enable_header_ h then "" else header_stream_ h))).

(** curl.hpp:267 *)
Definition Curl_SetGetOptions (url : string) : M E thrown unit :=
  Curl_SetCommonOptions url.

(** [curl_easy_perform] as [Get] has set it up: the body goes to [WriteCb]
    (curl.hpp:189), the headers go to [HeaderCb] (curl.hpp:197) when the
    header callback was installed, that is when header capture is on.  The
    environment is asked with the text [url] that [Get] was called with, of
    which libcurl is given [url.c_str()] (curl.hpp:227). *)
Definition Curl_perform (url : string) : M E thrown Z :=
  fun s =>
    let '(t, w) := curl_easy_perform E url (world s) in
    let s1 := on_handle (fun h =>
      mkCurl (enable_header_ h)
        (write_stream_ h ++ received_body t)
        (if enable_header_ h then header_stream_ h ++ received_headers t
         else header_stream_ h)) s in
    (Ok (curl_code t), set_world w (record (GET url) s1)).

(** curl.hpp:136 *)
Definition Curl_Get (url : string) : M E thrown string :=
  Curl_SetGetOptions url ;;
  err <- Curl_perform url ;;
  Curl_CheckError err "easy perform" ;;
  gets (fun s => write_stream_ (handle_ (this s))).

End CurlOps.

Arguments on_handle {E} f s.
Arguments record {E} ev s.
Arguments set_world {E} w s.
Arguments Curl_EnableHeader {E X} onOff.
Arguments Curl_GetHeader {E X}.
Arguments Curl_Get {E} url.

(** ** Watch (watch.hpp) *)

(** watch.hpp:84 the constructor, when [internal::Curl()] succeeds. *)
Definition Watch_ctor (server : string) (port : Z) : Watch :=
  mkWatch 0 ("http://" ++ server ++ ":" ++ Str.to_string port ++ "/v2/keys")
    (mkCurl false "" "").

(** watch.hpp:144 *)
Definition etcd_index_label : string := "X-Etcd-Index: ".

(** watch.hpp:100-101 and 178-179 *)
Definition watch_url_base (url_prefix_ key : string) : string :=
  url_prefix_ ++ key ++ "?wait=true".

Definition wait_url_base (url_prefix_ key : string) : string :=
  watch_url_base url_prefix_ key ++ "&waitIndex=".

Section WatchOps.

Variable E : Env.
Variable callback : Callback E.

Definition set_prev_index_ {X} (i : Z) : M E X unit :=
  modify (fun s =>
    mkState (mkWatch i (url_prefix_ (this s)) (handle_ (this s)))
      (watch_url s) (max_failures s) (world s) (trace s)).

Definition set_watch_url {X} (u : string) : M E X unit :=
  modify (fun s => mkState (this s) u (max_failures s) (world s) (trace s)).

Definition set_max_failures {X} (n : Z) : M E X unit :=
  modify (fun s => mkState (this s) (watch_url s) n (world s) (trace s)).

(** [Reply r(ret)] *)
Definition construct_Reply (ret_ : string) : M E thrown (Reply E) :=
  match Reply_ctor E ret_ with
  | Ok r => ret r
  | Throw e => throw e
  end.

(** [callback(r)] *)
Definition invoke (r : Reply E) : M E thrown unit :=
  fun s =>
    let '(res, w) := callback r (world s) in
    (res, set_world w (record (CALLBACK r) s)).

(** watch.hpp:103-110 and 181-188, the same text in [Run] and [RunOnce]:
    the first watch URL. *)
Definition start {X} (key : string) (prevIndex : Z) : M E X unit :=
  prefix <- gets (fun s => url_prefix_ (this s)) ;;
  set_watch_url (watch_url_base prefix key) ;;
  if negb (prevIndex =? 0) then
    set_prev_index_ prevIndex ;;
    p <- gets (fun s => prev_index_ (this s)) ;;
    u <- gets watch_url ;;
    set_watch_url (u ++ Str.to_string (Index_add1 E p))
  else
    p <- gets (fun s => prev_index_ (this s)) ;;
    if negb (p =? 0) then
      u <- gets watch_url ;;
      set_watch_url (u ++ Str.to_string (Index_add1 E p))
    else ret tt.

(** watch.hpp:117-125 and 192-200: one long poll, the callback, the cursor
    and the next watch URL. *)
Definition watch (wait_url_base : string) : M E thrown unit :=
  u <- gets watch_url ;;
  ret_ <- Curl_Get u ;;
  r <- construct_Reply ret_ ;;
  invoke r ;;
  set_prev_index_ (to_Index E (get_modified_index E r)) ;;
  p <- gets (fun s => prev_index_ (this s)) ;;
  set_watch_url (wait_url_base ++ Str.to_string (Index_add1 E p)).

(** watch.hpp:148-154 and 220-226: the loop over the lines of the captured
    header.  [pos] receives the value of the comparison [find(...) != npos],
    1 or 0, and the body is entered when it is not 0. *)
Fixpoint scan_header (lines : list string) : M E thrown unit :=
  match lines with
  | [] => ret tt
  | line :: rest =>
      let len := String.length etcd_index_label in
      let pos : nat :=
        match Str.find line etcd_index_label with
        | Some _ => 1%nat
        | None => 0%nat
        end in
      if negb (pos =? 0)%nat then
        match Str.substr line (pos + len - 1) with
        | None => throw (std_out_of_range "basic_string::substr")
        | Some v =>
            match Str.stoi v with
            | Str.Parsed n => set_prev_index_ (to_Index E n)
            | Str.invalid_argument => throw (std_invalid_argument "stoi")
            | Str.out_of_range => throw (std_out_of_range "stoi")
            end
        end
      else scan_header rest
  end.

(** watch.hpp:135-156 and 207-228: the body of the inner [try], the recovery
    from an index out of date. *)
Definition recover (key wait_url_base : string) : M E thrown unit :=
  Curl_EnableHeader true ;;
  prefix <- gets (fun s => url_prefix_ (this s)) ;;
  ret_ <- Curl_Get (prefix ++ key) ;;
  r <- construct_Reply ret_ ;;
  invoke r ;;
  header <- Curl_GetHeader ;;
  scan_header (Str.getlines header) ;;
  Curl_EnableHeader false ;;
  p <- gets (fun s => prev_index_ (this s)) ;;
  set_watch_url (wait_url_base ++ Str.to_string (Index_add1 E p)).

(** [max_failures--] *)
Definition decrement_max_failures {X} : M E X unit :=
  n <- gets max_failures ;;
  set_max_failures (n - 1).

(** watch.hpp:115-129 the body of the outer [try] of [Run]. *)
Definition Run_try (wait_url_base : string) : M E thrown unit :=
  watch wait_url_base ;;
  set_max_failures MAX_FAILURES.

(** watch.hpp:130-164 the two handlers of [Run], tried in this order. *)
Definition Run_catch (key wait_url_base : string) (e : thrown)
  : option (M E exn unit) :=
  match reply_error_code e with
  | Some error_code =>
      Some ((if error_code =? 401
             then catch_all (recover key wait_url_base)
             else ret tt) ;;
            decrement_max_failures)
  | None =>
      match std_what e with
      | Some _ => Some decrement_max_failures
      | None => None
      end
  end.

(** watch.hpp:115-164 one turn of the [while] loop. *)
Definition Run_iteration (key wait_url_base : string) : M E exn unit :=
  try_catch (Run_try wait_url_base) (Run_catch key wait_url_base) Uncaught.

(** watch.hpp:114 [while (max_failures)], for at most [fuel] turns: [None]
    when the loop is still running after them, [Some] when it was left, by
    its condition or by an exception. *)
Fixpoint Run_loop (fuel : nat) (key wait_url_base : string) (s : state E)
  : option (result exn unit) * state E :=
  if negb (max_failures s =? 0) then
    match fuel with
    | O => (None, s)
    | S fuel' =>
        match Run_iteration key wait_url_base s with
        | (Ok _, s') => Run_loop fuel' key wait_url_base s'
        | (Throw x, s') => (Some (Throw x), s')
        end
    end
  else (Some (Ok tt), s).

(** watch.hpp:98-170 *)
Definition Run (key : string) (prevIndex : Z) (fuel : nat) (s : state E)
  : option (result exn unit) * state E :=
  let wait_url_base := wait_url_base (url_prefix_ (this s)) key in
  match (start key prevIndex ;; set_max_failures MAX_FAILURES) s with
  | (Throw x, s0) => (Some (Throw x), s0)
  | (Ok _, s0) =>
      match Run_loop fuel key wait_url_base s0 with
      | (Some (Ok _), s1) =>
          if max_failures s1 =? 0
          then (Some (Throw (ClientException "watch failed or timedout")), s1)
          else (Some (Ok tt), s1)
      | other => other
      end
  end.

(** watch.hpp:202-233 the two handlers of [RunOnce], tried in this order. *)
Definition RunOnce_catch (key wait_url_base : string) (e : thrown)
  : option (M E exn unit) :=
  match reply_error_code e with
  | Some error_code =>
      Some (if error_code =? 401
            then catch_all (recover key wait_url_base)
            else ret tt)
  | None =>
      match std_what e with
      | Some what => Some (throw (ClientException ("failed with" ++ what)))
      | None => None
      end
  end.

(** watch.hpp:172-234 *)
Definition RunOnce (key : string) (prevIndex : Z) : M E exn unit :=
  fun s =>
    let wait_url_base := wait_url_base (url_prefix_ (this s)) key in
    (start key prevIndex ;;
     try_catch (watch wait_url_base) (RunOnce_catch key wait_url_base) Uncaught) s.

End WatchOps.

Arguments set_prev_index_ {E X} i.
Arguments set_watch_url {E X} u.
Arguments set_max_failures {E X} n.
Arguments construct_Reply {E} ret_.
Arguments invoke {E} callback r.
Arguments start {E X} key prevIndex.
Arguments watch {E} callback wait_url_base.
Arguments scan_header {E} lines.
Arguments recover {E} callback key wait_url_base.
Arguments decrement_max_failures {E X}.
Arguments Run_try {E} callback wait_url_base.
Arguments Run_catch {E} callback key wait_url_base e.
Arguments Run_iteration {E} callback key wait_url_base.
Arguments Run_loop {E} callback fuel key wait_url_base s.
Arguments Run {E} callback key prevIndex fuel s.
Arguments RunOnce_catch {E} callback key wait_url_base e.
Arguments RunOnce {E} callback key prevIndex.

(** ** Executions of the loop of [Run] *)

(** Whether one of the two handlers of [Run] and [RunOnce] matches. *)
Definition caught (e : thrown) : bool :=
  match reply_error_code e, std_what e with
  | None, None => false
  | _, _ => true
  end.

(** How a turn of the loop ends when nothing escapes it: the [try] block ran
    to its end, or it raised an exception that a handler matched. *)
Inductive turn : Type :=
| Success
| Failure.

Definition turn_eqb (a b : turn) : bool :=
  match a, b with
  | Success, Success | Failure, Failure => true
  | _, _ => false
  end.

Section Executions.

Variable E : Env.
Variable callback : Callback E.

Definition turn_of (wait_url_base : string) (s : state E) : option turn :=
  match Run_try callback wait_url_base s with
  | (Ok _, _) => Some Success
  | (Throw e, _) => if caught e then Some Failure else None
  end.

(** The state one turn of the loop leaves. *)
Definition after_turn (key wait_url_base : string) (s : state E) : state E :=
  snd (Run_iteration callback key wait_url_base s).

Fixpoint after_turns (n : nat) (key wait_url_base : string) (s : state E)
  : state E :=
  match n with
  | O => s
  | S n' => after_turns n' key wait_url_base (after_turn key wait_url_base s)
  end.

(** The next turns of the loop, from [s] on, end as [p] lists them. *)
Fixpoint follows (p : list turn) (key wait_url_base : string) (s : state E)
  : bool :=
  match p with
  | [] => true
  | t :: p' =>
      match turn_of wait_url_base s with
      | Some t' =>
          turn_eqb t t' && follows p' key wait_url_base (after_turn key wait_url_base s)
      | None => false
      end
  end.

(** The state in which [Run] enters its loop (watch.hpp:114), and the state
    in which [RunOnce] enters its [try] block (watch.hpp:190). *)
Definition Run_entry (key : string) (prevIndex : Z) (s : state E) : state E :=
  snd ((start key prevIndex ;; set_max_failures MAX_FAILURES : M E exn unit) s).

Definition RunOnce_entry (key : string) (prevIndex : Z) (s : state E) : state E :=
  snd ((start key prevIndex : M E exn unit) s).

(** The watch URL asks for the index after the cursor, and the cursor is a
    value of [Index]. *)
Definition asks_after_cursor (wait_url_base : string) (s : state E) : Prop :=
  watch_url s
    = wait_url_base ++ Str.to_string (Index_add1 E (prev_index_ (this s)))
  /\ 0 <= prev_index_ (this s) < 2 ^ Z.of_N (Index_bits E).

(** The reading of "an exception of the callback that derives from
    [std::exception] is counted like a generic failure and leaves the cursor
    and the watch URL as they were", at the turn of the loop that starts in
    [s]. *)
Definition callback_failure_is_generic (key wait_url_base : string)
    (s : state E) : Prop :=
  forall (t : transfer) (w1 w2 : World E) (r : Reply E) (e : thrown),
    curl_easy_perform E (watch_url s) (world s) = (t, w1) ->
    curl_code t = CURLE_OK ->
    Reply_ctor E (received_body t) = Ok r ->
    callback r w1 = (Throw e, w2) ->
    std_what e <> None ->
    exists s', Run_iteration callback key wait_url_base s = (Ok tt, s')
      /\ max_failures s' = max_failures s - 1
      /\ prev_index_ (this s') = prev_index_ (this s)
      /\ watch_url s' = watch_url s.

(** Spec 4.1, inputs: the callback "must not raise uncaught conditions back
    into the engine"; the same of the decoder. *)
Definition callback_contract : Prop :=
  forall r w e w', callback r w = (Throw e, w') -> caught e = true.

Definition decoder_contract : Prop :=
  forall body e, Reply_ctor E body = Throw e -> caught e = true.

(** The URLs of the requests in a trace, in order. *)
Fixpoint requests (tr : list (event E)) : list string :=
  match tr with
  | [] => []
  | GET url :: tr' => url :: requests tr'
  | CALLBACK _ :: tr' => requests tr'
  end.

(** The replies handed to the callback in a trace, in order. *)
Fixpoint deliveries (tr : list (event E)) : list (Reply E) :=
  match tr with
  | [] => []
  | GET _ :: tr' => deliveries tr'
  | CALLBACK r :: tr' => r :: deliveries tr'
  end.

End Executions.

Arguments turn_of {E} callback wait_url_base s.
Arguments callback_failure_is_generic {E} callback key wait_url_base s.
Arguments asks_after_cursor {E} wait_url_base s.
Arguments Run_entry {E} key prevIndex s.
Arguments RunOnce_entry {E} key prevIndex s.
Arguments after_turn {E} callback key wait_url_base s.
Arguments after_turns {E} callback n key wait_url_base s.
Arguments follows {E} callback p key wait_url_base s.
Arguments callback_contract {E} callback.
Arguments requests {E} tr.
Arguments deliveries {E} tr.

(** ** A scripted server, for concrete runs *)

Module Scenario.

(** A reply body is the decimal modified index of the key; a body that
    starts with an exclamation mark is an error body and carries the error
    code; any other body is malformed. *)
Definition decode (body : string) : result thrown Z :=
  match body with
  | String c code =>
      if Ascii.eqb c "!" then
        match Str.stoi code with
        | Str.Parsed error_code =>
            Throw (Thrown (Some error_code) (Some "etcd reply error"))
        | _ => Throw (Thrown None (Some "malformed reply"))
        end
      else
        match Str.stoi body with
        | Str.Parsed i => Ok i
        | _ => Throw (Thrown None (Some "malformed reply"))
        end
  | EmptyString => Throw (Thrown None (Some "malformed reply"))
  end.

(** CURLE_OPERATION_TIMEDOUT *)
Definition timed_out : transfer := Transfer 28 "" "".

(** The network answers the requests with the transfers of a script, in
    order, and times out when the script is used up. *)
Definition serve (url : string) (script : list transfer) : transfer * list transfer :=
  match script with
  | t :: rest => (t, rest)
  | [] => (timed_out, [])
  end.

Definition strerror (code : Z) : string :=
  if code =? 28 then "Timeout was reached" else "error".

(** A runtime that leaves the bytes of a destroyed string in place. *)
Definition intact {World : Type} (text : string) (w : World) : string := text.

Definition etcd : Env := {|
  Index_bits := 64;
  Reply := Z;
  Reply_ctor := decode;
  get_modified_index := fun r => r;
  World := list transfer;
  curl_easy_perform := serve;
  curl_easy_strerror := strerror;
  read_destroyed := intact
|}.

(** A network on which every transfer times out. *)
Definition offline : Env := {|
  Index_bits := 64;
  Reply := Z;
  Reply_ctor := decode;
  get_modified_index := fun r => r;
  World := unit;
  curl_easy_perform := fun _ w => (timed_out, w);
  curl_easy_strerror := strerror;
  read_destroyed := intact
|}.

Definition quiet (E : Env) : Callback E := fun _ w => (Ok tt, w).

(** A callback that raises a [ReplyException] with error code [code] on the
    replies whose index is [i]. *)
Definition picky (i code : Z) : Callback etcd :=
  fun r w =>
    if r =? i then (Throw (Thrown (Some code) (Some "etcd reply error")), w)
    else (Ok tt, w).

(** A callback that raises an exception derived from [std::exception] on
    every reply. *)
Definition grumpy : Callback etcd :=
  fun _ w => (Throw (Thrown None (Some "callback failed")), w).

(** A response with status 200: headers, then the body. *)
Definition ok (headers body : string) : transfer := Transfer CURLE_OK headers body.

Definition CRLF : string := String Str.CR (String Str.LF "").

(** The reply of the server to a watch whose index is out of date. *)
Definition stale : transfer := ok "" "!401".

(** Response headers of a snapshot taken at index 100. *)
Definition index_header : string :=
  "HTTP/1.1 200 OK" ++ CRLF ++
  "Content-Type: application/json" ++ CRLF ++
  "X-Etcd-Index: 100" ++ CRLF ++ CRLF.

(** The same index, after other text on its line. *)
Definition cookie_header : string :=
  "HTTP/1.1 200 OK" ++ CRLF ++
  "Set-Cookie: v=1234; X-Etcd-Index: 100" ++ CRLF ++ CRLF.

(** The label inside the value of an earlier header. *)
Definition note_header : string :=
  "HTTP/1.1 200 OK" ++ CRLF ++
  "X-Note: see X-Etcd-Index: 5" ++ CRLF ++
  "X-Etcd-Index: 100" ++ CRLF ++ CRLF.

(** A header whose value is not a number. *)
Definition bad_header : string :=
  "HTTP/1.1 200 OK" ++ CRLF ++
  "X-Etcd-Index: none" ++ CRLF ++ CRLF.

Definition prefix : string := "http://127.0.0.1:2379/v2/keys".

(** The engine [Watch("127.0.0.1", 2379)] before its first call, in world
    [w]; the locals of [Run] have no value yet. *)
Definition fresh (E : Env) (w : World E) : state E :=
  mkState (Watch_ctor "127.0.0.1" 2379) "" 0 w [].

(** The engine after a call left [prev_index_] at [c]. *)
Definition resumed (E : Env) (c : Z) (w : World E) : state E :=
  mkState (mkWatch c "http://127.0.0.1:2379/v2/keys" (mkCurl false "" "")) "" 0 w [].

End Scenario.

(** ** The rest of curl.hpp and of watch.hpp *)

(** curl.hpp:17 [CurlUnknownException], derived from [std::runtime_error];
    [what()] returns [error]. *)
Definition CurlUnknownException (error : string) : thrown :=
  Thrown None (Some error).

(** curl.hpp:118 the constructor of [Curl]; [curl_easy_init] gives a handle
    or NULL. *)
Definition Curl_ctor (curl_easy_init_ok : bool) : result thrown Curl :=
  if negb curl_easy_init_ok
  then Throw (CurlUnknownException "failed init")
  else Ok (mkCurl false "" "").

(** watch.hpp:84-94 the constructor of [Watch] with its function [try]
    block, whose handler matches the classes derived from
    [std::exception]. *)
Definition Watch_construct (curl_easy_init_ok : bool) (server : string)
    (port : Z) : result exn Watch :=
  match Curl_ctor curl_easy_init_ok with
  | Ok handle =>
      Ok (mkWatch 0
            ("http://" ++ server ++ ":" ++ Str.to_string port ++ "/v2/keys")
            handle)
  | Throw e =>
      match std_what e with
      | Some what => Throw (ClientException what)
      | None => Throw (Uncaught e)
      end
  end.

(** curl.hpp:49 [CurlOptions], a [std::map]: its entries in the order in
    which it is iterated, by ascending key. *)
Definition CurlOptions : Type := list (string * string).

(** curl.hpp:287-292 the text [opts] that the loop over the options
    prints. *)
Fixpoint post_fields (options : CurlOptions) : string :=
  match options with
  | [] => ""
  | (first, second) :: rest =>
      first ++ "=" ++ second ++ ";" ++ post_fields rest
  end.

(** What [_SetPostOptions] has set on the handle when it returns: the URL,
    the custom request, and the post fields when [CURLOPT_POST] is set, each
    as the C string that [curl_easy_setopt] was given. *)
Record request : Type := Request {
  request_url : string;
  request_type : string;
  request_fields : option string
}.

(** curl.hpp:189 [WriteCb] and curl.hpp:197 [HeaderCb]: the [size * nmemb]
    bytes at [buffer_p] go to the end of the stream, and their number is
    returned (the streams are taken not to fail). *)
Definition Curl_WriteCb (buffer : string) (size nmemb : nat) (c : Curl)
  : nat * Curl :=
  ((size * nmemb)%nat,
   mkCurl (enable_header_ c)
     (write_stream_ c ++ String.substring 0 (size * nmemb) buffer)
     (header_stream_ c)).

Definition Curl_HeaderCb (buffer : string) (size nmemb : nat) (c : Curl)
  : nat * Curl :=
  ((size * nmemb)%nat,
   mkCurl (enable_header_ c) (write_stream_ c)
     (header_stream_ c ++ String.substring 0 (size * nmemb) buffer)).

(** A transfer that hands its body to [WriteCb] in pieces, each piece as one
    member of its own size; it goes on as long as the callback returns the
    size of the piece, as libcurl does. *)
Fixpoint write_pieces (pieces : list string) (c : Curl) : bool * Curl :=
  match pieces with
  | [] => (true, c)
  | piece :: rest =>
      let '(n, c') := Curl_WriteCb piece 1 (String.length piece) c in
      if (n =? 1 * String.length piece)%nat then write_pieces rest c'
      else (false, c')
  end.

Fixpoint header_pieces (pieces : list string) (c : Curl) : bool * Curl :=
  match pieces with
  | [] => (true, c)
  | piece :: rest =>
      let '(n, c') := Curl_HeaderCb piece 1 (String.length piece) c in
      if (n =? 1 * String.length piece)%nat then header_pieces rest c'
      else (false, c')
  end.

Section CurlSet.

Variable E : Env.

(** [curl_easy_perform] on a handle set up by [_SetPostOptions]. *)
Variable curl_easy_perform_request : request -> World E -> transfer * World E.

(** curl.hpp:272 [_SetPostOptions]; the [curl_easy_setopt] calls are taken
    to return [CURLE_OK].  The options are given as [type.c_str()]
    (curl.hpp:279), [url.c_str()] (curl.hpp:227) and [opts.c_str()]
    (curl.hpp:296), while the test at curl.hpp:293 is on the whole text
    [opts]. *)
Definition Curl_SetPostOptions (url type : string) (options : CurlOptions)
  : M E thrown request :=
  Curl_SetCommonOptions E url ;;
  let opts := post_fields options in
  ret (Request (Str.c_str url) (Str.c_str type)
         (if negb (String.length opts =? 0)%nat then Some (Str.c_str opts)
          else None)).

Definition Curl_perform_request (req : request) : M E thrown Z :=
  fun s =>
    let '(t, w) := curl_easy_perform_request req (world s) in
    let s1 := on_handle (fun h =>
      mkCurl (enable_header_ h)
        (write_stream_ h ++ received_body t)
        (if enable_header_ h then header_stream_ h ++ received_headers t
         else header_stream_ h)) s in
    (Ok (curl_code t), set_world w s1).

(** curl.hpp:147 *)
Definition Curl_Set (url type : string) (options : CurlOptions)
  : M E thrown string :=
  req <- Curl_SetPostOptions url type options ;;
  err <- Curl_perform_request req ;;
  Curl_CheckError E err "easy perform" ;;
  gets (fun s => write_stream_ (handle_ (this s))).

End CurlSet.

Arguments Curl_SetPostOptions {E} url type options.
Arguments Curl_perform_request {E} curl_easy_perform_request req.
Arguments Curl_Set {E} curl_easy_perform_request url type options.

(** ** Further cases for the scripted server *)

Module Cases.

(** A callback that raises an object whose class neither handler matches. *)
Definition alien : Callback Scenario.etcd :=
  fun _ w => (Throw (Thrown None None), w).

(** Response headers of a snapshot taken at index 3000000000. *)
Definition large_index_header : string :=
  "HTTP/1.1 200 OK" ++ Scenario.CRLF ++
  "X-Etcd-Index: 3000000000" ++ Scenario.CRLF ++ Scenario.CRLF.

(** Response headers without the index. *)
Definition plain_header : string :=
  "HTTP/1.1 200 OK" ++ Scenario.CRLF ++
  "Content-Length: 1" ++ Scenario.CRLF ++ Scenario.CRLF.

(** A server for [Set] that answers every request with its own post fields,
    or with the text [none] when it has none. *)
Definition echo (req : request) (script : list transfer)
  : transfer * list transfer :=
  (Transfer CURLE_OK ""
     match request_fields req with
     | Some fields => fields
     | None => "none"
     end, script).

End Cases.

(** ** Vocabulary of the further properties *)

(** The number that the decimal digits [d] denote after the digits that
    gave [acc]. *)
Fixpoint uint_value (acc : Z) (d : Decimal.uint) : Z :=
  match d with
  | Decimal.Nil => acc
  | Decimal.D0 d' => uint_value (10 * acc + 0) d'
  | Decimal.D1 d' => uint_value (10 * acc + 1) d'
  | Decimal.D2 d' => uint_value (10 * acc + 2) d'
  | Decimal.D3 d' => uint_value (10 * acc + 3) d'
  | Decimal.D4 d' => uint_value (10 * acc + 4) d'
  | Decimal.D5 d' => uint_value (10 * acc + 5) d'
  | Decimal.D6 d' => uint_value (10 * acc + 6) d'
  | Decimal.D7 d' => uint_value (10 * acc + 7) d'
  | Decimal.D8 d' => uint_value (10 * acc + 8) d'
  | Decimal.D9 d' => uint_value (10 * acc + 9) d'
  end.

(** The text does not start with a decimal digit. *)
Definition no_leading_digit (s : string) : Prop :=
  match s with
  | EmptyString => True
  | String c _ => Str.digit_of c = None
  end.

(** The character [c] does not occur in [s]. *)
Fixpoint free_of (c : ascii) (s : string) : Prop :=
  match s with
  | EmptyString => True
  | String a rest => a <> c /\ free_of c rest
  end.

(** No line of the list holds the label of the index header. *)
Definition no_label (lines : list string) : Prop :=
  Forall (fun line => Str.find line etcd_index_label = None) lines.

Section Vocabulary.

Variable E : Env.

(** The engine [w] at the start of a call, in world [world] and with an
    empty trace; the locals of the call have no value yet. *)
Definition at_call (w : Watch) (world : World E) : state E :=
  mkState w "" 0 world [].

(** The watch URL after a reply [r]. *)
Definition url_after (wait_url_base : string) (r : Reply E) : string :=
  wait_url_base
  ++ Str.to_string (Index_add1 E (to_Index E (get_modified_index E r))).

(** The URLs of the long polls that deliver the replies [rs] one after the
    other, the first at [u]. *)
Fixpoint poll_urls (wait_url_base u : string) (rs : list (Reply E))
  : list string :=
  match rs with
  | [] => []
  | r :: rs' => u :: poll_urls wait_url_base (url_after wait_url_base r) rs'
  end.

(** The watch URL after these long polls. *)
Fixpoint url_after_all (wait_url_base u : string) (rs : list (Reply E))
  : string :=
  match rs with
  | [] => u
  | r :: rs' => url_after_all wait_url_base (url_after wait_url_base r) rs'
  end.

(** The events of the long polls that deliver the replies [rs] one after the
    other, the first at [u]: each request, then its reply at the callback. *)
Fixpoint exchanges (wait_url_base u : string) (rs : list (Reply E))
  : list (event E) :=
  match rs with
  | [] => []
  | r :: rs' =>
      GET u :: CALLBACK r
      :: exchanges wait_url_base (url_after wait_url_base r) rs'
  end.

(** What the outside does when long polls that start at the URL [u] in the
    world [w] are answered by [rs], one reply after the other, and leave the
    world [w']: the transfer of each request succeeds, its body decodes to
    the reply, the callback returns on the reply, and the next request goes
    to the URL after the reply. *)
Fixpoint answered (callback : Callback E) (wait_url_base u : string)
    (w : World E) (rs : list (Reply E)) (w' : World E) : Prop :=
  match rs with
  | [] => w' = w
  | r :: rs' =>
      exists (t : transfer) (w1 w2 : World E),
        curl_easy_perform E u w = (t, w1)
        /\ curl_code t = CURLE_OK
        /\ Reply_ctor E (received_body t) = Ok r
        /\ callback r w1 = (Ok tt, w2)
        /\ answered callback wait_url_base (url_after wait_url_base r) w2 rs' w'
  end.

(** The indices of the replies ascend from above [i], as the indices that a
    server assigns to the changes it reports one after the other, and stay
    below the largest value of [Index]. *)
Fixpoint ascending (i : Z) (rs : list (Reply E)) : Prop :=
  match rs with
  | [] => True
  | r :: rs' =>
      i < get_modified_index E r
      /\ get_modified_index E r + 1 < 2 ^ Z.of_N (Index_bits E)
      /\ ascending (get_modified_index E r) rs'
  end.

End Vocabulary.

Arguments exchanges {E} wait_url_base u rs.
Arguments answered {E} callback wait_url_base u w rs w'.
Arguments ascending {E} i rs.
Arguments at_call {E} w world.
Arguments url_after {E} wait_url_base r.
Arguments poll_urls {E} wait_url_base u rs.
Arguments url_after_all {E} wait_url_base u rs.

(** * Properties *)

(** ** The string operations on concrete texts *)

Example to_string_43 : Str.to_string 43 = "43".
Proof. reflexivity. Qed.

Example to_string_0 : Str.to_string 0 = "0".
Proof. reflexivity. Qed.

Example getlines_empty_line :
  Str.getlines ("a" ++ String Str.LF (String Str.LF "bc")) = ["a"; ""; "bc"].
Proof. reflexivity. Qed.

Example getlines_last_delimiter :
  Str.getlines (String "a" (String Str.LF "")) = ["a"].
Proof. reflexivity. Qed.

Example stoi_header_value : Str.stoi ("100" ++ Scenario.CRLF) = Str.Parsed 100.
Proof. reflexivity. Qed.

Example stoi_no_digit : Str.stoi "x: 100" = Str.invalid_argument.
Proof. reflexivity. Qed.

Example stoi_too_large : Str.stoi "99999999999" = Str.out_of_range.
Proof. reflexivity. Qed.

(** ** The index type *)

Lemma to_Index_range (E : Env) (z : Z) :
  0 <= to_Index E z < 2 ^ Z.of_N (Index_bits E).
Proof.
  unfold to_Index. apply Z.mod_pos_bound.
  apply Z.pow_pos_nonneg; lia.
Qed.

Lemma to_Index_small (E : Env) (z : Z) :
  0 <= z < 2 ^ Z.of_N (Index_bits E) -> to_Index E z = z.
Proof. intros H. unfold to_Index. now apply Z.mod_small. Qed.

Lemma Index_add1_small (E : Env) (i : Z) :
  0 <= i -> i + 1 < 2 ^ Z.of_N (Index_bits E) -> Index_add1 E i = i + 1.
Proof. intros H0 H1. unfold Index_add1. apply to_Index_small. lia. Qed.

(** ** Texts and traces *)

Lemma string_app_inv_head (a b c : string) : a ++ b = a ++ c -> b = c.
Proof.
  induction a as [|x a IH]; simpl; intros H; [exact H|].
  inversion H. now apply IH.
Qed.

(** Two numbers that [std::to_string] prints alike are the same number. *)
Lemma to_string_inj (a b : Z) :
  0 <= a -> 0 <= b -> Str.to_string a = Str.to_string b -> a = b.
Proof.
  unfold Str.to_string. intros Ha Hb H.
  apply (f_equal NilEmpty.uint_of_string) in H.
  rewrite !NilEmpty.usu in H. inversion H as [H1].
  apply (f_equal N.of_uint) in H1.
  rewrite !DecimalN.Unsigned.of_to in H1.
  now apply Z2N.inj.
Qed.

Lemma requests_app (E : Env) (a b : list (event E)) :
  requests (a ++ b) = (requests a ++ requests b)%list.
Proof.
  induction a as [|[u|r] a IH]; simpl; [reflexivity| |exact IH].
  now rewrite IH.
Qed.

Lemma deliveries_app (E : Env) (a b : list (event E)) :
  deliveries (a ++ b) = (deliveries a ++ deliveries b)%list.
Proof.
  induction a as [|[u|r] a IH]; simpl; [reflexivity|exact IH|].
  now rewrite IH.
Qed.

(** ** One long poll *)

Ltac unfold_monad :=
  unfold bind, ret, throw, gets, modify, try_catch, catch_all in *.

Ltac unfold_curl :=
  unfold Curl_Get, Curl_SetGetOptions, Curl_SetCommonOptions, Curl_perform,
    Curl_CheckError, Curl_EnableHeader, Curl_GetHeader in *.

Ltac unfold_setters :=
  unfold set_prev_index_, set_watch_url, set_max_failures, on_handle, record,
    set_world in *.

Section Properties.

Variable E : Env.
Variable callback : Callback E.

(** What a GET does, whatever its outcome. *)
Lemma Curl_Get_effect (url : string) (s : state E) :
  forall res s', Curl_Get url s = (res, s') ->
    let t := fst (curl_easy_perform E url (world s)) in
    (res = (if curl_code t =? CURLE_OK then Ok (received_body t)
            else Throw (CurlException
                          (fun text => read_destroyed E text (world s'))
                          (curl_easy_strerror E) (curl_code t)
                          "Failed easy perform")))
    /\ prev_index_ (this s') = prev_index_ (this s)
    /\ url_prefix_ (this s') = url_prefix_ (this s)
    /\ enable_header_ (handle_ (this s')) = enable_header_ (handle_ (this s))
    /\ header_stream_ (handle_ (this s')) =
         (if enable_header_ (handle_ (this s)) then received_headers t
          else header_stream_ (handle_ (this s)))
    /\ watch_url s' = watch_url s
    /\ max_failures s' = max_failures s
    /\ world s' = snd (curl_easy_perform E url (world s))
    /\ trace s' = (trace s ++ [GET url])%list.
Proof.
  intros res s'. unfold_curl. unfold_monad. unfold_setters. simpl.
  destruct (curl_easy_perform E url (world s)) as [t w] eqn:Hp. simpl.
  destruct (curl_code t =? CURLE_OK) eqn:Hc; simpl; intros H;
    inversion H; subst; clear H; simpl;
    destruct (enable_header_ (handle_ (this s))); simpl; repeat split; reflexivity.
Qed.

(** The state a long poll leaves, whatever its outcome, is the state its GET
    and its callback leave, with the cursor and the watch URL rewritten when
    it ran to its end. *)
Ltac watch_cases :=
  unfold watch, construct_Reply, invoke; unfold_curl; unfold_monad;
  unfold_setters; simpl;
  match goal with
  | |- context [curl_easy_perform ?E ?u ?w] =>
      destruct (curl_easy_perform E u w) as [?t ?w1] eqn:?Hperform; simpl
  end;
  destruct (curl_code _ =? CURLE_OK) eqn:?Hcode; simpl;
  [ destruct (Reply_ctor _ _) as [?r|?e] eqn:?Hdecode; simpl;
    [ match goal with
      | |- context [callback ?r ?w] =>
          destruct (callback r w) as [[[]|?e] ?w2] eqn:?Hcallback; simpl
      end
    | ]
  | ].

(** An exception leaves a long poll before the cursor, the watch URL or the
    failure budget is written. *)
Lemma watch_throw_frame (wait_url_base : string) (s : state E) :
  forall e s', watch callback wait_url_base s = (Throw e, s') ->
    prev_index_ (this s') = prev_index_ (this s)
    /\ watch_url s' = watch_url s
    /\ max_failures s' = max_failures s
    /\ url_prefix_ (this s') = url_prefix_ (this s)
    /\ enable_header_ (handle_ (this s')) = enable_header_ (handle_ (this s)).
Proof.
  intros e s'. watch_cases; intros H; inversion H; subst; simpl;
    repeat split; reflexivity.
Qed.

(** A long poll never writes the failure budget or the URL prefix. *)
Lemma watch_keeps_budget (wait_url_base : string) (s : state E) :
  forall res s', watch callback wait_url_base s = (res, s') ->
    max_failures s' = max_failures s
    /\ url_prefix_ (this s') = url_prefix_ (this s)
    /\ enable_header_ (handle_ (this s')) = enable_header_ (handle_ (this s)).
Proof.
  intros res s'. watch_cases; intros H; inversion H; subst; simpl;
    repeat split; reflexivity.
Qed.

(** The first thing a long poll does is the GET on the watch URL. *)
Lemma watch_first_request (wait_url_base : string) (s : state E) :
  forall res s', watch callback wait_url_base s = (res, s') ->
    exists rest, trace s' = (trace s ++ GET (watch_url s) :: rest)%list.
Proof.
  intros res s'. watch_cases; intros H; inversion H; subst; simpl;
    try (exists []; reflexivity);
    rewrite <- app_assoc; simpl; eexists; reflexivity.
Qed.

(** Where the exception of a long poll comes from. *)
Lemma watch_throw_origin (wait_url_base : string) (s : state E) :
  forall e s', watch callback wait_url_base s = (Throw e, s') ->
    (exists read code msg,
        e = CurlException read (curl_easy_strerror E) code msg)
    \/ (exists body, Reply_ctor E body = Throw e)
    \/ (exists r w w', callback r w = (Throw e, w')).
Proof.
  intros e s'. watch_cases; intros H; inversion H; subst; simpl.
  - right. right. eauto.
  - right. left. eauto.
  - left. eauto.
Qed.

(** The long poll that succeeds: the transfer, the decoding and the callback
    all return. *)
Lemma watch_success (wait_url_base : string) (s : state E)
    (t : transfer) (w1 w2 : World E) (r : Reply E) :
  curl_easy_perform E (watch_url s) (world s) = (t, w1) ->
  curl_code t = CURLE_OK ->
  Reply_ctor E (received_body t) = Ok r ->
  callback r w1 = (Ok tt, w2) ->
  exists s', watch callback wait_url_base s = (Ok tt, s')
    /\ prev_index_ (this s') = to_Index E (get_modified_index E r)
    /\ watch_url s' =
         wait_url_base ++ Str.to_string (Index_add1 E (prev_index_ (this s')))
    /\ max_failures s' = max_failures s
    /\ url_prefix_ (this s') = url_prefix_ (this s)
    /\ enable_header_ (handle_ (this s')) = enable_header_ (handle_ (this s))
    /\ world s' = w2
    /\ trace s' = (trace s ++ [GET (watch_url s); CALLBACK r])%list.
Proof.
  intros Hp Hc Hd Hcb.
  unfold watch, construct_Reply, invoke; unfold_curl; unfold_monad;
    unfold_setters; simpl.
  rewrite Hp; simpl. rewrite Hc; simpl. rewrite Hd; simpl. rewrite Hcb; simpl.
  eexists; split; [reflexivity|]; simpl.
  rewrite <- app_assoc. repeat split; reflexivity.
Qed.

(** The long poll whose reply the decoder rejects. *)
Lemma watch_decode_throws (wait_url_base : string) (s : state E)
    (t : transfer) (w1 : World E) (e : thrown) :
  curl_easy_perform E (watch_url s) (world s) = (t, w1) ->
  curl_code t = CURLE_OK ->
  Reply_ctor E (received_body t) = Throw e ->
  exists s', watch callback wait_url_base s = (Throw e, s')
    /\ world s' = w1
    /\ trace s' = (trace s ++ [GET (watch_url s)])%list.
Proof.
  intros Hp Hc Hd.
  unfold watch, construct_Reply, invoke; unfold_curl; unfold_monad;
    unfold_setters; simpl.
  rewrite Hp; simpl. rewrite Hc; simpl. rewrite Hd; simpl.
  eexists; split; [reflexivity|]; simpl. split; reflexivity.
Qed.

(** The long poll whose callback raises. *)
Lemma watch_callback_throws (wait_url_base : string) (s : state E)
    (t : transfer) (w1 w2 : World E) (r : Reply E) (e : thrown) :
  curl_easy_perform E (watch_url s) (world s) = (t, w1) ->
  curl_code t = CURLE_OK ->
  Reply_ctor E (received_body t) = Ok r ->
  callback r w1 = (Throw e, w2) ->
  exists s', watch callback wait_url_base s = (Throw e, s')
    /\ world s' = w2
    /\ trace s' = (trace s ++ [GET (watch_url s); CALLBACK r])%list.
Proof.
  intros Hp Hc Hd Hcb.
  unfold watch, construct_Reply, invoke; unfold_curl; unfold_monad;
    unfold_setters; simpl.
  rewrite Hp; simpl. rewrite Hc; simpl. rewrite Hd; simpl. rewrite Hcb; simpl.
  eexists; split; [reflexivity|]; simpl.
  rewrite <- app_assoc. split; reflexivity.
Qed.

(** The long poll whose transfer fails. *)
Lemma watch_transfer_fails (wait_url_base : string) (s : state E) :
  curl_code (fst (curl_easy_perform E (watch_url s) (world s))) <> CURLE_OK ->
  exists e s', watch callback wait_url_base s = (Throw e, s')
    /\ reply_error_code e = None
    /\ std_what e <> None
    /\ trace s' = (trace s ++ [GET (watch_url s)])%list.
Proof.
  intros Hc.
  unfold watch, construct_Reply, invoke; unfold_curl; unfold_monad;
    unfold_setters; simpl.
  destruct (curl_easy_perform E (watch_url s) (world s)) as [t w1]; simpl in *.
  apply Z.eqb_neq in Hc. rewrite Hc; simpl.
  do 2 eexists; split; [reflexivity|]; simpl.
  repeat split; [discriminate].
Qed.

(** ** The recovery from an index out of date *)

(** The header scan writes nothing but the cursor, and that only when it
    returns. *)
Lemma scan_header_effect (lines : list string) (s : state E) :
  forall res s', scan_header lines s = (res, s') ->
    handle_ (this s') = handle_ (this s)
    /\ url_prefix_ (this s') = url_prefix_ (this s)
    /\ watch_url s' = watch_url s
    /\ max_failures s' = max_failures s
    /\ world s' = world s
    /\ trace s' = trace s
    /\ (forall e, res = Throw e -> s' = s).
Proof.
  induction lines as [|line rest IH]; intros res s'; simpl.
  - unfold_monad. intros H; inversion H; subst. repeat split; discriminate.
  - destruct (Str.find line etcd_index_label); simpl.
    + destruct (Str.substr line _); simpl.
      * destruct (Str.stoi _); unfold_monad; unfold_setters; simpl;
          intros H; inversion H; subst; simpl; repeat split;
          try discriminate; reflexivity.
      * unfold_monad. intros H; inversion H; subst.
        repeat split; reflexivity.
    + apply IH.
Qed.

Ltac recover_cases :=
  unfold recover, construct_Reply, invoke; unfold_curl; unfold_monad;
  unfold_setters; simpl;
  match goal with
  | |- context [curl_easy_perform ?E ?u ?w] =>
      destruct (curl_easy_perform E u w) as [?t ?w1] eqn:?Hperform; simpl
  end;
  destruct (curl_code _ =? CURLE_OK) eqn:?Hcode; simpl;
  [ destruct (Reply_ctor _ _) as [?r|?e] eqn:?Hdecode; simpl;
    [ match goal with
      | |- context [callback ?r ?w] =>
          destruct (callback r w) as [[[]|?e] ?w2] eqn:?Hcallback; simpl;
          [ match goal with
            | |- context [scan_header ?l ?s] =>
                let Hs := fresh "Hscan" in
                destruct (scan_header l s) as [[[]|?e] ?s2] eqn:Hs; simpl;
                apply scan_header_effect in Hs; simpl in Hs;
                destruct Hs as (?Hh & ?Hu & ?Hw & ?Hm & ?Hwo & ?Ht & ?Hthrow)
            end
          | ]
      end
    | ]
  | ].

(** The recovery never writes the failure budget or the URL prefix. *)
Lemma recover_keeps_budget (key wait_url_base : string) (s : state E) :
  forall res s', recover callback key wait_url_base s = (res, s') ->
    max_failures s' = max_failures s
    /\ url_prefix_ (this s') = url_prefix_ (this s).
Proof.
  intros res s'. recover_cases; intros H; inversion H; subst; simpl;
    try (split; reflexivity).
  - split; assumption.
  - split; assumption.
Qed.

(** A recovery that runs to its end has switched header capture off and left
    a watch URL that asks for the index after the cursor. *)
Lemma recover_returns (key wait_url_base : string) (s : state E) :
  forall s', recover callback key wait_url_base s = (Ok tt, s') ->
    enable_header_ (handle_ (this s')) = false
    /\ watch_url s' =
         wait_url_base ++ Str.to_string (Index_add1 E (prev_index_ (this s'))).
Proof.
  intros s'. recover_cases; intros H; inversion H; subst; simpl.
  split; reflexivity.
Qed.

(** A recovery that an exception ends leaves the cursor and the watch URL as
    they were, and header capture switched on. *)
Lemma recover_throws (key wait_url_base : string) (s : state E) :
  forall e s', recover callback key wait_url_base s = (Throw e, s') ->
    prev_index_ (this s') = prev_index_ (this s)
    /\ watch_url s' = watch_url s
    /\ enable_header_ (handle_ (this s')) = true.
Proof.
  intros e s'. recover_cases; intros H; inversion H; subst; simpl;
    try (repeat split; reflexivity).
  specialize (Hthrow _ eq_refl). rewrite Hthrow. simpl.
  repeat split; reflexivity.
Qed.

(** The first thing a recovery does is the GET on the bare key. *)
Lemma recover_first_request (key wait_url_base : string) (s : state E) :
  forall res s', recover callback key wait_url_base s = (res, s') ->
    exists rest,
      trace s' = (trace s ++ GET (url_prefix_ (this s) ++ key) :: rest)%list.
Proof.
  intros res s'. recover_cases; intros H; inversion H; subst; simpl;
    try rewrite Ht; simpl;
    try (exists []; reflexivity);
    rewrite <- app_assoc; simpl; eexists; reflexivity.
Qed.

(** ** One turn of the loop of [Run] *)

Lemma Run_try_throws (wait_url_base : string) (s : state E) :
  forall e s1, Run_try callback wait_url_base s = (Throw e, s1) ->
    watch callback wait_url_base s = (Throw e, s1).
Proof.
  intros e s1. unfold Run_try, bind at 1.
  destruct (watch callback wait_url_base s) as [[[]|e'] s'].
  - unfold set_max_failures, modify. discriminate.
  - intros H; inversion H; reflexivity.
Qed.

Lemma Run_try_returns (wait_url_base : string) (s : state E) :
  forall s1, Run_try callback wait_url_base s = (Ok tt, s1) ->
    exists s0, watch callback wait_url_base s = (Ok tt, s0)
      /\ s1 = mkState (this s0) (watch_url s0) MAX_FAILURES (world s0) (trace s0).
Proof.
  intros s1. unfold Run_try, bind at 1.
  destruct (watch callback wait_url_base s) as [[[]|e'] s'].
  - unfold set_max_failures, modify. intros H; inversion H. eauto.
  - discriminate.
Qed.

(** A turn whose [try] block runs to its end: the failure budget is full
    again. *)
Lemma Run_iteration_success (key wait_url_base : string) (s s1 : state E) :
  Run_try callback wait_url_base s = (Ok tt, s1) ->
  Run_iteration callback key wait_url_base s = (Ok tt, s1)
  /\ max_failures s1 = MAX_FAILURES.
Proof.
  intros H. unfold Run_iteration, try_catch. rewrite H. split; [reflexivity|].
  apply Run_try_returns in H. destruct H as (s0 & _ & ->). reflexivity.
Qed.

(** A turn whose [try] block raises an exception that a handler matches:
    nothing escapes, and the failure budget is one less. *)
Lemma Run_iteration_failure (key wait_url_base : string) (s s1 : state E)
    (e : thrown) :
  Run_try callback wait_url_base s = (Throw e, s1) ->
  caught e = true ->
  exists s', Run_iteration callback key wait_url_base s = (Ok tt, s')
    /\ max_failures s' = max_failures s - 1
    /\ url_prefix_ (this s') = url_prefix_ (this s).
Proof.
  intros Htry Hcaught.
  pose proof (Run_try_throws _ _ _ _ Htry) as Hw.
  apply watch_throw_frame in Hw. destruct Hw as (_ & _ & Hm & Hu & _).
  unfold Run_iteration, try_catch. rewrite Htry.
  unfold Run_catch, caught in *.
  destruct (reply_error_code e) as [code|].
  - destruct (code =? 401).
    + unfold bind at 1, catch_all.
      destruct (recover callback key wait_url_base s1) as [res s2] eqn:Hr.
      apply recover_keeps_budget in Hr. destruct Hr as [Hm2 Hu2]. simpl.
      unfold decrement_max_failures; unfold_monad; unfold_setters; simpl.
      eexists; split; [reflexivity|]. simpl. split; congruence.
    + unfold decrement_max_failures; unfold_monad; unfold_setters; simpl.
      eexists; split; [reflexivity|]. simpl. split; congruence.
  - destruct (std_what e); [|discriminate].
    unfold decrement_max_failures; unfold_monad; unfold_setters; simpl.
    eexists; split; [reflexivity|]. simpl. split; congruence.
Qed.

(** A turn whose [try] block raises an exception that no handler matches. *)
Lemma Run_iteration_escape (key wait_url_base : string) (s s1 : state E)
    (e : thrown) :
  Run_try callback wait_url_base s = (Throw e, s1) ->
  caught e = false ->
  Run_iteration callback key wait_url_base s = (Throw (Uncaught e), s1).
Proof.
  intros Htry Hcaught. unfold Run_iteration, try_catch. rewrite Htry.
  unfold Run_catch, caught in *.
  destruct (reply_error_code e); [discriminate|].
  destruct (std_what e); [discriminate|]. reflexivity.
Qed.

Lemma turn_of_Success (key wait_url_base : string) (s : state E) :
  turn_of callback wait_url_base s = Some Success ->
  Run_iteration callback key wait_url_base s
    = (Ok tt, after_turn callback key wait_url_base s)
  /\ max_failures (after_turn callback key wait_url_base s) = MAX_FAILURES.
Proof.
  unfold turn_of, after_turn.
  destruct (Run_try callback wait_url_base s) as [[[]|e] s1] eqn:Htry.
  - intros _. destruct (Run_iteration_success key _ _ _ Htry) as [-> Hm].
    split; [reflexivity|exact Hm].
  - destruct (caught e); discriminate.
Qed.

Lemma turn_of_Failure (key wait_url_base : string) (s : state E) :
  turn_of callback wait_url_base s = Some Failure ->
  Run_iteration callback key wait_url_base s
    = (Ok tt, after_turn callback key wait_url_base s)
  /\ max_failures (after_turn callback key wait_url_base s) = max_failures s - 1.
Proof.
  unfold turn_of, after_turn.
  destruct (Run_try callback wait_url_base s) as [[[]|e] s1] eqn:Htry.
  - discriminate.
  - destruct (caught e) eqn:Hc; [|discriminate]. intros _.
    destruct (Run_iteration_failure key _ _ _ _ Htry Hc) as (s' & -> & Hm & _).
    split; [reflexivity|exact Hm].
Qed.

(** ** The loop of [Run] *)

(** A turn that ends as a success or as a failure is followed by the rest of
    the loop. *)
Lemma Run_loop_turn (key wait_url_base : string) (s : state E) (t : turn)
    (fuel : nat) :
  max_failures s <> 0 ->
  turn_of callback wait_url_base s = Some t ->
  Run_loop callback (S fuel) key wait_url_base s
    = Run_loop callback fuel key wait_url_base
        (after_turn callback key wait_url_base s).
Proof.
  intros Hm Ht. simpl. apply Z.eqb_neq in Hm. rewrite Hm. simpl.
  destruct t.
  - apply (turn_of_Success key) in Ht. destruct Ht as [-> _]. reflexivity.
  - apply (turn_of_Failure key) in Ht. destruct Ht as [-> _]. reflexivity.
Qed.

(** As long as the failure budget lasts, failing turns keep the loop
    running, and each takes one from the budget. *)
Lemma Run_loop_failures (key wait_url_base : string) (k : nat) :
  forall (s : state E) (fuel : nat),
    follows callback (repeat Failure k) key wait_url_base s = true ->
    Z.of_nat k <= max_failures s ->
    Run_loop callback (k + fuel) key wait_url_base s
      = Run_loop callback fuel key wait_url_base
          (after_turns callback k key wait_url_base s)
    /\ max_failures (after_turns callback k key wait_url_base s)
       = max_failures s - Z.of_nat k.
Proof.
  induction k as [|k IH]; intros s fuel Hf Hk.
  - simpl. split; [reflexivity|lia].
  - cbn [repeat follows] in Hf.
    destruct (turn_of callback wait_url_base s) as [t|] eqn:Ht; [|discriminate].
    apply andb_prop in Hf. destruct Hf as [Heq Hf].
    destruct t; [discriminate|].
    cbn [Nat.add after_turns].
    rewrite (Run_loop_turn key _ _ Failure); [|lia|exact Ht].
    apply (turn_of_Failure key) in Ht. destruct Ht as [_ Hm].
    destruct (IH _ fuel Hf) as [-> Hm']; [lia|]. split; [reflexivity|lia].
Qed.

(** A pattern of turns splits where its list splits. *)
Lemma follows_app (key wait_url_base : string) (p q : list turn) :
  forall s : state E,
    follows callback (p ++ q)%list key wait_url_base s
    = follows callback p key wait_url_base s
      && follows callback q key wait_url_base
           (after_turns callback (List.length p) key wait_url_base s).
Proof.
  induction p as [|t p IH]; intros s; simpl.
  - reflexivity.
  - destruct (turn_of callback wait_url_base s); [|reflexivity].
    rewrite IH. now rewrite andb_assoc.
Qed.

Lemma after_turns_add (key wait_url_base : string) (n m : nat) :
  forall s : state E,
    after_turns callback (n + m) key wait_url_base s
    = after_turns callback m key wait_url_base
        (after_turns callback n key wait_url_base s).
Proof. induction n as [|n IH]; intros s; simpl; [reflexivity|apply IH]. Qed.

(** The loop is left by its condition only when the failure budget is 0. *)
Lemma Run_loop_exit (key wait_url_base : string) (fuel : nat) :
  forall (s s' : state E) (a : unit),
    Run_loop callback fuel key wait_url_base s = (Some (Ok a), s') ->
    max_failures s' = 0.
Proof.
  induction fuel as [|fuel IH]; intros s s' a; simpl;
    destruct (max_failures s =? 0) eqn:Hm; simpl.
  - intros H; inversion H; subst. now apply Z.eqb_eq.
  - discriminate.
  - intros H; inversion H; subst. now apply Z.eqb_eq.
  - destruct (Run_iteration callback key wait_url_base s) as [[u|x] s1].
    + apply IH.
    + discriminate.
Qed.

(** Under the contracts of the callback and of the decoder every exception of
    a long poll is one that a handler of [Run] matches. *)
Lemma contracts_caught (wait_url_base : string) (s s1 : state E) (e : thrown) :
  callback_contract callback -> decoder_contract E ->
  Run_try callback wait_url_base s = (Throw e, s1) -> caught e = true.
Proof.
  intros Hcb Hdec Htry. apply Run_try_throws in Htry.
  apply watch_throw_origin in Htry.
  destruct Htry as [(read & code & msg & ->) | [(body & Hd) | (r & w & w' & Hc)]].
  - reflexivity.
  - exact (Hdec _ _ Hd).
  - exact (Hcb _ _ _ _ Hc).
Qed.

(** Under these contracts no exception escapes a turn. *)
Lemma contracts_turn (key wait_url_base : string) (s : state E) :
  callback_contract callback -> decoder_contract E ->
  exists s', Run_iteration callback key wait_url_base s = (Ok tt, s').
Proof.
  intros Hcb Hdec.
  destruct (Run_try callback wait_url_base s) as [[[]|e] s1] eqn:Htry.
  - exists s1. now apply Run_iteration_success.
  - pose proof (contracts_caught _ _ _ _ Hcb Hdec Htry) as Hc.
    destruct (Run_iteration_failure key _ _ _ _ Htry Hc) as (s' & H & _).
    exists s'. exact H.
Qed.

Lemma contracts_loop (key wait_url_base : string) (fuel : nat) :
  callback_contract callback -> decoder_contract E ->
  forall (s s' : state E) (res : result exn unit),
    Run_loop callback fuel key wait_url_base s = (Some res, s') ->
    res = Ok tt /\ max_failures s' = 0.
Proof.
  intros Hcb Hdec.
  induction fuel as [|fuel IH]; intros s s' res; simpl;
    destruct (max_failures s =? 0) eqn:Hm; simpl.
  - intros H; inversion H; subst. split; [reflexivity|now apply Z.eqb_eq].
  - discriminate.
  - intros H; inversion H; subst. split; [reflexivity|now apply Z.eqb_eq].
  - destruct (contracts_turn key wait_url_base s Hcb Hdec) as [s1 ->].
    apply IH.
Qed.

(** ** [Run] and [RunOnce] from their entry *)

(** What the first lines of [Run] and [RunOnce] write: the cursor when
    [prevIndex] is not 0, and the watch URL. *)
Lemma start_effect (X : Type) (key : string) (prevIndex : Z) (s : state E) :
  exists s0, (start key prevIndex : M E X unit) s = (Ok tt, s0)
    /\ prev_index_ (this s0)
       = (if prevIndex =? 0 then prev_index_ (this s) else prevIndex)
    /\ watch_url s0
       = (if prev_index_ (this s0) =? 0
          then watch_url_base (url_prefix_ (this s)) key
          else watch_url_base (url_prefix_ (this s)) key
               ++ Str.to_string (Index_add1 E (prev_index_ (this s0))))
    /\ url_prefix_ (this s0) = url_prefix_ (this s)
    /\ handle_ (this s0) = handle_ (this s)
    /\ max_failures s0 = max_failures s
    /\ world s0 = world s
    /\ trace s0 = trace s.
Proof.
  unfold start; unfold_monad; unfold_setters; simpl.
  destruct (prevIndex =? 0) eqn:Hp; simpl.
  - destruct (prev_index_ (this s) =? 0) eqn:Hc; simpl;
      eexists; (split; [reflexivity|]); simpl; rewrite Hc; repeat split.
  - eexists; (split; [reflexivity|]); simpl. rewrite Hp. repeat split.
Qed.

Lemma Run_entry_effect (key : string) (prevIndex : Z) (s : state E) :
  prev_index_ (this (Run_entry key prevIndex s))
    = (if prevIndex =? 0 then prev_index_ (this s) else prevIndex)
  /\ watch_url (Run_entry key prevIndex s)
     = (if prev_index_ (this (Run_entry key prevIndex s)) =? 0
        then watch_url_base (url_prefix_ (this s)) key
        else watch_url_base (url_prefix_ (this s)) key
             ++ Str.to_string
                  (Index_add1 E (prev_index_ (this (Run_entry key prevIndex s)))))
  /\ url_prefix_ (this (Run_entry key prevIndex s)) = url_prefix_ (this s)
  /\ handle_ (this (Run_entry key prevIndex s)) = handle_ (this s)
  /\ max_failures (Run_entry key prevIndex s) = MAX_FAILURES
  /\ world (Run_entry key prevIndex s) = world s
  /\ trace (Run_entry key prevIndex s) = trace s.
Proof.
  unfold Run_entry, bind.
  destruct (start_effect exn key prevIndex s)
    as (s0 & -> & Hc & Hu & Hp & Hh & _ & Hw & Ht).
  unfold set_max_failures, modify. simpl.
  repeat split; assumption.
Qed.

Lemma RunOnce_entry_effect (key : string) (prevIndex : Z) (s : state E) :
  prev_index_ (this (RunOnce_entry key prevIndex s))
    = (if prevIndex =? 0 then prev_index_ (this s) else prevIndex)
  /\ watch_url (RunOnce_entry key prevIndex s)
     = (if prev_index_ (this (RunOnce_entry key prevIndex s)) =? 0
        then watch_url_base (url_prefix_ (this s)) key
        else watch_url_base (url_prefix_ (this s)) key
             ++ Str.to_string
                  (Index_add1 E (prev_index_ (this (RunOnce_entry key prevIndex s)))))
  /\ url_prefix_ (this (RunOnce_entry key prevIndex s)) = url_prefix_ (this s)
  /\ handle_ (this (RunOnce_entry key prevIndex s)) = handle_ (this s)
  /\ world (RunOnce_entry key prevIndex s) = world s
  /\ trace (RunOnce_entry key prevIndex s) = trace s.
Proof.
  unfold RunOnce_entry.
  destruct (start_effect exn key prevIndex s)
    as (s0 & -> & Hc & Hu & Hp & Hh & _ & Hw & Ht).
  simpl. repeat split; assumption.
Qed.

(** [Run] is its loop from [Run_entry], then lines 166-169. *)
Lemma Run_from_entry (key : string) (prevIndex : Z) (fuel : nat) (s : state E) :
  Run callback key prevIndex fuel s
  = match Run_loop callback fuel key (wait_url_base (url_prefix_ (this s)) key)
            (Run_entry key prevIndex s) with
    | (Some (Ok _), s1) =>
        if max_failures s1 =? 0
        then (Some (Throw (ClientException "watch failed or timedout")), s1)
        else (Some (Ok tt), s1)
    | other => other
    end.
Proof.
  unfold Run, Run_entry, bind.
  destruct (start_effect exn key prevIndex s) as (s0 & -> & _).
  reflexivity.
Qed.

(** [RunOnce] is its [try] statement from [RunOnce_entry]. *)
Lemma RunOnce_from_entry (key : string) (prevIndex : Z) (s : state E) :
  RunOnce callback key prevIndex s
  = try_catch (watch callback (wait_url_base (url_prefix_ (this s)) key))
      (RunOnce_catch callback key (wait_url_base (url_prefix_ (this s)) key))
      Uncaught (RunOnce_entry key prevIndex s).
Proof.
  unfold RunOnce, RunOnce_entry, bind.
  destruct (start_effect exn key prevIndex s) as (s0 & -> & _).
  reflexivity.
Qed.

(** While [Run] is still in its loop, so is the loop. *)
Lemma Run_running (key : string) (prevIndex : Z) (n : nat) (s sn : state E) :
  Run callback key prevIndex n s = (None, sn) ->
  Run_loop callback n key (wait_url_base (url_prefix_ (this s)) key)
    (Run_entry key prevIndex s) = (None, sn).
Proof.
  rewrite Run_from_entry.
  destruct (Run_loop callback n key _ (Run_entry key prevIndex s))
    as [[[u|x]|] s1]; try discriminate.
  - destruct (max_failures s1 =? 0); discriminate.
  - intros H; exact H.
Qed.

(** The turns of the loop compose. *)
Lemma Run_loop_compose (key wait_url_base : string) (n : nat) :
  forall (s sn : state E) (m : nat),
    Run_loop callback n key wait_url_base s = (None, sn) ->
    Run_loop callback (n + m) key wait_url_base s
      = Run_loop callback m key wait_url_base sn.
Proof.
  induction n as [|n IH]; intros s sn m; simpl.
  - destruct (max_failures s =? 0) eqn:Hm; simpl; [discriminate|].
    intros H; inversion H; subst. reflexivity.
  - destruct (max_failures s =? 0) eqn:Hm; simpl; [discriminate|].
    destruct (Run_iteration callback key wait_url_base s) as [[u|x] s1];
      [|discriminate].
    apply IH.
Qed.

Lemma follows_repeat_prefix (key wait_url_base : string) (t : turn) (k n : nat) :
  forall s : state E,
    (k <= n)%nat ->
    follows callback (repeat t n) key wait_url_base s = true ->
    follows callback (repeat t k) key wait_url_base s = true.
Proof.
  intros s Hk H.
  replace n with (k + (n - k))%nat in H by lia.
  rewrite repeat_app, follows_app in H.
  apply andb_prop in H. tauto.
Qed.

(** Failing turns that use up a full failure budget, in an execution of
    [Run] that is still in its loop after [n] turns. *)
Lemma Run_failures_from (key : string) (prevIndex : Z) (n k : nat)
    (s sn : state E) :
  Run callback key prevIndex n s = (None, sn) ->
  follows callback (repeat Failure k) key
    (wait_url_base (url_prefix_ (this s)) key) sn = true ->
  Z.of_nat k <= max_failures sn ->
  forall fuel,
    Run_loop callback (n + (k + fuel)) key
      (wait_url_base (url_prefix_ (this s)) key) (Run_entry key prevIndex s)
    = Run_loop callback fuel key (wait_url_base (url_prefix_ (this s)) key)
        (after_turns callback k key (wait_url_base (url_prefix_ (this s)) key) sn)
    /\ max_failures
         (after_turns callback k key (wait_url_base (url_prefix_ (this s)) key) sn)
       = max_failures sn - Z.of_nat k.
Proof.
  intros Hrun Hf Hk fuel. apply Run_running in Hrun.
  rewrite (Run_loop_compose _ _ _ _ _ _ Hrun).
  apply Run_loop_failures; assumption.
Qed.

Lemma Run_loop_0 (key wait_url_base : string) (s : state E) :
  Run_loop callback 0 key wait_url_base s
  = if max_failures s =? 0 then (Some (Ok tt), s) else (None, s).
Proof. simpl. destruct (max_failures s =? 0); reflexivity. Qed.

Lemma Run_loop_done (key wait_url_base : string) (fuel : nat) (s : state E) :
  max_failures s = 0 ->
  Run_loop callback fuel key wait_url_base s = (Some (Ok tt), s).
Proof. intros H. destruct fuel; simpl; rewrite H; reflexivity. Qed.

(** C2. Under the contracts of the callback and of the decoder (spec 4.1:
    neither raises a condition that the engine does not catch), [Run] ends in
    one way only, by raising [ClientException("watch failed or timedout")];
    in particular it never returns normally.  And whenever the failure budget
    is full (at the entry of the loop, or after a success) and the next
    [MAX_FAILURES] turns fail, [Run] is still in its loop before the last of
    them and raises that exception right after it: the state it ends in is
    the state the last failing turn left, so that no request follows. *)
Theorem Run_gives_up_after_MAX_FAILURES :
  callback_contract callback -> decoder_contract E ->
  forall (key : string) (prevIndex : Z) (s : state E),
    (forall fuel res s',
        Run callback key prevIndex fuel s = (Some res, s') ->
        res = Throw (ClientException "watch failed or timedout"))
    /\
    (forall n sn,
        Run callback key prevIndex n s = (None, sn) ->
        max_failures sn = MAX_FAILURES ->
        follows callback (repeat Failure (Z.to_nat MAX_FAILURES)) key
          (wait_url_base (url_prefix_ (this s)) key) sn = true ->
        (forall k, (k < Z.to_nat MAX_FAILURES)%nat ->
           Run callback key prevIndex (n + k) s
           = (None, after_turns callback k key
                      (wait_url_base (url_prefix_ (this s)) key) sn))
        /\
        (forall fuel, (n + Z.to_nat MAX_FAILURES <= fuel)%nat ->
           Run callback key prevIndex fuel s
           = (Some (Throw (ClientException "watch failed or timedout")),
              after_turns callback (Z.to_nat MAX_FAILURES) key
                (wait_url_base (url_prefix_ (this s)) key) sn))).
Proof.
  intros Hcb Hdec key prevIndex s. split.
  - intros fuel res s'. rewrite Run_from_entry.
    destruct (Run_loop callback fuel key _ (Run_entry key prevIndex s))
      as [[res1|] s1] eqn:Hloop; [|discriminate].
    destruct (contracts_loop key _ fuel Hcb Hdec _ _ _ Hloop) as [-> Hm].
    rewrite Hm. simpl. intros H; inversion H; reflexivity.
  - intros n sn Hrun Hfull Hf. split.
    + intros k Hk.
      pose proof (follows_repeat_prefix key _ Failure k _ sn
                    (Nat.lt_le_incl _ _ Hk) Hf) as Hfk.
      destruct (Run_failures_from key prevIndex n k s sn Hrun Hfk) with (fuel := 0%nat)
        as [Hl Hm]; [unfold MAX_FAILURES in *; lia|].
      rewrite Run_from_entry. rewrite Nat.add_0_r in Hl. rewrite Hl.
      rewrite Run_loop_0.
      destruct (max_failures (after_turns callback k key _ sn) =? 0) eqn:Hz.
      * apply Z.eqb_eq in Hz. unfold MAX_FAILURES in *; lia.
      * reflexivity.
    + intros fuel Hfuel.
      destruct (Run_failures_from key prevIndex n (Z.to_nat MAX_FAILURES) s sn Hrun Hf)
        with (fuel := (fuel - (n + Z.to_nat MAX_FAILURES))%nat)
        as [Hl Hm]; [unfold MAX_FAILURES in *; lia|].
      replace (n + (Z.to_nat MAX_FAILURES + (fuel - (n + Z.to_nat MAX_FAILURES))))%nat
        with fuel in Hl by lia.
      rewrite Run_from_entry, Hl.
      assert (Hz : max_failures
                (after_turns callback (Z.to_nat MAX_FAILURES) key
                   (wait_url_base (url_prefix_ (this s)) key) sn) = 0)
        by (unfold MAX_FAILURES in *; lia).
      rewrite Run_loop_done by exact Hz. rewrite Hz. reflexivity.
Qed.

(** With or without these contracts [Run] never returns normally: line 169
    is not reached.  What can leave it besides its own [ClientException] is
    an exception that neither handler matches. *)
Lemma Run_never_returns (key : string) (prevIndex : Z) (fuel : nat)
    (s s' : state E) (res : result exn unit) :
  Run callback key prevIndex fuel s = (Some res, s') ->
  res = Throw (ClientException "watch failed or timedout")
  \/ exists e, res = Throw (Uncaught e) /\ caught e = false.
Proof.
  rewrite Run_from_entry.
  destruct (Run_loop callback fuel key _ (Run_entry key prevIndex s))
    as [[[u|x]|] s1] eqn:Hloop; [| |discriminate].
  - apply Run_loop_exit in Hloop. rewrite Hloop. simpl.
    intros H; inversion H. now left.
  - intros H; inversion H; subst. right. clear H.
    revert Hloop. generalize (Run_entry key prevIndex s).
    induction fuel as [|fuel IH]; intros s0; simpl;
      destruct (max_failures s0 =? 0); simpl; try discriminate.
    destruct (Run_iteration callback key _ s0) as [[u|x'] s2] eqn:Hit.
    + apply IH.
    + intros H; inversion H; subst. clear H.
      destruct (Run_try callback (wait_url_base (url_prefix_ (this s)) key) s0)
        as [[[]|e] s3] eqn:Htry.
      * apply (Run_iteration_success key) in Htry. destruct Htry as [Htry _].
        congruence.
      * destruct (caught e) eqn:Hc.
        -- destruct (Run_iteration_failure key _ _ _ _ Htry Hc) as (s4 & H4 & _).
           congruence.
        -- rewrite (Run_iteration_escape key _ _ _ _ Htry Hc) in Hit.
           inversion Hit; subst. eauto.
Qed.

(** C3. A turn of the loop of [Run] that succeeds leaves the failure budget
    at [MAX_FAILURES].  So when, from a full budget, [MAX_FAILURES - 1]
    failing turns are followed by one success and by [MAX_FAILURES - 1]
    failing turns again, [Run] is still in its loop after them, with a budget
    of 1: it is the next failure, the [MAX_FAILURES]-th since the success,
    that makes it raise. *)
Theorem Run_success_resets_budget :
  forall (key : string) (prevIndex : Z) (s : state E),
    let wub := wait_url_base (url_prefix_ (this s)) key in
    let m := Z.to_nat (MAX_FAILURES - 1) in
    (forall st,
        turn_of callback wub st = Some Success ->
        max_failures (after_turn callback key wub st) = MAX_FAILURES)
    /\
    (forall n sn,
        Run callback key prevIndex n s = (None, sn) ->
        max_failures sn = MAX_FAILURES ->
        follows callback (repeat Failure m ++ Success :: repeat Failure m)%list
          key wub sn = true ->
        Run callback key prevIndex (n + (m + 1 + m)) s
          = (None, after_turns callback (m + 1 + m) key wub sn)
        /\ max_failures (after_turns callback (m + 1 + m) key wub sn) = 1
        /\ (turn_of callback wub (after_turns callback (m + 1 + m) key wub sn)
              = Some Failure ->
            forall fuel, (n + (m + 1 + m) + 1 <= fuel)%nat ->
              Run callback key prevIndex fuel s
              = (Some (Throw (ClientException "watch failed or timedout")),
                 after_turns callback (m + 1 + m + 1) key wub sn))).
Proof.
  intros key prevIndex s wub m. split.
  - intros st Ht. now apply (turn_of_Success key) in Ht.
  - intros n sn Hrun Hfull Hf.
    rewrite follows_app in Hf. apply andb_prop in Hf. destruct Hf as [Hf1 Hf2].
    rewrite repeat_length in Hf2. cbn [follows] in Hf2.
    destruct (turn_of callback wub (after_turns callback m key wub sn))
      as [t|] eqn:Ht; [|discriminate].
    apply andb_prop in Hf2. destruct Hf2 as [Heq Hf2].
    destruct t; [clear Heq|discriminate].
    (* the first failures *)
    assert (H1 : forall fuel,
      Run_loop callback (m + fuel) key wub sn
        = Run_loop callback fuel key wub (after_turns callback m key wub sn)
      /\ max_failures (after_turns callback m key wub sn) = 1).
    { intros fuel.
      destruct (Run_loop_failures key wub m sn fuel Hf1) as [Hl Hm];
        [subst m; unfold MAX_FAILURES in *; lia|].
      split; [exact Hl|]. subst m; unfold MAX_FAILURES in *; lia. }
    (* the success *)
    pose proof (turn_of_Success key _ _ Ht) as [_ H2].
    fold (after_turns callback 1 key wub (after_turns callback m key wub sn)) in H2.
    rewrite <- after_turns_add in H2.
    assert (H2' : forall fuel,
      Run_loop callback (S fuel) key wub (after_turns callback m key wub sn)
        = Run_loop callback fuel key wub (after_turns callback (m + 1) key wub sn)).
    { intros fuel. rewrite (Run_loop_turn key wub _ Success); [|destruct (H1 0%nat); lia|exact Ht].
      rewrite after_turns_add. reflexivity. }
    (* the failures after it *)
    assert (Hf3 : follows callback (repeat Failure m) key wub
                    (after_turns callback (m + 1) key wub sn) = true).
    { rewrite after_turns_add. exact Hf2. }
    assert (H3 : forall fuel,
      Run_loop callback (m + fuel) key wub (after_turns callback (m + 1) key wub sn)
        = Run_loop callback fuel key wub (after_turns callback (m + 1 + m) key wub sn)
      /\ max_failures (after_turns callback (m + 1 + m) key wub sn) = 1).
    { intros fuel.
      destruct (Run_loop_failures key wub m _ fuel Hf3) as [Hl Hm];
        [rewrite H2; subst m; unfold MAX_FAILURES; lia|].
      rewrite <- after_turns_add in Hl, Hm.
      split; [exact Hl|]. rewrite Hm, H2. subst m; unfold MAX_FAILURES; lia. }
    assert (Hall : forall fuel,
      Run_loop callback (n + (m + 1 + m + fuel)) key wub (Run_entry key prevIndex s)
        = Run_loop callback fuel key wub (after_turns callback (m + 1 + m) key wub sn)).
    { intros fuel. apply Run_running in Hrun.
      rewrite (Run_loop_compose _ _ _ _ _ _ Hrun). fold wub.
      replace (m + 1 + m + fuel)%nat with (m + S (m + fuel))%nat by lia.
      destruct (H1 (S (m + fuel))) as [-> _]. rewrite H2'.
      destruct (H3 fuel) as [-> _]. reflexivity. }
    destruct (H3 0%nat) as [_ Hone].
    split; [|split].
    + rewrite Run_from_entry.
      replace (n + (m + 1 + m))%nat with (n + (m + 1 + m + 0))%nat by lia.
      fold wub. rewrite Hall, Run_loop_0, Hone. reflexivity.
    + exact Hone.
    + intros Hlast fuel Hfuel.
      rewrite Run_from_entry. fold wub.
      replace fuel with (n + (m + 1 + m + S (fuel - (n + (m + 1 + m) + 1))))%nat by lia.
      rewrite Hall.
      rewrite (Run_loop_turn key wub _ Failure); [|lia|exact Hlast].
      apply (turn_of_Failure key) in Hlast. destruct Hlast as [_ Hm].
      fold (after_turns callback 1 key wub (after_turns callback (m + 1 + m) key wub sn)) in *.
      rewrite <- after_turns_add in *.
      rewrite Run_loop_done by lia.
      replace (max_failures (after_turns callback (m + 1 + m + 1) key wub sn)) with 0 by lia.
      reflexivity.
Qed.

(** ** The cursor and the watch URL *)

Lemma Index_add1_fresh (i : Z) :
  (0 < Index_bits E)%N -> 0 <= i < 2 ^ Z.of_N (Index_bits E) ->
  Index_add1 E i <> i.
Proof.
  intros Hb Hi. unfold Index_add1, to_Index.
  assert (H2 : 2 ^ 1 <= 2 ^ Z.of_N (Index_bits E))
    by (apply Z.pow_le_mono_r; lia).
  change (2 ^ 1) with 2 in H2.
  destruct (Z.eq_dec (i + 1) (2 ^ Z.of_N (Index_bits E))) as [Heq|Hne].
  - rewrite Heq, Z.mod_same by lia. lia.
  - rewrite Z.mod_small by lia. lia.
Qed.

(** A long poll that returns has set the cursor from a reply and the watch
    URL from the cursor. *)
Lemma watch_returns (wait_url_base : string) (s : state E) :
  forall s', watch callback wait_url_base s = (Ok tt, s') ->
    asks_after_cursor wait_url_base s'.
Proof.
  intros s'. watch_cases; intros H; inversion H; subst; simpl.
  split; [reflexivity|apply to_Index_range].
Qed.

Lemma scan_header_cursor (lines : list string) (s : state E) :
  forall res s', scan_header lines s = (res, s') ->
    prev_index_ (this s') = prev_index_ (this s)
    \/ exists n, prev_index_ (this s') = to_Index E n.
Proof.
  induction lines as [|line rest IH]; intros res s'; simpl.
  - unfold_monad. intros H; inversion H; subst. now left.
  - destruct (Str.find line etcd_index_label); simpl.
    + destruct (Str.substr line _); simpl.
      * destruct (Str.stoi _); unfold_monad; unfold_setters; simpl;
          intros H; inversion H; subst; simpl; eauto.
      * unfold_monad. intros H; inversion H; subst. now left.
    + apply IH.
Qed.

Lemma recover_cursor (key wait_url_base : string) (s : state E) :
  forall res s', recover callback key wait_url_base s = (res, s') ->
    prev_index_ (this s') = prev_index_ (this s)
    \/ exists n, prev_index_ (this s') = to_Index E n.
Proof.
  intros res s'.
  unfold recover, construct_Reply, invoke; unfold_curl; unfold_monad;
    unfold_setters; simpl.
  destruct (curl_easy_perform E _ (world s)) as [t w1]; simpl.
  destruct (curl_code t =? CURLE_OK); simpl;
    [|intros H; inversion H; subst; now left].
  destruct (Reply_ctor E (received_body t)) as [r|e]; simpl;
    [|intros H; inversion H; subst; now left].
  destruct (callback r w1) as [[[]|e] w2]; simpl;
    [|intros H; inversion H; subst; now left].
  match goal with
  | |- context [scan_header ?l ?st] =>
      destruct (scan_header l st) as [[[]|e] s2] eqn:Hs;
      apply scan_header_cursor in Hs; simpl in Hs
  end; intros H; inversion H; subst; simpl; exact Hs.
Qed.

(** Once the watch URL asks for the index after the cursor, it does so after
    every turn of the loop, however the turn ends. *)
Lemma asks_after_cursor_turn (key wait_url_base : string) (s : state E) :
  asks_after_cursor wait_url_base s ->
  asks_after_cursor wait_url_base (after_turn callback key wait_url_base s).
Proof.
  intros [Hu Hr]. unfold after_turn, Run_iteration, try_catch.
  destruct (Run_try callback wait_url_base s) as [[[]|e] s1] eqn:Htry; simpl.
  - apply Run_try_returns in Htry. destruct Htry as (s0 & Hw & ->).
    apply watch_returns in Hw. exact Hw.
  - apply Run_try_throws, watch_throw_frame in Htry.
    destruct Htry as (Hc1 & Hu1 & _).
    assert (H1 : asks_after_cursor wait_url_base s1)
      by (unfold asks_after_cursor; rewrite Hc1, Hu1; split; assumption).
    unfold Run_catch.
    assert (Hdec : asks_after_cursor wait_url_base
                     (snd ((decrement_max_failures : M E exn unit) s1)))
      by (unfold decrement_max_failures; unfold_monad; unfold_setters; exact H1).
    destruct (reply_error_code e) as [code|].
    + destruct (code =? 401); [|exact Hdec].
      unfold bind at 1, catch_all.
      destruct (recover callback key wait_url_base s1) as [[[]|e'] s2] eqn:Hrec;
        simpl; unfold decrement_max_failures; unfold_monad; unfold_setters;
        simpl; unfold asks_after_cursor; simpl.
      * pose proof (recover_returns _ _ _ _ Hrec) as [_ Hu2].
        split; [exact Hu2|].
        destruct (recover_cursor _ _ _ _ _ Hrec) as [-> | [n ->]];
          [apply H1|apply to_Index_range].
      * pose proof (recover_throws _ _ _ _ _ Hrec) as (-> & -> & _). exact H1.
    + destruct (std_what e); [exact Hdec|exact H1].
Qed.

Lemma asks_after_cursor_turns (key wait_url_base : string) (n : nat) :
  forall s : state E,
    asks_after_cursor wait_url_base s ->
    asks_after_cursor wait_url_base (after_turns callback n key wait_url_base s).
Proof.
  induction n as [|n IH]; intros s H; simpl; [exact H|].
  apply IH, asks_after_cursor_turn, H.
Qed.

(** The first thing a turn of the loop does is the GET on the watch URL. *)
Lemma turn_first_request (key wait_url_base : string) (s : state E) :
  exists rest,
    trace (after_turn callback key wait_url_base s)
    = (trace s ++ GET (watch_url s) :: rest)%list.
Proof.
  unfold after_turn, Run_iteration, try_catch.
  destruct (Run_try callback wait_url_base s) as [[[]|e] s1] eqn:Htry; simpl.
  - apply Run_try_returns in Htry. destruct Htry as (s0 & Hw & ->).
    apply watch_first_request in Hw. exact Hw.
  - apply Run_try_throws, watch_first_request in Htry.
    destruct Htry as [rest Ht]. unfold Run_catch.
    assert (Hdec : exists rest',
               trace (snd ((decrement_max_failures : M E exn unit) s1))
               = (trace s ++ GET (watch_url s) :: rest')%list)
      by (unfold decrement_max_failures; unfold_monad; unfold_setters;
          simpl; eauto).
    destruct (reply_error_code e) as [code|].
    + destruct (code =? 401); [|exact Hdec].
      unfold bind at 1, catch_all.
      destruct (recover callback key wait_url_base s1) as [res s2] eqn:Hrec.
      apply recover_first_request in Hrec. destruct Hrec as [rest2 Hrec].
      unfold decrement_max_failures; unfold_monad; unfold_setters; simpl.
      rewrite Hrec, Ht, <- app_assoc. simpl. eauto.
    + destruct (std_what e); [exact Hdec|eauto].
Qed.

(** ** Runs of successful turns *)

(** The loop of [Run] along long polls that are answered: it goes on, one
    turn for each reply, and does what [exchanges] lists. *)
Lemma answered_run (key wait_url_base : string) (rs : list (Reply E)) :
  forall (s : state E) (w' : World E),
    answered callback wait_url_base (watch_url s) (world s) rs w' ->
    max_failures s <> 0 ->
    Run_loop callback (List.length rs) key wait_url_base s
      = (None, after_turns callback (List.length rs) key wait_url_base s)
    /\ trace (after_turns callback (List.length rs) key wait_url_base s)
       = (trace s ++ exchanges wait_url_base (watch_url s) rs)%list
    /\ world (after_turns callback (List.length rs) key wait_url_base s) = w'
    /\ watch_url (after_turns callback (List.length rs) key wait_url_base s)
       = url_after_all wait_url_base (watch_url s) rs
    /\ max_failures (after_turns callback (List.length rs) key wait_url_base s)
       <> 0.
Proof.
  induction rs as [|r rs IH]; intros s w' Ha Hnz.
  - simpl in *. pose proof Hnz as Hz. apply Z.eqb_neq in Hz. rewrite Hz.
    simpl. rewrite app_nil_r. subst w'. repeat split; try reflexivity.
    exact Hnz.
  - cbn [answered] in Ha.
    destruct Ha as (t & w1 & w2 & Hp & Hc & Hd & Hcb & Ha).
    destruct (watch_success wait_url_base s t w1 w2 r Hp Hc Hd Hcb)
      as (s0 & Hw & Hcur & Hurl & Hm & Hpre & Hen & Hwo & Htr).
    assert (Htry : Run_try callback wait_url_base s
                   = (Ok tt, mkState (this s0) (watch_url s0) MAX_FAILURES
                               (world s0) (trace s0)))
      by (unfold Run_try, bind; rewrite Hw; reflexivity).
    destruct (Run_iteration_success key wait_url_base _ _ Htry) as [Hit _].
    assert (Hs' : after_turn callback key wait_url_base s
                  = mkState (this s0) (watch_url s0) MAX_FAILURES
                      (world s0) (trace s0))
      by (unfold after_turn; rewrite Hit; reflexivity).
    assert (Hu' : watch_url (after_turn callback key wait_url_base s)
                  = url_after wait_url_base r)
      by (rewrite Hs'; simpl; rewrite Hurl, Hcur; reflexivity).
    assert (Hw' : world (after_turn callback key wait_url_base s) = w2)
      by (rewrite Hs'; exact Hwo).
    assert (Ht' : trace (after_turn callback key wait_url_base s)
                  = (trace s ++ [GET (watch_url s); CALLBACK r])%list)
      by (rewrite Hs'; exact Htr).
    assert (Hturn : turn_of callback wait_url_base s = Some Success)
      by (unfold turn_of; rewrite Htry; reflexivity).
    destruct (IH (after_turn callback key wait_url_base s) w')
      as (Hl & Ht & Hwd & Hwu & Hmf).
    + rewrite Hu', Hw'. exact Ha.
    + rewrite Hs'. simpl. unfold MAX_FAILURES. lia.
    + cbn [List.length after_turns exchanges url_after_all].
      rewrite (Run_loop_turn key wait_url_base s Success _ Hnz Hturn).
      rewrite Hl, Ht, Hwu, Ht', Hu', <- app_assoc.
      repeat split; try reflexivity; assumption.
Qed.

(** The URL after a reply whose index is not the largest one asks for the
    next index. *)
Lemma url_after_small (wait_url_base : string) (r : Reply E) :
  0 <= get_modified_index E r ->
  get_modified_index E r + 1 < 2 ^ Z.of_N (Index_bits E) ->
  url_after wait_url_base r
  = wait_url_base ++ Str.to_string (get_modified_index E r + 1).
Proof.
  intros H0 H1. unfold url_after.
  rewrite (to_Index_small E (get_modified_index E r)) by lia.
  rewrite Index_add1_small by lia. reflexivity.
Qed.

(** Along replies whose indices ascend, every request asks for an index
    above the one the first request asked for. *)
Lemma requests_ascend (wait_url_base : string) (rs : list (Reply E)) :
  forall (lo : Z) (u' : string),
    0 <= lo -> ascending lo rs ->
    In u' (requests
             (exchanges wait_url_base
                (wait_url_base ++ Str.to_string (lo + 1)) rs
              ++ [GET (url_after_all wait_url_base
                         (wait_url_base ++ Str.to_string (lo + 1)) rs)])) ->
    exists k, u' = wait_url_base ++ Str.to_string k /\ lo < k.
Proof.
  induction rs as [|r rs IH]; intros lo u' H0 Ha Hin.
  - simpl in Hin. destruct Hin as [<-|[]]. exists (lo + 1). split; [reflexivity|lia].
  - destruct Ha as (Hlt & Hb & Ha).
    cbn [exchanges url_after_all app requests] in Hin.
    destruct Hin as [<-|Hin]; [exists (lo + 1); split; [reflexivity|lia]|].
    rewrite url_after_small in Hin by lia.
    destruct (IH (get_modified_index E r) u' ltac:(lia) Ha Hin)
      as (k & -> & Hk).
    exists k. split; [reflexivity|lia].
Qed.

(** Along replies whose indices ascend, a request that comes after the
    delivery of a reply asks for an index above that of the reply. *)
Lemma requests_above_deliveries (wait_url_base : string)
    (rs : list (Reply E)) :
  forall (lo : Z) (u : string) (before after : list (event E))
         (u' : string) (r' : Reply E),
    -1 <= lo -> ascending lo rs ->
    (exchanges wait_url_base u rs
     ++ [GET (url_after_all wait_url_base u rs)])%list
    = (before ++ GET u' :: after)%list ->
    In r' (deliveries before) ->
    exists k, u' = wait_url_base ++ Str.to_string k
              /\ 0 <= get_modified_index E r' < k.
Proof.
  induction rs as [|r rs IH]; intros lo u before after u' r' H0 Ha Heq Hin.
  - destruct before as [|e [|e' before]]; simpl in *;
      [destruct Hin|discriminate|discriminate].
  - destruct Ha as (Hlt & Hb & Ha).
    cbn [exchanges url_after_all app] in Heq.
    destruct before as [|e [|e' before]]; simpl in Heq;
      [destruct Hin|discriminate|].
    inversion Heq as [[He He' Hrest]]. subst e e'. clear Heq.
    cbn [deliveries] in Hin. destruct Hin as [<-|Hin].
    + assert (Hu' : In u' (requests (before ++ GET u' :: after)))
        by (rewrite requests_app; apply in_or_app; right; left; reflexivity).
      rewrite <- Hrest, url_after_small in Hu' by lia.
      destruct (requests_ascend wait_url_base rs (get_modified_index E r) u'
                  ltac:(lia) Ha Hu') as (k & -> & Hk).
      exists k. split; [reflexivity|lia].
    + exact (IH (get_modified_index E r) _ before after u' r' ltac:(lia) Ha
               Hrest Hin).
Qed.


(** ** Failures *)

(** C7. A turn of the loop of [Run] whose decoder reports error code 401:
    the recovery runs in the state the long poll left, and whether it returns
    or raises ([res] is either), nothing escapes the turn, which ends in the
    state the recovery left with the failure budget one less than at the
    start of the turn. *)
Theorem Run_stale_index_counts_as_failure :
  forall (key wait_url_base : string) (s : state E)
         (t : transfer) (w1 : World E) (e : thrown),
    curl_easy_perform E (watch_url s) (world s) = (t, w1) ->
    curl_code t = CURLE_OK ->
    Reply_ctor E (received_body t) = Throw e ->
    reply_error_code e = Some 401 ->
    exists s1 res s2,
      watch callback wait_url_base s = (Throw e, s1)
      /\ recover callback key wait_url_base s1 = (res, s2)
      /\ Run_iteration callback key wait_url_base s
         = (Ok tt, mkState (this s2) (watch_url s2) (max_failures s - 1)
                     (world s2) (trace s2)).
Proof.
  intros key wub s t w1 e Hp Hc Hd H401.
  destruct (watch_decode_throws wub s t w1 e Hp Hc Hd) as (s1 & Hw & _).
  destruct (recover callback key wub s1) as [res s2] eqn:Hrec.
  exists s1, res, s2. split; [exact Hw|]. split; [exact Hrec|].
  pose proof (watch_throw_frame _ _ _ _ Hw) as (_ & _ & Hm & _).
  pose proof (recover_keeps_budget _ _ _ _ _ Hrec) as [Hm2 _].
  unfold Run_iteration, try_catch, Run_try, bind at 1. rewrite Hw.
  unfold Run_catch. rewrite H401. simpl.
  unfold bind, catch_all. rewrite Hrec. simpl.
  unfold decrement_max_failures; unfold_monad; unfold_setters; simpl.
  rewrite Hm2, Hm. reflexivity.
Qed.

(** A turn whose transfer fails leaves the cursor alone. *)
Lemma transfer_fails_turn (key wait_url_base : string) (s : state E) :
  curl_code (fst (curl_easy_perform E (watch_url s) (world s))) <> CURLE_OK ->
  exists s', Run_iteration callback key wait_url_base s = (Ok tt, s')
    /\ prev_index_ (this s') = prev_index_ (this s)
    /\ max_failures s' = max_failures s - 1.
Proof.
  intros Hc.
  destruct (watch_transfer_fails wait_url_base s Hc) as (e & s1 & Hw & Hr & Hs & _).
  pose proof (watch_throw_frame _ _ _ _ Hw) as (Hcur & _ & Hm & _).
  unfold Run_iteration, try_catch, Run_try, bind at 1. rewrite Hw.
  unfold Run_catch. rewrite Hr. destruct (std_what e); [|congruence].
  unfold decrement_max_failures; unfold_monad; unfold_setters; simpl.
  eexists; split; [reflexivity|]. simpl. split; congruence.
Qed.

Lemma offline_loop (key wait_url_base : string) (fuel : nat) :
  (forall url w, curl_code (fst (curl_easy_perform E url w)) <> CURLE_OK) ->
  forall s : state E,
    prev_index_ (this (snd (Run_loop callback fuel key wait_url_base s)))
      = prev_index_ (this s)
    /\ (0 <= max_failures s <= Z.of_nat fuel ->
        fst (Run_loop callback fuel key wait_url_base s) = Some (Ok tt)).
Proof.
  intros Hoff. induction fuel as [|fuel IH]; intros s; simpl;
    destruct (max_failures s =? 0) eqn:Hm; simpl;
    try (split; [reflexivity|]; intros; try reflexivity).
  - apply Z.eqb_neq in Hm. lia.
  - destruct (transfer_fails_turn key wait_url_base s (Hoff _ _))
      as (s' & -> & Hcur & Hm').
    destruct (IH s') as [IH1 IH2]. rewrite IH1. split; [exact Hcur|].
    intros Hb. apply IH2. apply Z.eqb_neq in Hm. lia.
Qed.

(** C9. With a [prevIndex] that is not 0, [Run] and [RunOnce] write it to
    the cursor before they issue a request (the trace at the entry of the
    loop, or of the [try] block, is the trace of the call).  So when every
    transfer fails, the call leaves the cursor at [prevIndex], whatever it
    was before: [Run] at every moment of its loop and when it raises, after
    [MAX_FAILURES] turns, and [RunOnce] when it raises. *)
Theorem prevIndex_overwrites_cursor :
  forall (key : string) (prevIndex : Z) (s : state E),
    prevIndex <> 0 ->
    (prev_index_ (this (Run_entry key prevIndex s)) = prevIndex
     /\ trace (Run_entry key prevIndex s) = trace s
     /\ prev_index_ (this (RunOnce_entry key prevIndex s)) = prevIndex
     /\ trace (RunOnce_entry key prevIndex s) = trace s)
    /\
    ((forall url w, curl_code (fst (curl_easy_perform E url w)) <> CURLE_OK) ->
     (forall fuel,
        prev_index_ (this (snd (Run callback key prevIndex fuel s))) = prevIndex)
     /\ (forall fuel, (Z.to_nat MAX_FAILURES <= fuel)%nat ->
          exists s', Run callback key prevIndex fuel s
                     = (Some (Throw (ClientException "watch failed or timedout")), s')
            /\ prev_index_ (this s') = prevIndex)
     /\ (exists what s',
          RunOnce callback key prevIndex s
          = (Throw (ClientException ("failed with" ++ what)), s')
          /\ prev_index_ (this s') = prevIndex)).
Proof.
  intros key prevIndex s Hnz.
  apply Z.eqb_neq in Hnz.
  pose proof (Run_entry_effect key prevIndex s) as (Hc & _ & _ & _ & Hm & _ & Ht).
  pose proof (RunOnce_entry_effect key prevIndex s) as (Hc1 & _ & _ & _ & _ & Ht1).
  rewrite Hnz in Hc, Hc1.
  split; [repeat split; assumption|].
  intros Hoff. split; [|split].
  - intros fuel. rewrite Run_from_entry.
    destruct (offline_loop key (wait_url_base (url_prefix_ (this s)) key) fuel
                Hoff (Run_entry key prevIndex s)) as [Hcur _].
    destruct (Run_loop callback fuel key _ (Run_entry key prevIndex s))
      as [[[u|x]|] s1]; simpl in *; try congruence.
    destruct (max_failures s1 =? 0); simpl; congruence.
  - intros fuel Hfuel. rewrite Run_from_entry.
    destruct (offline_loop key (wait_url_base (url_prefix_ (this s)) key) fuel
                Hoff (Run_entry key prevIndex s)) as [Hcur Hend].
    destruct (Run_loop callback fuel key _ (Run_entry key prevIndex s))
      as [res s1] eqn:Hloop; simpl in *.
    rewrite Hend in Hloop by (rewrite Hm; unfold MAX_FAILURES in *; lia).
    rewrite Hend by (rewrite Hm; unfold MAX_FAILURES in *; lia).
    apply Run_loop_exit in Hloop. rewrite Hloop. simpl.
    eexists; split; [reflexivity|congruence].
  - rewrite RunOnce_from_entry.
    destruct (watch_transfer_fails (wait_url_base (url_prefix_ (this s)) key)
                (RunOnce_entry key prevIndex s) (Hoff _ _))
      as (e & s1 & Hw & Hr & Hs & _).
    pose proof (watch_throw_frame _ _ _ _ Hw) as (Hcur & _).
    unfold try_catch. rewrite Hw. unfold RunOnce_catch. rewrite Hr.
    destruct (std_what e) as [what|]; [|congruence].
    exists what, s1. split; [reflexivity|congruence].
Qed.

(** C10, as amended.  A turn of the loop of [Run] whose callback raises an
    exception that derives from [std::exception]: the exception leaves the
    long poll before the cursor and the watch URL are written, it does not
    leave the turn, and the failure budget is one less.  When the exception
    is not a [ReplyException] with error code 401, the cursor and the watch
    URL are after the turn what they were before it.  When it is one, the
    first handler takes it for an index out of date, as if the decoder had
    raised it: the recovery runs in the state the long poll left, and the
    turn ends in the state the recovery left, whether it returned or raised
    ([res] is either), with the failure budget one less than at the start of
    the turn. *)
Theorem Run_callback_exception_is_a_failure :
  forall (key wait_url_base : string) (s : state E)
         (t : transfer) (w1 w2 : World E) (r : Reply E) (e : thrown),
    curl_easy_perform E (watch_url s) (world s) = (t, w1) ->
    curl_code t = CURLE_OK ->
    Reply_ctor E (received_body t) = Ok r ->
    callback r w1 = (Throw e, w2) ->
    std_what e <> None ->
    exists s1 s',
      watch callback wait_url_base s = (Throw e, s1)
      /\ trace s1 = (trace s ++ [GET (watch_url s); CALLBACK r])%list
      /\ world s1 = w2
      /\ prev_index_ (this s1) = prev_index_ (this s)
      /\ watch_url s1 = watch_url s
      /\ Run_iteration callback key wait_url_base s = (Ok tt, s')
      /\ max_failures s' = max_failures s - 1
      /\ (reply_error_code e <> Some 401 ->
          prev_index_ (this s') = prev_index_ (this s)
          /\ watch_url s' = watch_url s
          /\ trace s' = trace s1
          /\ world s' = w2)
      /\ (reply_error_code e = Some 401 ->
          exists res s2,
            recover callback key wait_url_base s1 = (res, s2)
            /\ s' = mkState (this s2) (watch_url s2) (max_failures s - 1)
                       (world s2) (trace s2)).
Proof.
  intros key wub s t w1 w2 r e Hp Hc Hd Hcb Hstd.
  destruct (watch_callback_throws wub s t w1 w2 r e Hp Hc Hd Hcb)
    as (s1 & Hw & Hwo & Htr).
  pose proof (watch_throw_frame _ _ _ _ Hw) as (Hcur & Hu & Hm & _).
  exists s1.
  unfold Run_iteration, try_catch, Run_try, bind at 1. rewrite Hw.
  unfold Run_catch.
  destruct (reply_error_code e) as [code|].
  - destruct (code =? 401) eqn:H401.
    + apply Z.eqb_eq in H401. subst code.
      unfold bind at 1, catch_all.
      destruct (recover callback key wub s1) as [res s2] eqn:Hrec.
      pose proof (recover_keeps_budget _ _ _ _ _ Hrec) as [Hm2 _].
      simpl. unfold decrement_max_failures; unfold_monad; unfold_setters; simpl.
      eexists. do 7 (split; [first [reflexivity|assumption|simpl; congruence]|]).
      split; [intros Hne; now destruct Hne|].
      intros _. exists res, s2. split; [reflexivity|].
      rewrite Hm2, Hm. reflexivity.
    + unfold decrement_max_failures; unfold_monad; unfold_setters; simpl.
      eexists. do 7 (split; [first [reflexivity|assumption|simpl; congruence]|]).
      split; [intros _; repeat split; assumption|].
      intros H. inversion H; subst. discriminate.
  - destruct (std_what e); [|congruence].
    unfold decrement_max_failures; unfold_monad; unfold_setters; simpl.
    eexists. do 7 (split; [first [reflexivity|assumption|simpl; congruence]|]).
    split; [intros _; repeat split; assumption|discriminate].
Qed.

(** ** The first request of a call *)

(** The trace only grows along the loop. *)
Lemma Run_loop_trace (key wait_url_base : string) (fuel : nat) :
  forall s : state E,
    exists rest,
      trace (snd (Run_loop callback fuel key wait_url_base s))
      = (trace s ++ rest)%list.
Proof.
  induction fuel as [|fuel IH]; intros s; simpl;
    destruct (max_failures s =? 0); simpl;
    try (exists []; now rewrite app_nil_r).
  destruct (turn_first_request key wait_url_base s) as [rest1 H1].
  unfold after_turn in H1.
  destruct (Run_iteration callback key wait_url_base s) as [[u|x] s1];
    simpl in *.
  - destruct (IH s1) as [rest2 H2]. rewrite H2, H1, <- app_assoc. eauto.
  - eauto.
Qed.

(** The first request of [Run] is the GET on the watch URL that its first
    lines composed. *)
Lemma Run_first_request (key : string) (prevIndex : Z) (fuel : nat)
    (s : state E) :
  exists rest,
    trace (snd (Run callback key prevIndex (S fuel) s))
    = (trace s ++ GET (watch_url (Run_entry key prevIndex s)) :: rest)%list.
Proof.
  rewrite Run_from_entry.
  pose proof (Run_entry_effect key prevIndex s) as (_ & _ & _ & _ & Hm & _ & Ht).
  simpl. rewrite Hm. simpl.
  destruct (turn_first_request key (wait_url_base (url_prefix_ (this s)) key)
              (Run_entry key prevIndex s)) as [rest1 H1].
  unfold after_turn in H1. rewrite Ht in H1.
  destruct (Run_iteration callback key _ (Run_entry key prevIndex s))
    as [[u|x] s1]; simpl in *; [|eauto].
  destruct (Run_loop_trace key (wait_url_base (url_prefix_ (this s)) key) fuel s1)
    as [rest2 H2].
  destruct (Run_loop callback fuel key _ s1) as [[[u'|x]|] s2]; simpl in *;
    try destruct (max_failures s2 =? 0); simpl;
    rewrite H2, H1, <- app_assoc; simpl; eauto.
Qed.

(** So is the first request of [RunOnce]. *)
Lemma RunOnce_first_request (key : string) (prevIndex : Z) (s : state E) :
  exists rest,
    trace (snd (RunOnce callback key prevIndex s))
    = (trace s ++ GET (watch_url (RunOnce_entry key prevIndex s)) :: rest)%list.
Proof.
  rewrite RunOnce_from_entry.
  pose proof (RunOnce_entry_effect key prevIndex s) as (_ & _ & _ & _ & _ & Ht).
  unfold try_catch.
  destruct (watch callback _ (RunOnce_entry key prevIndex s))
    as [[[]|e] s1] eqn:Hw; apply watch_first_request in Hw;
    destruct Hw as [rest1 H1]; rewrite Ht in H1; simpl; [eauto|].
  unfold RunOnce_catch.
  destruct (reply_error_code e) as [code|].
  - destruct (code =? 401); [|simpl; eauto].
    unfold catch_all. simpl.
    destruct (recover callback key _ s1) as [res s2] eqn:Hrec.
    apply recover_first_request in Hrec. destruct Hrec as [rest2 H2].
    simpl. rewrite H2, H1, <- app_assoc. simpl. eauto.
  - destruct (std_what e); simpl; eauto.
Qed.

(** The watch URL that the first lines of [Run] and [RunOnce] compose.  With
    no cursor it is the base [prefix + key + "?wait=true"]; with a cursor [c]
    it is that base followed by the digits of [c + 1]: the text
    ["&waitIndex="] of [wait_url_base] is not in it. *)
Lemma first_watch_url (key : string) (prevIndex : Z) (s : state E) :
  let c := if prevIndex =? 0 then prev_index_ (this s) else prevIndex in
  watch_url (Run_entry key prevIndex s)
    = (if c =? 0 then url_prefix_ (this s) ++ key ++ "?wait=true"
       else (url_prefix_ (this s) ++ key ++ "?wait=true")
            ++ Str.to_string (Index_add1 E c))
  /\ watch_url (RunOnce_entry key prevIndex s)
     = watch_url (Run_entry key prevIndex s).
Proof.
  intros c.
  pose proof (Run_entry_effect key prevIndex s) as (Hc & Hu & _).
  pose proof (RunOnce_entry_effect key prevIndex s) as (Hc1 & Hu1 & _).
  rewrite Hc in Hu. rewrite Hc1 in Hu1. fold c in Hu, Hu1.
  split; [exact Hu|]. rewrite Hu, Hu1. reflexivity.
Qed.

(** ** What [RunOnce] does with the exception of its long poll *)

(** A [ReplyException] whose error code is not 401 ends in the first handler,
    which does nothing with it: [RunOnce] returns. *)
Lemma RunOnce_swallows_reply_errors (key : string) (prevIndex : Z)
    (s s1 : state E) (e : thrown) (code : Z) :
  watch callback (wait_url_base (url_prefix_ (this s)) key)
    (RunOnce_entry key prevIndex s) = (Throw e, s1) ->
  reply_error_code e = Some code -> code <> 401 ->
  RunOnce callback key prevIndex s = (Ok tt, s1).
Proof.
  intros Hw He Hne. rewrite RunOnce_from_entry.
  unfold try_catch. rewrite Hw. unfold RunOnce_catch. rewrite He.
  apply Z.eqb_neq in Hne. rewrite Hne. reflexivity.
Qed.

(** An exception that derives from [std::exception] and is not a
    [ReplyException] is raised again as a [ClientException] that carries its
    message. *)
Lemma RunOnce_wraps_std_exceptions (key : string) (prevIndex : Z)
    (s s1 : state E) (e : thrown) (what : string) :
  watch callback (wait_url_base (url_prefix_ (this s)) key)
    (RunOnce_entry key prevIndex s) = (Throw e, s1) ->
  reply_error_code e = None -> std_what e = Some what ->
  RunOnce callback key prevIndex s
  = (Throw (ClientException ("failed with" ++ what)), s1).
Proof.
  intros Hw He Hs. rewrite RunOnce_from_entry.
  unfold try_catch. rewrite Hw. unfold RunOnce_catch. rewrite He, Hs.
  reflexivity.
Qed.

(** ** The header scan *)

Lemma substring_all (v : string) : String.substring 0 (String.length v) v = v.
Proof. induction v as [|c v IH]; simpl; [reflexivity|now rewrite IH]. Qed.

Lemma find_label_at_0 (v : string) :
  Str.find (etcd_index_label ++ v) etcd_index_label = Some 0%nat.
Proof.
  unfold Str.find, etcd_index_label. simpl.
  destruct v; reflexivity.
Qed.

Lemma substr_after_label (v : string) :
  Str.substr (etcd_index_label ++ v) 14 = Some v.
Proof.
  unfold Str.substr, etcd_index_label. simpl.
  now rewrite Nat.sub_0_r, substring_all.
Qed.

(** When no line holds the label, the scan leaves everything as it was. *)
Lemma scan_header_absent (lines : list string) (s : state E) :
  Forall (fun line => Str.find line etcd_index_label = None) lines ->
  scan_header lines s = (Ok tt, s).
Proof.
  induction 1 as [|line rest Hline _ IH]; simpl; [reflexivity|].
  rewrite Hline. simpl. exact IH.
Qed.

(** When the first line that holds the label starts with it, and an integer
    follows, the cursor becomes that integer. *)
Lemma scan_header_value (before after : list string) (v : string) (n : Z)
    (s : state E) :
  Forall (fun line => Str.find line etcd_index_label = None) before ->
  Str.stoi v = Str.Parsed n ->
  scan_header (before ++ (etcd_index_label ++ v)%string :: after)%list s
  = (Ok tt, mkState (mkWatch (to_Index E n) (url_prefix_ (this s)) (handle_ (this s)))
              (watch_url s) (max_failures s) (world s) (trace s)).
Proof.
  intros Hb Hv. induction Hb as [|line rest Hline _ IH].
  - cbn [app scan_header]. rewrite find_label_at_0.
    cbn [Nat.eqb negb].
    change (1 + String.length etcd_index_label - 1)%nat with 14%nat.
    rewrite substr_after_label, Hv. reflexivity.
  - cbn [app scan_header]. rewrite Hline. simpl. exact IH.
Qed.

(** When what stands at offset 14 of the first line that holds the label is
    not an integer, the scan raises and the cursor stays. *)
Lemma scan_header_unparsable (before after : list string) (line v : string)
    (s : state E) :
  Forall (fun line => Str.find line etcd_index_label = None) before ->
  Str.find line etcd_index_label <> None ->
  Str.substr line 14 = Some v ->
  (forall n, Str.stoi v <> Str.Parsed n) ->
  exists e, scan_header (before ++ line :: after)%list s = (Throw e, s).
Proof.
  intros Hb Hf Hsub Hv. induction Hb as [|l rest Hl _ IH].
  - cbn [app scan_header].
    destruct (Str.find line etcd_index_label); [|congruence].
    cbn [Nat.eqb negb].
    change (1 + String.length etcd_index_label - 1)%nat with 14%nat.
    rewrite Hsub. destruct (Str.stoi v) as [z| |] eqn:Hz;
      [now destruct (Hv z)| |]; eexists; reflexivity.
  - cbn [app scan_header]. rewrite Hl. simpl. exact IH.
Qed.

(** The recovery step by step: header capture on, the GET on the bare key,
    the callback on the decoded snapshot, the scan of the headers of that
    very response, then header capture off and the new watch URL; an
    exception of the scan leaves before these last two. *)
Lemma recover_effect (key wait_url_base : string) (s : state E)
    (t : transfer) (w1 w2 : World E) (r : Reply E) :
  curl_easy_perform E (url_prefix_ (this s) ++ key) (world s) = (t, w1) ->
  curl_code t = CURLE_OK ->
  Reply_ctor E (received_body t) = Ok r ->
  callback r w1 = (Ok tt, w2) ->
  recover callback key wait_url_base s
  = match scan_header (Str.getlines (received_headers t))
            (mkState
               (mkWatch (prev_index_ (this s)) (url_prefix_ (this s))
                  (mkCurl true (received_body t) (received_headers t)))
               (watch_url s) (max_failures s) w2
               (trace s ++ [GET (url_prefix_ (this s) ++ key); CALLBACK r])) with
    | (Ok _, s2) =>
        (Ok tt,
         mkState
           (mkWatch (prev_index_ (this s2)) (url_prefix_ (this s2))
              (mkCurl false (write_stream_ (handle_ (this s2)))
                 (header_stream_ (handle_ (this s2)))))
           (wait_url_base ++ Str.to_string (Index_add1 E (prev_index_ (this s2))))
           (max_failures s2) (world s2) (trace s2))
    | (Throw e, s2) => (Throw e, s2)
    end.
Proof.
  intros Hp Hc Hd Hcb.
  unfold recover, construct_Reply, invoke; unfold_curl; unfold_monad;
    unfold_setters; simpl.
  rewrite Hp; simpl. rewrite Hc; simpl. rewrite Hd; simpl. rewrite Hcb; simpl.
  rewrite <- app_assoc. simpl.
  match goal with
  | |- context [scan_header ?l ?st] => destruct (scan_header l st) as [[[]|e] s2]
  end; reflexivity.
Qed.

End Properties.

(** * Concrete runs against the scripted server *)

Import Scenario.

Lemma quiet_contract (E : Env) : callback_contract (quiet E).
Proof. intros r w e w' H. unfold quiet in H. discriminate. Qed.

Lemma decode_contract : decoder_contract etcd.
Proof.
  intros body e. simpl. unfold decode.
  destruct body as [|c code]; [intros H; inversion H; reflexivity|].
  destruct (Ascii.eqb c "!").
  - destruct (Str.stoi code); intros H; inversion H; reflexivity.
  - destruct (Str.stoi (String c code)); intros H; inversion H; reflexivity.
Qed.

(** C1. At a call with a known cursor the first request is not the URL with
    [waitIndex]: [Run] and [RunOnce] called with [prevIndex] 42 on a new
    engine, and [Run] called without [prevIndex] on an engine whose cursor is
    42, all ask for [/k?wait=true43], which is not
    [wait_url_base + "43"].  Line 107 (and 109, 185, 187) appends the digits
    to [watch_url_base]; lines 125 and 156 append them to [wait_url_base]. *)
Theorem first_url_lacks_waitIndex :
  requests (trace (snd (Run (quiet etcd) "/k" 42 1 (fresh etcd []))))
    = ["http://127.0.0.1:2379/v2/keys/k?wait=true43"]
  /\ requests (trace (snd (RunOnce (quiet etcd) "/k" 42 (fresh etcd []))))
     = ["http://127.0.0.1:2379/v2/keys/k?wait=true43"]
  /\ requests (trace (snd (Run (quiet etcd) "/k" 0 1 (resumed etcd 42 []))))
     = ["http://127.0.0.1:2379/v2/keys/k?wait=true43"]
  /\ wait_url_base prefix "/k" ++ Str.to_string (42 + 1)
     = "http://127.0.0.1:2379/v2/keys/k?wait=true&waitIndex=43"
  /\ "http://127.0.0.1:2379/v2/keys/k?wait=true43"
     <> wait_url_base prefix "/k" ++ Str.to_string (42 + 1).
Proof.
  repeat split; try reflexivity. vm_compute. discriminate.
Qed.

(** The part of C1 that holds: without a cursor the first request is the
    base URL, with no [waitIndex]. *)
Example first_url_without_cursor :
  requests (trace (snd (Run (quiet etcd) "/k" 0 1 (fresh etcd []))))
    = ["http://127.0.0.1:2379/v2/keys/k?wait=true"]
  /\ requests (trace (snd (RunOnce (quiet etcd) "/k" 0 (fresh etcd []))))
     = ["http://127.0.0.1:2379/v2/keys/k?wait=true"].
Proof. split; reflexivity. Qed.

(** C5. The scan takes what stands at offset 14 of the first line that holds
    the label, wherever the label is in that line ([pos] is the truth value
    of [find(...) != npos], not the position found).  With
    [Set-Cookie: v=1234; X-Etcd-Index: 100] the cursor becomes 1234 and the
    next watch asks for 1235, not 101.  With the label inside an earlier
    header the scan raises on that line, and the header [X-Etcd-Index: 100]
    that follows is never read: the cursor stays 0 and the watch URL stays
    without index. *)
Theorem header_scan_reads_offset_14 :
  (let s := snd (Run (quiet etcd) "/k" 0 1
                   (fresh etcd [stale; ok cookie_header "7"])) in
   requests (trace s) = [prefix ++ "/k?wait=true"; prefix ++ "/k"]
   /\ deliveries (trace s) = [7]
   /\ prev_index_ (this s) = 1234
   /\ watch_url s = prefix ++ "/k?wait=true&waitIndex=1235")
  /\
  (let s := snd (Run (quiet etcd) "/k" 0 1
                   (fresh etcd [stale; ok note_header "7"])) in
   requests (trace s) = [prefix ++ "/k?wait=true"; prefix ++ "/k"]
   /\ deliveries (trace s) = [7]
   /\ prev_index_ (this s) = 0
   /\ watch_url s = prefix ++ "/k?wait=true").
Proof. repeat split; reflexivity. Qed.

(** The part of C5 that holds: the recovery asks for the bare key, hands the
    snapshot to the callback, and when the header line starts with the label
    takes its value as the cursor; a header that is absent or whose value is
    not a number leaves the cursor. *)
Example recovery_reads_the_index_header :
  (let s := snd (Run (quiet etcd) "/k" 0 1
                   (fresh etcd [stale; ok index_header "7"])) in
   requests (trace s) = [prefix ++ "/k?wait=true"; prefix ++ "/k"]
   /\ deliveries (trace s) = [7]
   /\ prev_index_ (this s) = 100
   /\ watch_url s = prefix ++ "/k?wait=true&waitIndex=101")
  /\ prev_index_ (this (snd (Run (quiet etcd) "/k" 0 1
                              (resumed etcd 9 [stale; ok bad_header "7"])))) = 9
  /\ prev_index_ (this (snd (Run (quiet etcd) "/k" 0 1
                              (resumed etcd 9 [stale; ok "" "7"])))) = 9.
Proof. repeat split; reflexivity. Qed.

(** C6. [RunOnce] whose long poll is answered by an error body with code 100
    (key not found): the [ReplyException] enters the first handler, whose
    only statement is the test for 401; nothing is raised and [RunOnce]
    returns normally, after one request and no callback.  [Run] counts the
    same reply as a failure. *)
Theorem RunOnce_returns_on_reply_error :
  fst (RunOnce (quiet etcd) "/k" 0 (fresh etcd [ok "" "!100"])) = Ok tt
  /\ requests (trace (snd (RunOnce (quiet etcd) "/k" 0 (fresh etcd [ok "" "!100"]))))
     = [prefix ++ "/k?wait=true"]
  /\ deliveries (trace (snd (RunOnce (quiet etcd) "/k" 0 (fresh etcd [ok "" "!100"]))))
     = []
  /\ max_failures (snd (Run (quiet etcd) "/k" 0 1 (fresh etcd [ok "" "!100"])))
     = MAX_FAILURES - 1.
Proof. repeat split; reflexivity. Qed.

(** The part of C6 that holds: a failed transfer and a body that does not
    decode make [RunOnce] raise a [ClientException] with their message; that
    of the failed transfer is what the read of [what()] finds, which is the
    printed text on the runtime of the scripted server. *)
Example RunOnce_raises_on_other_failures :
  fst (RunOnce (quiet etcd) "/k" 0 (fresh etcd []))
    = Throw (ClientException
               "failed withFailed easy perform [code: 28] Timeout was reached")
  /\ fst (RunOnce (quiet etcd) "/k" 0 (fresh etcd [ok "" "{"]))
     = Throw (ClientException "failed withmalformed reply").
Proof. split; reflexivity. Qed.

(** C8. A recovery that an exception ends leaves header capture on.  Here
    the GET on the bare key times out, in [Run] and in [RunOnce]; in the
    third run the value of the header is not a number and [std::stoi]
    raises.  [EnableHeader(false)] on lines 155 and 227 is inside the [try]
    block, after the statements that can raise. *)
Theorem failed_recovery_leaves_header_capture_on :
  enable_header_ (handle_ (this (fresh etcd [stale]))) = false
  /\ enable_header_ (handle_ (this (snd (Run (quiet etcd) "/k" 0 1
                                           (fresh etcd [stale]))))) = true
  /\ enable_header_ (handle_ (this (snd (RunOnce (quiet etcd) "/k" 0
                                           (fresh etcd [stale]))))) = true
  /\ enable_header_ (handle_ (this (snd (Run (quiet etcd) "/k" 0 1
                                           (fresh etcd [stale; ok bad_header "7"])))))
     = true
  /\ enable_header_ (handle_ (this (snd (Run (quiet etcd) "/k" 0 10
                                           (fresh etcd [stale]))))) = true.
Proof. repeat split; reflexivity. Qed.

(** The part of C8 that holds: a recovery that runs to its end has switched
    header capture off again. *)
Example recovery_switches_header_capture_off :
  enable_header_ (handle_ (this (snd (Run (quiet etcd) "/k" 0 1
                                        (fresh etcd [stale; ok index_header "7"])))))
  = false.
Proof. reflexivity. Qed.

(** ** Instances of the theorems *)

(** C2 at a server that never answers: the callback and the decoder meet
    their contracts, the five turns after the entry of the loop fail, and
    [Run] raises with its fifth request. *)
Lemma Run_gives_up_after_MAX_FAILURES_witness :
  callback_contract (quiet etcd) /\ decoder_contract etcd
  /\ Run (quiet etcd) "/k" 0 0 (fresh etcd [])
     = (None, Run_entry "/k" 0 (fresh etcd []))
  /\ max_failures (Run_entry "/k" 0 (fresh etcd [])) = MAX_FAILURES
  /\ follows (quiet etcd) (repeat Failure (Z.to_nat MAX_FAILURES)) "/k"
       (wait_url_base prefix "/k") (Run_entry "/k" 0 (fresh etcd [])) = true
  /\ Run (quiet etcd) "/k" 0 4 (fresh etcd [])
     = (None, after_turns (quiet etcd) 4 "/k" (wait_url_base prefix "/k")
                (Run_entry "/k" 0 (fresh etcd [])))
  /\ Run (quiet etcd) "/k" 0 7 (fresh etcd [])
     = (Some (Throw (ClientException "watch failed or timedout")),
        after_turns (quiet etcd) (Z.to_nat MAX_FAILURES) "/k"
          (wait_url_base prefix "/k") (Run_entry "/k" 0 (fresh etcd [])))
  /\ List.length
       (requests (trace (snd (Run (quiet etcd) "/k" 0 7 (fresh etcd []))))) = 5%nat.
Proof.
  split; [exact (quiet_contract etcd)|].
  split; [exact decode_contract|].
  split; [reflexivity|]. split; [reflexivity|]. split; [reflexivity|].
  destruct (Run_gives_up_after_MAX_FAILURES etcd (quiet etcd)
              (quiet_contract etcd) decode_contract "/k" 0 (fresh etcd []))
    as [_ H].
  destruct (H 0%nat (Run_entry "/k" 0 (fresh etcd [])) eq_refl eq_refl eq_refl)
    as [Hrunning Hraise].
  split; [exact (Hrunning 4%nat ltac:(vm_compute; lia))|].
  split; [exact (Hraise 7%nat ltac:(vm_compute; lia))|].
  reflexivity.
Defined.

(** C3 at a server that answers the fifth request only, with index 42. *)
Lemma Run_success_resets_budget_witness :
  let script := [timed_out; timed_out; timed_out; timed_out; ok "" "42"] in
  let s := fresh etcd script in
  let wub := wait_url_base prefix "/k" in
  Run (quiet etcd) "/k" 0 0 s = (None, Run_entry "/k" 0 s)
  /\ follows (quiet etcd)
       (repeat Failure 4 ++ Success :: repeat Failure 4)%list "/k" wub
       (Run_entry "/k" 0 s) = true
  /\ Run (quiet etcd) "/k" 0 9 s
     = (None, after_turns (quiet etcd) 9 "/k" wub (Run_entry "/k" 0 s))
  /\ max_failures (after_turns (quiet etcd) 9 "/k" wub (Run_entry "/k" 0 s)) = 1
  /\ Run (quiet etcd) "/k" 0 10 s
     = (Some (Throw (ClientException "watch failed or timedout")),
        after_turns (quiet etcd) 10 "/k" wub (Run_entry "/k" 0 s)).
Proof.
  intros script s wub.
  split; [reflexivity|]. split; [reflexivity|].
  destruct (Run_success_resets_budget etcd (quiet etcd) "/k" 0 s) as [_ H].
  destruct (H 0%nat (Run_entry "/k" 0 s) eq_refl eq_refl eq_refl)
    as (Hrunning & Hone & Hnext).
  split; [exact Hrunning|]. split; [exact Hone|].
  exact (Hnext eq_refl 10%nat ltac:(vm_compute; lia)).
Defined.


(** The order of the indices is what keeps the requests above the
    deliveries: the engine asks for the index after the last reply, whatever
    the replies before it were.  At the replies 42, 41 the third request asks
    for index 42. *)
Example Run_asks_after_the_last_reply :
  let s := Run_entry "/k" 0 (fresh etcd [ok "" "42"; ok "" "41"]) in
  let sn := after_turns (quiet etcd) 2 "/k" (wait_url_base prefix "/k") s in
  (trace sn ++ [GET (watch_url sn)])%list
  = [GET (prefix ++ "/k?wait=true"); CALLBACK (E := etcd) 42;
     GET (prefix ++ "/k?wait=true&waitIndex=43"); CALLBACK (E := etcd) 41;
     GET (prefix ++ "/k?wait=true&waitIndex=42")].
Proof. reflexivity. Qed.

(** C7 at a stale index whose recovery succeeds, and at one whose recovery
    fails because the GET on the bare key times out: the budget goes from 5
    to 4 in both. *)
Lemma Run_stale_index_counts_as_failure_witness :
  let wub := wait_url_base prefix "/k" in
  let e := Thrown (Some 401) (Some "etcd reply error") in
  (let s := Run_entry "/k" 0 (fresh etcd [stale; ok index_header "7"]) in
   max_failures s = 5
   /\ (exists s1 res s2,
         watch (quiet etcd) wub s = (Throw e, s1)
         /\ recover (quiet etcd) "/k" wub s1 = (res, s2)
         /\ Run_iteration (quiet etcd) "/k" wub s
            = (Ok tt, mkState (this s2) (watch_url s2) (max_failures s - 1)
                        (world s2) (trace s2)))
   /\ fst (recover (quiet etcd) "/k" wub (snd (watch (quiet etcd) wub s))) = Ok tt
   /\ max_failures (after_turn (quiet etcd) "/k" wub s) = 4)
  /\
  (let s := Run_entry "/k" 0 (fresh etcd [stale]) in
   max_failures s = 5
   /\ (exists s1 res s2,
         watch (quiet etcd) wub s = (Throw e, s1)
         /\ recover (quiet etcd) "/k" wub s1 = (res, s2)
         /\ Run_iteration (quiet etcd) "/k" wub s
            = (Ok tt, mkState (this s2) (watch_url s2) (max_failures s - 1)
                        (world s2) (trace s2)))
   /\ fst (recover (quiet etcd) "/k" wub (snd (watch (quiet etcd) wub s)))
      = Throw (CurlException (fun text => text) strerror 28
                 "Failed easy perform")
   /\ max_failures (after_turn (quiet etcd) "/k" wub s) = 4).
Proof.
  intros wub e. split; intros s.
  - split; [reflexivity|]. split; [|split; reflexivity].
    exact (Run_stale_index_counts_as_failure etcd (quiet etcd) "/k" wub s
             stale [ok index_header "7"] e eq_refl eq_refl eq_refl eq_refl).
  - split; [reflexivity|]. split; [|split; reflexivity].
    exact (Run_stale_index_counts_as_failure etcd (quiet etcd) "/k" wub s
             stale [] e eq_refl eq_refl eq_refl eq_refl).
Defined.

(** C9 on a network without connection, on an engine whose cursor was 7. *)
Lemma prevIndex_overwrites_cursor_witness :
  42 <> 0
  /\ (forall url w, curl_code (fst (curl_easy_perform offline url w)) <> CURLE_OK)
  /\ prev_index_ (this (resumed offline 7 tt)) = 7
  /\ prev_index_ (this (Run_entry "/k" 42 (resumed offline 7 tt))) = 42
  /\ trace (Run_entry "/k" 42 (resumed offline 7 tt)) = []
  /\ (exists s', Run (quiet offline) "/k" 42 5 (resumed offline 7 tt)
                 = (Some (Throw (ClientException "watch failed or timedout")), s')
        /\ prev_index_ (this s') = 42)
  /\ (exists what s', RunOnce (quiet offline) "/k" 42 (resumed offline 7 tt)
                      = (Throw (ClientException ("failed with" ++ what)), s')
        /\ prev_index_ (this s') = 42).
Proof.
  assert (Hnz : 42 <> 0) by discriminate.
  assert (Hoff : forall url w,
             curl_code (fst (curl_easy_perform offline url w)) <> CURLE_OK)
    by (intros url w; simpl; discriminate).
  destruct (prevIndex_overwrites_cursor offline (quiet offline) "/k" 42
              (resumed offline 7 tt) Hnz)
    as [(Hentry & Htrace & _) Hcall].
  destruct (Hcall Hoff) as (_ & HRun & HRunOnce).
  split; [exact Hnz|]. split; [exact Hoff|]. split; [reflexivity|].
  split; [exact Hentry|]. split; [exact Htrace|].
  split; [exact (HRun 5%nat ltac:(vm_compute; lia))|exact HRunOnce].
Defined.

(** C10 as amended, at a callback that raises a [std::exception] on the
    reply of index 7, where the cursor stays at 5, and at a callback that
    raises a [ReplyException] with error code 401 on it, where the recovery
    runs and moves the cursor to 100; the budget goes from 5 to 4 in both. *)
Lemma Run_callback_exception_is_a_failure_witness :
  let wub := wait_url_base prefix "/k" in
  (let s := Run_entry "/k" 5 (fresh etcd [ok "" "7"]) in
   let e := Thrown None (Some "callback failed") in
   let s' := after_turn grumpy "/k" wub s in
   std_what e <> None
   /\ reply_error_code e <> Some 401
   /\ Run_iteration grumpy "/k" wub s = (Ok tt, s')
   /\ max_failures s = 5 /\ max_failures s' = 4
   /\ prev_index_ (this s') = prev_index_ (this s)
   /\ watch_url s' = watch_url s
   /\ deliveries (trace s') = [7])
  /\
  (let s := Run_entry "/k" 5 (fresh etcd [ok "" "7"; ok index_header "9"]) in
   let e := Thrown (Some 401) (Some "etcd reply error") in
   let s' := after_turn (picky 7 401) "/k" wub s in
   std_what e <> None
   /\ reply_error_code e = Some 401
   /\ Run_iteration (picky 7 401) "/k" wub s = (Ok tt, s')
   /\ max_failures s = 5 /\ max_failures s' = 4
   /\ (exists s1 res s2,
         watch (picky 7 401) wub s = (Throw e, s1)
         /\ recover (picky 7 401) "/k" wub s1 = (res, s2)
         /\ s' = mkState (this s2) (watch_url s2) (max_failures s - 1)
                    (world s2) (trace s2))
   /\ prev_index_ (this s') = 100
   /\ requests (trace s')
      = [prefix ++ "/k?wait=true6"; prefix ++ "/k"]).
Proof.
  intros wub. split; intros s e s'.
  - destruct (Run_callback_exception_is_a_failure etcd grumpy "/k" wub s
                (ok "" "7") [] [] 7 e eq_refl eq_refl eq_refl eq_refl
                ltac:(discriminate))
      as (s1 & s0 & _ & _ & _ & _ & _ & Hit & Hm & Hkeep & _).
    assert (Hs0 : s0 = s') by (unfold s', after_turn; rewrite Hit; reflexivity).
    rewrite Hs0 in Hit, Hm, Hkeep.
    destruct (Hkeep ltac:(discriminate)) as (Hcur & Hurl & _).
    split; [discriminate|]. split; [discriminate|]. split; [exact Hit|].
    split; [reflexivity|]. split; [exact Hm|]. split; [exact Hcur|].
    split; [exact Hurl|reflexivity].
  - destruct (Run_callback_exception_is_a_failure etcd (picky 7 401) "/k" wub s
                (ok "" "7") [ok index_header "9"] [ok index_header "9"] 7 e
                eq_refl eq_refl eq_refl eq_refl ltac:(discriminate))
      as (s1 & s0 & Hw & _ & _ & _ & _ & Hit & Hm & _ & Hrec).
    assert (Hs0 : s0 = s') by (unfold s', after_turn; rewrite Hit; reflexivity).
    rewrite Hs0 in Hit, Hm, Hrec.
    destruct (Hrec eq_refl) as (res & s2 & Hr & Hs').
    split; [discriminate|]. split; [reflexivity|]. split; [exact Hit|].
    split; [reflexivity|]. split; [exact Hm|].
    split; [exists s1, res, s2; repeat split; assumption|].
    split; reflexivity.
Defined.

(** C10 as stated fails when the exception of the callback is a
    [ReplyException] with error code 401: the first handler takes it for an
    index out of date and runs the recovery, which here moves the cursor
    from 5 to 100 and rewrites the watch URL. *)
Lemma callback_failure_is_not_generic :
  ~ callback_failure_is_generic (picky 7 401) "/k" (wait_url_base prefix "/k")
      (Run_entry "/k" 5 (fresh etcd [ok "" "7"; ok index_header "9"])).
Proof.
  intros H.
  destruct (H (ok "" "7") [ok index_header "9"] [ok index_header "9"] 7
              (Thrown (Some 401) (Some "etcd reply error"))
              eq_refl eq_refl eq_refl eq_refl ltac:(discriminate))
    as (s' & Hit & _ & Hcur & _).
  assert (Hs' : s' = after_turn (picky 7 401) "/k" (wait_url_base prefix "/k")
                       (Run_entry "/k" 5 (fresh etcd [ok "" "7"; ok index_header "9"])))
    by (unfold after_turn; rewrite Hit; reflexivity).
  rewrite Hs' in Hcur. vm_compute in Hcur. discriminate.
Qed.

(** * Further properties of the engine and of the transport *)

(** ** Strings and traces *)

Lemma string_app_assoc (a b c : string) : (a ++ b) ++ c = a ++ b ++ c.
Proof. induction a as [|x a IH]; simpl; [reflexivity|now rewrite IH]. Qed.

Lemma string_app_length (a b : string) :
  String.length (a ++ b) = (String.length a + String.length b)%nat.
Proof. induction a as [|x a IH]; simpl; [reflexivity|now rewrite IH]. Qed.

Lemma string_app_nil_r (a : string) : a ++ "" = a.
Proof. induction a as [|x a IH]; simpl; [reflexivity|now rewrite IH]. Qed.

Lemma prefix_app (a b : string) : String.prefix a (a ++ b) = true.
Proof.
  induction a as [|x a IH]; simpl; [destruct b; reflexivity|].
  destruct (ascii_dec x x) as [_|Hne]; [exact IH|now destruct Hne].
Qed.

Lemma prefix_app_app (a b c : string) : String.prefix a ((a ++ b) ++ c) = true.
Proof. rewrite string_app_assoc. apply prefix_app. Qed.

Section Calls.

Variable E : Env.
Variable callback : Callback E.

Ltac poll_cases :=
  unfold watch, construct_Reply, invoke; unfold_curl; unfold_monad;
  unfold_setters; simpl;
  match goal with
  | |- context [curl_easy_perform ?E ?u ?w] =>
      destruct (curl_easy_perform E u w) as [?t ?w1] eqn:?Hperform; simpl
  end;
  destruct (curl_code _ =? CURLE_OK) eqn:?Hcode; simpl;
  [ destruct (Reply_ctor _ _) as [?r|?e] eqn:?Hdecode; simpl;
    [ match goal with
      | |- context [callback ?r ?w] =>
          destruct (callback r w) as [[[]|?e] ?w2] eqn:?Hcallback; simpl
      end
    | ]
  | ].

(** What a long poll adds to the trace: its GET, and the callback when the
    reply was decoded.  When it returns, the callback has run and the watch
    URL is the one after the reply. *)
Lemma watch_trace (wait_url_base : string) (s : state E) :
  forall res s', watch callback wait_url_base s = (res, s') ->
    (trace s' = (trace s ++ [GET (watch_url s)])%list /\ res <> Ok tt
     \/ exists r, trace s' = (trace s ++ [GET (watch_url s); CALLBACK r])%list
          /\ (res = Ok tt ->
              watch_url s' = url_after wait_url_base r
              /\ prev_index_ (this s') = to_Index E (get_modified_index E r))).
Proof.
  intros res s'. poll_cases; intros H; inversion H; subst; simpl;
    try rewrite <- app_assoc; simpl.
  - right. eexists. split; [reflexivity|]. intros _. split; reflexivity.
  - right. eexists. split; [reflexivity|]. discriminate.
  - left. split; [reflexivity|discriminate].
  - left. split; [reflexivity|discriminate].
Qed.

(** What a recovery adds to the trace: the GET on the bare key, and the
    callback when the snapshot was decoded. *)
Lemma recover_trace (key wait_url_base : string) (s : state E) :
  forall res s', recover callback key wait_url_base s = (res, s') ->
    trace s' = (trace s ++ [GET (url_prefix_ (this s) ++ key)])%list
    \/ exists r,
         trace s'
         = (trace s ++ [GET (url_prefix_ (this s) ++ key); CALLBACK r])%list.
Proof.
  intros res s'.
  unfold recover, construct_Reply, invoke; unfold_curl; unfold_monad;
    unfold_setters; simpl.
  destruct (curl_easy_perform E _ (world s)) as [t w1]; simpl.
  destruct (curl_code t =? CURLE_OK); simpl;
    [|intros H; inversion H; subst; now left].
  destruct (Reply_ctor E (received_body t)) as [r|e]; simpl;
    [|intros H; inversion H; subst; now left].
  rewrite <- app_assoc. simpl.
  destruct (callback r w1) as [[[]|e] w2]; simpl;
    [|intros H; inversion H; subst; right; eexists; reflexivity].
  match goal with
  | |- context [scan_header ?l ?st] =>
      destruct (scan_header l st) as [[[]|e] s2] eqn:Hs;
      apply scan_header_effect in Hs; simpl in Hs;
      destruct Hs as (_ & _ & _ & _ & _ & Ht & _)
  end; intros H; inversion H; subst; simpl; right; eexists; exact Ht.
Qed.

(** ** How many requests and callbacks *)

(** The requests and callback invocations of a [try] statement whose
    handler for [ReplyException] runs the recovery on code 401 and nothing
    that touches the trace otherwise. *)
Lemma poll_and_recovery (key wait_url_base : string) (s s1 s' : state E)
    (res : result thrown unit) :
  watch callback wait_url_base s = (res, s1) ->
  (trace s' = trace s1
   \/ (exists e, res = Throw e /\ reply_error_code e = Some 401)
      /\ exists res2 s2, recover callback key wait_url_base s1 = (res2, s2)
           /\ trace s' = trace s2) ->
  (requests (trace s') = (requests (trace s) ++ [watch_url s])%list
   \/ (exists e, res = Throw e /\ reply_error_code e = Some 401)
      /\ requests (trace s')
         = (requests (trace s)
            ++ [watch_url s; (url_prefix_ (this s) ++ key)%string])%list)
  /\ (List.length (deliveries (trace s'))
      <= List.length (deliveries (trace s)) + 2)%nat.
Proof.
  intros Hw Hs'.
  pose proof (watch_keeps_budget E callback _ _ _ _ Hw) as (_ & Hpre & _).
  apply watch_trace in Hw.
  assert (H1 : requests (trace s1) = (requests (trace s) ++ [watch_url s])%list
               /\ (List.length (deliveries (trace s1))
                   <= List.length (deliveries (trace s)) + 1)%nat).
  { destruct Hw as [[-> _] | (r & -> & _)];
      rewrite requests_app, deliveries_app, length_app; simpl; split;
      try reflexivity; lia. }
  destruct H1 as [Hreq Hdel].
  destruct Hs' as [-> | [H401 (res2 & s2 & Hrec & ->)]].
  - split; [left; exact Hreq|lia].
  - apply recover_trace in Hrec. rewrite Hpre in Hrec.
    destruct Hrec as [-> | (r & ->)];
      rewrite requests_app, deliveries_app, length_app, Hreq, <- app_assoc;
      simpl; (split; [right; split; [exact H401|reflexivity]|lia]).
Qed.

(** [RunOnce] issues its long poll and nothing else, except after a
    [ReplyException] with error code 401, when the GET on the bare key
    follows; it invokes the callback at most twice (once in the long poll,
    once in the recovery). *)
Lemma RunOnce_requests :
  forall (key : string) (prevIndex : Z) (s : state E),
    let s' := snd (RunOnce callback key prevIndex s) in
    let u := watch_url (RunOnce_entry key prevIndex s) in
    (requests (trace s') = (requests (trace s) ++ [u])%list
     \/ requests (trace s')
        = (requests (trace s) ++ [u; (url_prefix_ (this s) ++ key)%string])%list)
    /\ (List.length (deliveries (trace s'))
        <= List.length (deliveries (trace s)) + 2)%nat.
Proof.
  intros key prevIndex s s' u. subst s' u.
  pose proof (RunOnce_entry_effect E key prevIndex s) as (_ & _ & Hp & _ & _ & Ht).
  rewrite RunOnce_from_entry. unfold try_catch.
  destruct (watch callback _ (RunOnce_entry key prevIndex s)) as [res s1] eqn:Hw.
  assert (Hgoal : forall s',
    (trace s' = trace s1
     \/ (exists e, res = Throw e /\ reply_error_code e = Some 401)
        /\ exists res2 s2,
             recover callback key (wait_url_base (url_prefix_ (this s)) key) s1
             = (res2, s2) /\ trace s' = trace s2) ->
    (requests (trace s')
     = (requests (trace s) ++ [watch_url (RunOnce_entry key prevIndex s)])%list
     \/ requests (trace s')
        = (requests (trace s)
           ++ [watch_url (RunOnce_entry key prevIndex s);
               (url_prefix_ (this s) ++ key)%string])%list)
    /\ (List.length (deliveries (trace s'))
        <= List.length (deliveries (trace s)) + 2)%nat).
  { intros s' Hs'.
    destruct (poll_and_recovery key _ _ _ s' _ Hw Hs') as [Hreq Hdel].
    rewrite Ht, Hp in *. split; [|exact Hdel].
    destruct Hreq as [Hreq | [_ Hreq]]; [left|right]; exact Hreq. }
  destruct res as [[]|e]; simpl.
  - apply Hgoal. now left.
  - unfold RunOnce_catch.
    destruct (reply_error_code e) as [code|] eqn:Hcode.
    + destruct (code =? 401) eqn:H401; simpl.
      * apply Z.eqb_eq in H401. subst code. unfold catch_all. simpl.
        apply Hgoal. right. split; [eauto|].
        destruct (recover callback key _ s1) as [res2 s2]. simpl. eauto.
      * apply Hgoal. now left.
    + destruct (std_what e); simpl; apply Hgoal; now left.
Qed.

(** A turn of the loop of [Run] does the same: one long poll, then the GET
    on the bare key exactly when a [ReplyException] with error code 401 came
    out of the long poll, and at most two invocations of the callback. *)
Lemma turn_requests :
  forall (key wait_url_base : string) (s : state E),
    let s' := after_turn callback key wait_url_base s in
    (requests (trace s') = (requests (trace s) ++ [watch_url s])%list
     /\ (forall e s1, Run_try callback wait_url_base s = (Throw e, s1) ->
         reply_error_code e <> Some 401)
     \/ requests (trace s')
        = (requests (trace s)
           ++ [watch_url s; (url_prefix_ (this s) ++ key)%string])%list
        /\ (exists e s1, Run_try callback wait_url_base s = (Throw e, s1)
             /\ reply_error_code e = Some 401))
    /\ (List.length (deliveries (trace s'))
        <= List.length (deliveries (trace s)) + 2)%nat.
Proof.
  intros key wub s s'. subst s'.
  unfold after_turn, Run_iteration, try_catch.
  assert (Hdec : forall st : state E,
            trace (snd ((decrement_max_failures : M E exn unit) st)) = trace st)
    by (intros st; unfold decrement_max_failures; unfold_monad;
        unfold_setters; reflexivity).
  destruct (Run_try callback wub s) as [[[]|e] s1] eqn:Htry; simpl.
  - apply Run_try_returns in Htry. destruct Htry as (s0 & Hw & ->). simpl.
    destruct (poll_and_recovery key wub s s0 s0 _ Hw (or_introl eq_refl))
      as [[Hreq | [(e & He & _) _]] Hdel]; [|discriminate].
    split; [left; split; [exact Hreq|discriminate]|exact Hdel].
  - pose proof (Run_try_throws E callback _ _ _ _ Htry) as Hw.
    assert (Hplain : forall s' : state E, trace s' = trace s1 ->
              reply_error_code e <> Some 401 ->
      (requests (trace s') = (requests (trace s) ++ [watch_url s])%list
       /\ (forall e0 s0,
             (@Throw thrown unit e, s1) = (Throw e0, s0) ->
             reply_error_code e0 <> Some 401)
       \/ requests (trace s')
          = (requests (trace s)
             ++ [watch_url s; (url_prefix_ (this s) ++ key)%string])%list
          /\ (exists e0 s0, (@Throw thrown unit e, s1) = (Throw e0, s0)
               /\ reply_error_code e0 = Some 401))
      /\ (List.length (deliveries (trace s'))
          <= List.length (deliveries (trace s)) + 2)%nat).
    { intros s' Hs' Hne.
      destruct (poll_and_recovery key wub s s1 s' _ Hw (or_introl Hs'))
        as [[Hreq | [(e' & He' & H401') _]] Hdel].
      - split; [|exact Hdel]. left. split; [exact Hreq|].
        intros e0 s0 H0. inversion H0; subst. exact Hne.
      - inversion He'; subst. congruence. }
    unfold Run_catch.
    destruct (reply_error_code e) as [code|] eqn:Hcode.
    + destruct (code =? 401) eqn:H401; simpl.
      * apply Z.eqb_eq in H401. subst code.
        unfold bind, catch_all.
        destruct (recover callback key wub s1) as [res2 s2] eqn:Hrec. simpl.
        pose proof (watch_keeps_budget E callback _ _ _ _ Hw) as (_ & Hpre & _).
        pose proof (recover_trace key wub s1 _ _ Hrec) as Hrt.
        pose proof (watch_trace wub s _ _ Hw) as Hwt.
        rewrite Hpre in Hrt. try rewrite Hdec.
        unfold decrement_max_failures; unfold_monad; unfold_setters; simpl.
        split.
        -- right. split; [|exists e, s1; split; [reflexivity|exact Hcode]].
           destruct Hwt as [[Hwt _] | (r & Hwt & _)];
             destruct Hrt as [Hrt | (r2 & Hrt)];
             rewrite Hrt, Hwt; repeat rewrite requests_app;
             rewrite <- app_assoc; reflexivity.
        -- destruct Hwt as [[Hwt _] | (r & Hwt & _)];
             destruct Hrt as [Hrt | (r2 & Hrt)];
             rewrite Hrt, Hwt; repeat rewrite deliveries_app;
             repeat rewrite length_app; simpl; lia.
      * apply Hplain; [apply Hdec|].
        apply Z.eqb_neq in H401. congruence.
    + destruct (std_what e); simpl; apply Hplain;
        try apply Hdec; try reflexivity; discriminate.
Qed.

(** ** What the loop of [Run] keeps *)

(** What a turn of the loop does to the URL prefix, to the failure budget
    and to the watch URL. *)
Lemma turn_effect (key wait_url_base : string) (s : state E) :
  let s' := after_turn callback key wait_url_base s in
  url_prefix_ (this s') = url_prefix_ (this s)
  /\ (max_failures s' = MAX_FAILURES
      \/ max_failures s' = max_failures s - 1
      \/ max_failures s' = max_failures s
         /\ exists e, fst (Run_iteration callback key wait_url_base s)
                      = Throw (Uncaught e))
  /\ (watch_url s' = watch_url s
      \/ exists digits, watch_url s' = wait_url_base ++ digits).
Proof.
  intros s'. subst s'. unfold after_turn.
  destruct (Run_try callback wait_url_base s) as [[[]|e] s1] eqn:Htry.
  - destruct (Run_iteration_success E callback key _ _ _ Htry) as [-> Hm].
    apply Run_try_returns in Htry. destruct Htry as (s0 & Hw & ->).
    pose proof (watch_keeps_budget E callback _ _ _ _ Hw) as (_ & Hp & _).
    apply watch_returns in Hw. destruct Hw as [Hu _]. simpl.
    split; [exact Hp|]. split; [now left|]. right. eexists. exact Hu.
  - pose proof (Run_try_throws E callback _ _ _ _ Htry) as Hw.
    pose proof (watch_throw_frame E callback _ _ _ _ Hw)
      as (_ & Hu & Hm & Hp & _).
    destruct (caught e) eqn:Hc.
    + destruct (Run_iteration_failure E callback key _ _ _ _ Htry Hc)
        as (s' & Hit & Hm' & Hp').
      rewrite Hit. simpl. split; [exact Hp'|]. split; [right; now left|].
      revert Hit. unfold Run_iteration, try_catch. rewrite Htry.
      unfold Run_catch.
      destruct (reply_error_code e) as [code|].
      * destruct (code =? 401).
        -- unfold bind, catch_all.
           destruct (recover callback key wait_url_base s1)
             as [[[]|e'] s2] eqn:Hrec; simpl;
             unfold decrement_max_failures; unfold_monad; unfold_setters;
             simpl; intros H; inversion H; subst; simpl.
           ++ apply recover_returns in Hrec. destruct Hrec as [_ ->].
              right. eexists. reflexivity.
           ++ apply recover_throws in Hrec. destruct Hrec as (_ & -> & _).
              left. exact Hu.
        -- unfold decrement_max_failures; unfold_monad; unfold_setters;
             simpl; intros H; inversion H; subst; simpl. left. exact Hu.
      * destruct (std_what e);
          [|unfold caught in Hc; discriminate].
        unfold decrement_max_failures; unfold_monad; unfold_setters;
          simpl; intros H; inversion H; subst; simpl. left. exact Hu.
    + rewrite (Run_iteration_escape E callback key _ _ _ _ Htry Hc). simpl.
      split; [exact Hp|]. split; [|left; exact Hu].
      right. right. split; [exact Hm|eauto].
Qed.

(** What every turn keeps, the loop keeps. *)
Lemma Run_loop_keeps (I : state E -> Prop) (key wait_url_base : string) :
  (forall s, I s -> max_failures s <> 0 ->
             I (after_turn callback key wait_url_base s)) ->
  forall fuel s, I s -> I (snd (Run_loop callback fuel key wait_url_base s)).
Proof.
  intros Hstep. induction fuel as [|fuel IH]; intros s Hs; simpl;
    destruct (max_failures s =? 0) eqn:Hm; simpl; try exact Hs.
  apply Z.eqb_neq in Hm. specialize (Hstep s Hs Hm). unfold after_turn in Hstep.
  destruct (Run_iteration callback key wait_url_base s) as [[u|x] s1];
    simpl in *; [apply IH|]; exact Hstep.
Qed.

(** The state [Run] ends in, or is in when the fuel is used up, is the state
    of its loop. *)
Lemma Run_state (key : string) (prevIndex : Z) (fuel : nat) (s : state E) :
  snd (Run callback key prevIndex fuel s)
  = snd (Run_loop callback fuel key (wait_url_base (url_prefix_ (this s)) key)
           (Run_entry key prevIndex s)).
Proof.
  rewrite Run_from_entry.
  destruct (Run_loop callback fuel key _ (Run_entry key prevIndex s))
    as [[[u|x]|] s1]; simpl; try reflexivity.
  destruct (max_failures s1 =? 0); reflexivity.
Qed.

(** X3. The failure budget of [Run] is at every moment between 0 and
    [MAX_FAILURES]: [max_failures--] never takes it below 0. *)
Theorem Run_budget_in_range :
  forall (key : string) (prevIndex : Z) (fuel : nat) (s : state E),
    0 <= max_failures (snd (Run callback key prevIndex fuel s)) <= MAX_FAILURES.
Proof.
  intros key prevIndex fuel s. rewrite Run_state.
  apply (Run_loop_keeps (fun st => 0 <= max_failures st <= MAX_FAILURES)).
  - intros st Hst Hnz.
    destruct (turn_effect key (wait_url_base (url_prefix_ (this s)) key) st)
      as (_ & [Hm | [Hm | [Hm _]]] & _); rewrite Hm;
      unfold MAX_FAILURES in *; lia.
  - pose proof (Run_entry_effect E key prevIndex s) as (_ & _ & _ & _ & Hm & _).
    rewrite Hm. unfold MAX_FAILURES. lia.
Qed.

(** X4. Neither [Run] nor [RunOnce] writes the URL prefix of the engine. *)
Theorem url_prefix_is_kept :
  forall (key : string) (prevIndex : Z) (s : state E),
    (forall fuel,
        url_prefix_ (this (snd (Run callback key prevIndex fuel s)))
        = url_prefix_ (this s))
    /\ url_prefix_ (this (snd (RunOnce callback key prevIndex s)))
       = url_prefix_ (this s).
Proof.
  intros key prevIndex s. split.
  - intros fuel. rewrite Run_state.
    apply (Run_loop_keeps
             (fun st => url_prefix_ (this st) = url_prefix_ (this s))).
    + intros st Hst _.
      destruct (turn_effect key (wait_url_base (url_prefix_ (this s)) key) st)
        as (Hp & _). congruence.
    + apply (Run_entry_effect E key prevIndex s).
  - pose proof (RunOnce_entry_effect E key prevIndex s) as (_ & _ & Hp & _).
    rewrite RunOnce_from_entry. unfold try_catch.
    destruct (watch callback _ (RunOnce_entry key prevIndex s))
      as [[[]|e] s1] eqn:Hw;
      pose proof (watch_keeps_budget E callback _ _ _ _ Hw) as (_ & Hp1 & _);
      simpl; [congruence|].
    unfold RunOnce_catch.
    destruct (reply_error_code e) as [code|].
    + destruct (code =? 401); simpl; [|congruence].
      unfold catch_all. simpl.
      destruct (recover callback key _ s1) as [res s2] eqn:Hrec.
      apply recover_keeps_budget in Hrec. destruct Hrec as [_ Hp2].
      simpl. congruence.
    + destruct (std_what e); simpl; congruence.
Qed.


(** X2. Every request of [Run] and of [RunOnce] goes to a URL that starts
    with the URL prefix of the engine followed by the key. *)
Theorem requests_stay_under_key :
  forall (key : string) (prevIndex : Z) (s : state E),
    let under (u : string) :=
      String.prefix (url_prefix_ (this s) ++ key) u = true in
    (forall fuel, exists new,
        requests (trace (snd (Run callback key prevIndex fuel s)))
        = (requests (trace s) ++ new)%list
        /\ Forall under new)
    /\ (exists new,
          requests (trace (snd (RunOnce callback key prevIndex s)))
          = (requests (trace s) ++ new)%list
          /\ Forall under new).
Proof.
  intros key prevIndex s under.
  assert (Hbare : under (url_prefix_ (this s) ++ key)).
  { unfold under. rewrite <- (string_app_nil_r (url_prefix_ (this s) ++ key)) at 2.
    apply prefix_app. }
  assert (Hbase : forall rest,
             under ((url_prefix_ (this s) ++ key ++ "?wait=true") ++ rest)).
  { intros rest. unfold under.
    rewrite <- (string_app_assoc (url_prefix_ (this s)) key "?wait=true").
    rewrite string_app_assoc. apply prefix_app. }
  assert (Hentry : under (watch_url (Run_entry key prevIndex s))).
  { destruct (first_watch_url E key prevIndex s) as [-> _].
    destruct (_ =? 0); [|apply Hbase].
    rewrite <- (string_app_nil_r (url_prefix_ (this s) ++ key ++ "?wait=true")).
    apply Hbase. }
  split.
  - intros fuel. rewrite Run_state.
    apply (Run_loop_keeps
             (fun st => url_prefix_ (this st) = url_prefix_ (this s)
                        /\ under (watch_url st)
                        /\ exists new,
                             requests (trace st) = (requests (trace s) ++ new)%list
                             /\ Forall under new)).
    + intros st (Hp & Hu & new & Hreq & Hnew) _.
      destruct (turn_effect key (wait_url_base (url_prefix_ (this s)) key) st)
        as (Hp' & _ & Hurl).
      split; [congruence|]. split.
      * destruct Hurl as [-> | [digits ->]]; [exact Hu|].
        unfold wait_url_base, watch_url_base. rewrite string_app_assoc.
        apply Hbase.
      * destruct (turn_requests key (wait_url_base (url_prefix_ (this s)) key) st)
          as [[[Hr _] | [Hr _]] _]; rewrite Hr, Hreq, <- app_assoc;
          eexists; (split; [reflexivity|]); apply Forall_app; split;
          try exact Hnew; repeat constructor; try exact Hu.
        rewrite Hp. exact Hbare.
    + pose proof (Run_entry_effect E key prevIndex s)
        as (_ & _ & Hp & _ & _ & _ & Ht).
      split; [exact Hp|]. split; [exact Hentry|].
      exists []. rewrite Ht, app_nil_r. split; [reflexivity|constructor].
  - destruct (first_watch_url E key prevIndex s) as [_ Heq].
    destruct (RunOnce_requests key prevIndex s) as [[Hr | Hr] _];
      rewrite Hr, Heq; eexists; (split; [reflexivity|]);
      repeat constructor; try exact Hentry; exact Hbare.
Qed.

(** X5. An exception of the decoder or of the callback that neither handler of
    [Run] matches ends the call at once: it leaves [Run] as it is, in the
    state in which it was raised, where the cursor, the watch URL and the
    failure budget are those at the start of the turn. *)
Theorem Run_lets_foreign_exceptions_through :
  forall (key : string) (prevIndex : Z) (s : state E) (n : nat)
         (sn s1 : state E) (e : thrown),
    Run callback key prevIndex n s = (None, sn) ->
    watch callback (wait_url_base (url_prefix_ (this s)) key) sn = (Throw e, s1) ->
    caught e = false ->
    (forall fuel, (n < fuel)%nat ->
       Run callback key prevIndex fuel s = (Some (Throw (Uncaught e)), s1))
    /\ prev_index_ (this s1) = prev_index_ (this sn)
    /\ watch_url s1 = watch_url sn
    /\ max_failures s1 = max_failures sn.
Proof.
  intros key prevIndex s n sn s1 e Hrun Hw Hc.
  pose proof (watch_throw_frame E callback _ _ _ _ Hw) as (Hcur & Hu & Hm & _).
  split; [|repeat split; assumption].
  intros fuel Hfuel.
  assert (Htry : Run_try callback (wait_url_base (url_prefix_ (this s)) key) sn
                 = (Throw e, s1))
    by (unfold Run_try, bind; rewrite Hw; reflexivity).
  pose proof (Run_iteration_escape E callback key _ _ _ _ Htry Hc) as Hit.
  pose proof (Run_running E callback _ _ _ _ _ Hrun) as Hloop.
  assert (Hnz : max_failures sn <> 0).
  { clear - Hloop. revert Hloop.
    generalize (Run_entry key prevIndex s).
    induction n as [|n IH]; intros s0; simpl;
      destruct (max_failures s0 =? 0) eqn:Hz; simpl; try discriminate.
    - intros H; inversion H; subst. now apply Z.eqb_neq.
    - destruct (Run_iteration callback key _ s0) as [[u|x] s2];
        [apply IH|discriminate]. }
  rewrite Run_from_entry.
  replace fuel with (n + S (fuel - n - 1))%nat by lia.
  rewrite (Run_loop_compose E callback _ _ _ _ _ _ Hloop).
  simpl. apply Z.eqb_neq in Hnz. rewrite Hnz. simpl. rewrite Hit. reflexivity.
Qed.

(** ** The paths of [RunOnce] that return *)

(** X6. [RunOnce] whose transfer, decoding and callback all return: it returns
    after that one request and that one invocation of the callback, and the
    modified index of the reply is stored in the engine, where the next call
    without [prevIndex] finds it as its cursor. *)
Theorem RunOnce_delivers_one_change :
  forall (key : string) (prevIndex : Z) (s : state E)
         (t : transfer) (w1 w2 : World E) (r : Reply E),
    curl_easy_perform E (watch_url (RunOnce_entry key prevIndex s)) (world s)
      = (t, w1) ->
    curl_code t = CURLE_OK ->
    Reply_ctor E (received_body t) = Ok r ->
    callback r w1 = (Ok tt, w2) ->
    exists s', RunOnce callback key prevIndex s = (Ok tt, s')
      /\ trace s'
         = (trace s ++ [GET (watch_url (RunOnce_entry key prevIndex s));
                        CALLBACK r])%list
      /\ world s' = w2
      /\ prev_index_ (this s') = to_Index E (get_modified_index E r)
      /\ enable_header_ (handle_ (this s')) = enable_header_ (handle_ (this s))
      /\ (forall key', prev_index_ (this (Run_entry key' 0 s'))
                       = to_Index E (get_modified_index E r)
                       /\ prev_index_ (this (RunOnce_entry key' 0 s'))
                          = to_Index E (get_modified_index E r)).
Proof.
  intros key prevIndex s t w1 w2 r Hp Hc Hd Hcb.
  pose proof (RunOnce_entry_effect E key prevIndex s)
    as (_ & _ & _ & Hh & Hw & Ht).
  rewrite <- Hw in Hp.
  destruct (watch_success E callback (wait_url_base (url_prefix_ (this s)) key)
              _ t w1 w2 r Hp Hc Hd Hcb)
    as (s' & Hwatch & Hcur & _ & _ & _ & Hen & Hwo & Htr).
  exists s'. rewrite RunOnce_from_entry. unfold try_catch. rewrite Hwatch.
  split; [reflexivity|]. split; [rewrite Htr, Ht; reflexivity|].
  split; [exact Hwo|]. split; [exact Hcur|].
  split; [rewrite Hen, Hh; reflexivity|].
  intros key'.
  pose proof (Run_entry_effect E key' 0 s') as (-> & _).
  pose proof (RunOnce_entry_effect E key' 0 s') as (-> & _).
  simpl. split; exact Hcur.
Qed.

(** X7. [RunOnce] whose decoder reports error code 401: it returns, whatever
    becomes of the recovery, after exactly two requests, the long poll and
    the GET on the bare key. *)
Theorem RunOnce_returns_after_stale_index :
  forall (key : string) (prevIndex : Z) (s : state E)
         (t : transfer) (w1 : World E) (e : thrown),
    curl_easy_perform E (watch_url (RunOnce_entry key prevIndex s)) (world s)
      = (t, w1) ->
    curl_code t = CURLE_OK ->
    Reply_ctor E (received_body t) = Throw e ->
    reply_error_code e = Some 401 ->
    exists s', RunOnce callback key prevIndex s = (Ok tt, s')
      /\ requests (trace s')
         = (requests (trace s)
            ++ [watch_url (RunOnce_entry key prevIndex s);
                (url_prefix_ (this s) ++ key)%string])%list.
Proof.
  intros key prevIndex s t w1 e Hp Hc Hd H401.
  pose proof (RunOnce_entry_effect E key prevIndex s)
    as (_ & _ & Hpre & _ & Hw & Ht).
  rewrite <- Hw in Hp.
  destruct (watch_decode_throws E callback (wait_url_base (url_prefix_ (this s)) key)
              _ t w1 e Hp Hc Hd) as (s1 & Hwatch & _ & Htr).
  pose proof (watch_keeps_budget E callback _ _ _ _ Hwatch) as (_ & Hp1 & _).
  rewrite RunOnce_from_entry. unfold try_catch. rewrite Hwatch.
  unfold RunOnce_catch. rewrite H401. simpl. unfold catch_all.
  destruct (recover callback key _ s1) as [res s2] eqn:Hrec.
  exists s2. split; [reflexivity|].
  apply recover_trace in Hrec. rewrite Hp1, Hpre in Hrec.
  destruct Hrec as [-> | (r & ->)]; rewrite Htr, Ht;
    repeat rewrite requests_app; rewrite <- app_assoc; reflexivity.
Qed.

(** ** A run of successes *)

(** X8. Long polls that are answered by the replies [rs]: the transfer of
    each request succeeds, its body decodes to the reply, and the callback
    returns on it.  The loop of [Run] goes on through them, one turn for each;
    the callback gets these replies, each after the request that fetched it
    and before the next request, in the order of their arrival; each long
    poll after the first asks for the index after the reply before it; and
    the world is the one the last callback left. *)
Theorem Run_delivers_in_order :
  forall (key wait_url_base : string) (rs : list (Reply E)) (s : state E)
         (w' : World E),
    answered callback wait_url_base (watch_url s) (world s) rs w' ->
    max_failures s <> 0 ->
    let sn := after_turns callback (List.length rs) key wait_url_base s in
    Run_loop callback (List.length rs) key wait_url_base s = (None, sn)
    /\ trace sn = (trace s ++ exchanges wait_url_base (watch_url s) rs)%list
    /\ deliveries (trace sn) = (deliveries (trace s) ++ rs)%list
    /\ requests (trace sn)
       = (requests (trace s) ++ poll_urls wait_url_base (watch_url s) rs)%list
    /\ watch_url sn = url_after_all wait_url_base (watch_url s) rs
    /\ world sn = w'.
Proof.
  intros key wub rs s w' Ha Hnz sn.
  destruct (answered_run E callback key wub rs s w' Ha Hnz)
    as (Hl & Ht & Hw & Hu & _).
  fold sn in Hl, Ht, Hw, Hu.
  assert (Hd : forall u, deliveries (exchanges wub u rs) = rs).
  { clear. induction rs as [|r rs IH]; intros u; simpl;
      [reflexivity|now rewrite IH]. }
  assert (Hr : forall u, requests (exchanges wub u rs) = poll_urls wub u rs).
  { clear. induction rs as [|r rs IH]; intros u; simpl;
      [reflexivity|now rewrite IH]. }
  split; [exact Hl|]. split; [exact Ht|].
  split; [rewrite Ht, deliveries_app, Hd; reflexivity|].
  split; [rewrite Ht, requests_app, Hr; reflexivity|].
  split; assumption.
Qed.

(** ** The index header in the recovery *)

(** The decimal digits of a number, read back. *)
Lemma read_digits_of_uint (d : Decimal.uint) :
  forall (acc : Z) (rest : string),
    no_leading_digit rest ->
    Str.read_digits true acc (NilEmpty.string_of_uint d ++ rest)
    = Some (uint_value acc d).
Proof.
  induction d; intros acc rest Hrest; simpl; try (apply IHd; exact Hrest).
  destruct rest as [|c rest]; simpl in *; [reflexivity|].
  now rewrite Hrest.
Qed.

Lemma uint_value_of_uint_acc (d : Decimal.uint) :
  forall p : positive, Z.pos (Pos.of_uint_acc d p) = uint_value (Z.pos p) d.
Proof.
  induction d; intros p; cbn [Pos.of_uint_acc uint_value];
    try rewrite IHd; try reflexivity; f_equal; lia.
Qed.

Lemma uint_value_of_uint (d : Decimal.uint) :
  Z.of_N (N.of_uint d) = uint_value 0 d.
Proof.
  unfold N.of_uint.
  induction d; cbn [Pos.of_uint uint_value Z.of_N]; try exact IHd;
    try reflexivity; apply uint_value_of_uint_acc.
Qed.

Lemma to_uint_not_Nil (n : N) : N.to_uint n <> Decimal.Nil.
Proof.
  destruct n as [|p]; simpl; [discriminate|].
  apply DecimalPos.Unsigned.to_uint_nonnil.
Qed.

(** A digit is neither white space nor a sign. *)
Lemma digit_is_plain (c : ascii) (k : Z) :
  Str.digit_of c = Some k ->
  Str.isspace c = false /\ Ascii.eqb c "-" = false /\ Ascii.eqb c "+" = false.
Proof.
  unfold Str.digit_of, Str.isspace. intros H.
  destruct ((48 <=? Z.of_nat (nat_of_ascii c))
            && (Z.of_nat (nat_of_ascii c) <=? 57)) eqn:Hr; [|discriminate].
  apply andb_prop in Hr. destruct Hr as [H1 H2].
  apply Z.leb_le in H1, H2.
  split; [|split].
  - assert (H32 : (nat_of_ascii c =? 32)%nat = false)
      by (apply Nat.eqb_neq; lia).
    assert (H13 : (nat_of_ascii c <=? 13)%nat = false)
      by (apply Nat.leb_gt; lia).
    cbv zeta. rewrite H32, H13, andb_false_r. reflexivity.
  - destruct (Ascii.eqb_spec c "-") as [->|]; [|reflexivity].
    vm_compute in H1. now destruct H1.
  - destruct (Ascii.eqb_spec c "+") as [->|]; [|reflexivity].
    vm_compute in H1. now destruct H1.
Qed.

Lemma stoi_digit_first (c : ascii) (k : Z) (tail : string) :
  Str.digit_of c = Some k ->
  Str.stoi (String c tail)
  = match Str.read_digits true (10 * 0 + k) tail with
    | Some v =>
        if (Str.INT_MIN <=? v) && (v <=? Str.INT_MAX)
        then Str.Parsed v else Str.out_of_range
    | None => Str.invalid_argument
    end.
Proof.
  intros H. destruct (digit_is_plain c k H) as (Hs & Hm & Hp).
  unfold Str.stoi. cbn [Str.skip_spaces]. rewrite Hs, Hm, Hp.
  cbn [Str.read_digits]. rewrite H. reflexivity.
Qed.

(** [std::stoi] on the digits that [std::to_string] prints for [n], followed
    by text that is not a digit: [n] when it fits [int], and
    [std::out_of_range] when it does not. *)
Lemma stoi_to_string (n : Z) (rest : string) :
  0 <= n -> no_leading_digit rest ->
  Str.stoi (Str.to_string n ++ rest)
  = if n <=? Str.INT_MAX then Str.Parsed n else Str.out_of_range.
Proof.
  intros Hn Hrest. unfold Str.to_string.
  pose proof (uint_value_of_uint (N.to_uint (Z.to_N n))) as Hv.
  rewrite DecimalN.Unsigned.of_to, Z2N.id in Hv by exact Hn.
  pose proof (to_uint_not_Nil (Z.to_N n)) as Hnil.
  assert (Hstoi : forall d, d <> Decimal.Nil ->
            Str.stoi (NilEmpty.string_of_uint d ++ rest)
            = if (Str.INT_MIN <=? uint_value 0 d) && (uint_value 0 d <=? Str.INT_MAX)
              then Str.Parsed (uint_value 0 d) else Str.out_of_range).
  { intros d Hd. destruct d; [now destruct Hd| | | | | | | | | |];
      cbn [NilEmpty.string_of_uint append uint_value];
      (erewrite stoi_digit_first; [|reflexivity]);
      rewrite (read_digits_of_uint _ _ _ Hrest); reflexivity. }
  rewrite (Hstoi _ Hnil), <- Hv.
  assert (Hmin : (Str.INT_MIN <=? n) = true)
    by (apply Z.leb_le; unfold Str.INT_MIN; lia).
  rewrite Hmin. reflexivity.
Qed.

(** A recovery whose GET, decoding and callback return, on a response in
    whose header the first line that holds the label starts with it: it ends
    as [std::stoi] ends on the text after the label. *)
Lemma recover_with_label_line (key wait_url_base : string) (s : state E)
    (t : transfer) (w1 w2 : World E) (r : Reply E)
    (before after : list string) (v : string) :
  curl_easy_perform E (url_prefix_ (this s) ++ key) (world s) = (t, w1) ->
  curl_code t = CURLE_OK ->
  Reply_ctor E (received_body t) = Ok r ->
  callback r w1 = (Ok tt, w2) ->
  Str.getlines (received_headers t)
    = (before ++ (etcd_index_label ++ v)%string :: after)%list ->
  no_label before ->
  exists res s', recover callback key wait_url_base s = (res, s')
    /\ trace s'
       = (trace s ++ [GET (url_prefix_ (this s) ++ key); CALLBACK r])%list
    /\ match Str.stoi v with
       | Str.Parsed n =>
           res = Ok tt
           /\ prev_index_ (this s') = to_Index E n
           /\ watch_url s'
              = wait_url_base ++ Str.to_string (Index_add1 E (to_Index E n))
           /\ enable_header_ (handle_ (this s')) = false
       | _ =>
           (exists e, res = Throw e)
           /\ prev_index_ (this s') = prev_index_ (this s)
           /\ watch_url s' = watch_url s
           /\ enable_header_ (handle_ (this s')) = true
       end.
Proof.
  intros Hp Hc Hd Hcb Hlines Hbefore.
  rewrite (recover_effect E callback key wait_url_base s t w1 w2 r Hp Hc Hd Hcb).
  rewrite Hlines.
  destruct (Str.stoi v) as [n| |] eqn:Hv.
  - rewrite (scan_header_value E before after v n _ Hbefore Hv). simpl.
    do 2 eexists. split; [reflexivity|]. simpl. repeat split; reflexivity.
  - destruct (scan_header_unparsable E before after (etcd_index_label ++ v) v
                (mkState
                   (mkWatch (prev_index_ (this s)) (url_prefix_ (this s))
                      (mkCurl true (received_body t) (received_headers t)))
                   (watch_url s) (max_failures s) w2
                   (trace s ++ [GET (url_prefix_ (this s) ++ key); CALLBACK r]))
                Hbefore) as [e ->].
    + rewrite find_label_at_0. discriminate.
    + apply substr_after_label.
    + intros n. rewrite Hv. discriminate.
    + do 2 eexists. split; [reflexivity|]. simpl. repeat split; eauto.
  - destruct (scan_header_unparsable E before after (etcd_index_label ++ v) v
                (mkState
                   (mkWatch (prev_index_ (this s)) (url_prefix_ (this s))
                      (mkCurl true (received_body t) (received_headers t)))
                   (watch_url s) (max_failures s) w2
                   (trace s ++ [GET (url_prefix_ (this s) ++ key); CALLBACK r]))
                Hbefore) as [e ->].
    + rewrite find_label_at_0. discriminate.
    + apply substr_after_label.
    + intros n. rewrite Hv. discriminate.
    + do 2 eexists. split; [reflexivity|]. simpl. repeat split; eauto.
Qed.

(** X11. An index header that carries the decimal digits of [n], an index that
    fits [int]: after the GET on the bare key and the callback on the
    snapshot, the cursor is [n] (converted to [Index]), the watch URL asks
    for the index after it, and header capture is off again. *)
Theorem recovery_adopts_the_index_header :
  forall (key wait_url_base : string) (s : state E)
         (t : transfer) (w1 w2 : World E) (r : Reply E)
         (before after : list string) (n : Z) (rest : string),
    curl_easy_perform E (url_prefix_ (this s) ++ key) (world s) = (t, w1) ->
    curl_code t = CURLE_OK ->
    Reply_ctor E (received_body t) = Ok r ->
    callback r w1 = (Ok tt, w2) ->
    Str.getlines (received_headers t)
      = (before ++ (etcd_index_label ++ Str.to_string n ++ rest)%string
         :: after)%list ->
    no_label before ->
    no_leading_digit rest ->
    0 <= n <= Str.INT_MAX ->
    exists s', recover callback key wait_url_base s = (Ok tt, s')
      /\ trace s'
         = (trace s ++ [GET (url_prefix_ (this s) ++ key); CALLBACK r])%list
      /\ prev_index_ (this s') = to_Index E n
      /\ watch_url s'
         = wait_url_base ++ Str.to_string (Index_add1 E (to_Index E n))
      /\ enable_header_ (handle_ (this s')) = false.
Proof.
  intros key wub s t w1 w2 r before after n rest Hp Hc Hd Hcb Hlines Hb Hrest Hn.
  destruct (recover_with_label_line key wub s t w1 w2 r before after _
              Hp Hc Hd Hcb Hlines Hb) as (res & s' & Hrec & Htr & Hend).
  rewrite stoi_to_string in Hend by (try exact Hrest; lia).
  replace (n <=? Str.INT_MAX) with true in Hend
    by (symmetry; apply Z.leb_le; lia).
  destruct Hend as (-> & Hcur & Hurl & Hen).
  exists s'. repeat split; assumption.
Qed.

(** X12. An index header that carries an index above [INT_MAX]: [std::stoi]
    raises, so the recovery ends by an exception after its callback, the
    cursor and the watch URL stay what they were, and header capture stays
    on. *)
Theorem recovery_rejects_an_index_above_INT_MAX :
  forall (key wait_url_base : string) (s : state E)
         (t : transfer) (w1 w2 : World E) (r : Reply E)
         (before after : list string) (n : Z) (rest : string),
    curl_easy_perform E (url_prefix_ (this s) ++ key) (world s) = (t, w1) ->
    curl_code t = CURLE_OK ->
    Reply_ctor E (received_body t) = Ok r ->
    callback r w1 = (Ok tt, w2) ->
    Str.getlines (received_headers t)
      = (before ++ (etcd_index_label ++ Str.to_string n ++ rest)%string
         :: after)%list ->
    no_label before ->
    no_leading_digit rest ->
    Str.INT_MAX < n ->
    exists e s', recover callback key wait_url_base s = (Throw e, s')
      /\ deliveries (trace s') = (deliveries (trace s) ++ [r])%list
      /\ prev_index_ (this s') = prev_index_ (this s)
      /\ watch_url s' = watch_url s
      /\ enable_header_ (handle_ (this s')) = true.
Proof.
  intros key wub s t w1 w2 r before after n rest Hp Hc Hd Hcb Hlines Hb Hrest Hn.
  destruct (recover_with_label_line key wub s t w1 w2 r before after _
              Hp Hc Hd Hcb Hlines Hb) as (res & s' & Hrec & Htr & Hend).
  rewrite stoi_to_string in Hend
    by (try exact Hrest; unfold Str.INT_MAX in Hn; lia).
  replace (n <=? Str.INT_MAX) with false in Hend
    by (symmetry; apply Z.leb_gt; lia).
  destruct Hend as ((e & ->) & Hcur & Hurl & Hen).
  exists e, s'. split; [exact Hrec|].
  split; [rewrite Htr, deliveries_app; reflexivity|].
  repeat split; assumption.
Qed.

(** X13. A response without the label: the recovery returns with the cursor it
    had, header capture off, and a watch URL that asks for the index after
    that cursor, also when the cursor is 0 and the call started without
    [waitIndex]. *)
Theorem recovery_without_index_header :
  forall (key wait_url_base : string) (s : state E)
         (t : transfer) (w1 w2 : World E) (r : Reply E),
    curl_easy_perform E (url_prefix_ (this s) ++ key) (world s) = (t, w1) ->
    curl_code t = CURLE_OK ->
    Reply_ctor E (received_body t) = Ok r ->
    callback r w1 = (Ok tt, w2) ->
    no_label (Str.getlines (received_headers t)) ->
    exists s', recover callback key wait_url_base s = (Ok tt, s')
      /\ trace s'
         = (trace s ++ [GET (url_prefix_ (this s) ++ key); CALLBACK r])%list
      /\ prev_index_ (this s') = prev_index_ (this s)
      /\ watch_url s'
         = wait_url_base ++ Str.to_string (Index_add1 E (prev_index_ (this s)))
      /\ enable_header_ (handle_ (this s')) = false.
Proof.
  intros key wub s t w1 w2 r Hp Hc Hd Hcb Hno.
  rewrite (recover_effect E callback key wub s t w1 w2 r Hp Hc Hd Hcb).
  rewrite (scan_header_absent E _ _ Hno). simpl.
  eexists. split; [reflexivity|]. simpl. repeat split; reflexivity.
Qed.

End Calls.

(** ** Turns that fail *)

Section FailingTurns.

Variable E : Env.
Variable callback : Callback E.

(** X9. A turn of the loop of [Run] that fails for another reason than an index
    out of date (a failed transfer, a reply that does not decode, an error
    reply with another code, an exception of the callback): the cursor, the
    watch URL and header capture stay, the failure budget is one less, and
    a next turn repeats the request of this one. *)
Theorem Run_retries_the_same_request :
  forall (key wait_url_base : string) (s s1 : state E) (e : thrown),
    watch callback wait_url_base s = (Throw e, s1) ->
    caught e = true ->
    reply_error_code e <> Some 401 ->
    let s' := after_turn callback key wait_url_base s in
    Run_iteration callback key wait_url_base s = (Ok tt, s')
    /\ max_failures s' = max_failures s - 1
    /\ prev_index_ (this s') = prev_index_ (this s)
    /\ watch_url s' = watch_url s
    /\ enable_header_ (handle_ (this s')) = enable_header_ (handle_ (this s))
    /\ requests (trace s') = (requests (trace s) ++ [watch_url s])%list
    /\ exists rest,
         requests (trace (after_turn callback key wait_url_base s'))
         = (requests (trace s') ++ watch_url s :: rest)%list.
Proof.
  intros key wub s s1 e Hw Hc Hne s'.
  pose proof (watch_throw_frame E callback _ _ _ _ Hw)
    as (Hcur & Hu & Hm & _ & Hen).
  assert (Hit : Run_iteration callback key wub s
                = (Ok tt, mkState (this s1) (watch_url s1) (max_failures s1 - 1)
                            (world s1) (trace s1))).
  { unfold Run_iteration, try_catch, Run_try, bind at 1. rewrite Hw.
    unfold Run_catch, caught in *.
    destruct (reply_error_code e) as [code|].
    - destruct (code =? 401) eqn:H401;
        [apply Z.eqb_eq in H401; congruence|].
      unfold decrement_max_failures; unfold_monad; unfold_setters. reflexivity.
    - destruct (std_what e); [|discriminate].
      unfold decrement_max_failures; unfold_monad; unfold_setters. reflexivity. }
  assert (Hs' : s' = mkState (this s1) (watch_url s1) (max_failures s1 - 1)
                       (world s1) (trace s1))
    by (subst s'; unfold after_turn; rewrite Hit; reflexivity).
  assert (Hreq : requests (trace s1) = (requests (trace s) ++ [watch_url s])%list).
  { destruct (watch_trace E callback wub s _ _ Hw) as [[-> _] | (r & -> & _)];
      rewrite requests_app; reflexivity. }
  split; [rewrite Hs'; exact Hit|].
  rewrite Hs'. simpl.
  split; [congruence|]. split; [exact Hcur|]. split; [exact Hu|].
  split; [exact Hen|]. split; [exact Hreq|].
  destruct (turn_first_request E callback key wub
              (mkState (this s1) (watch_url s1) (max_failures s1 - 1)
                 (world s1) (trace s1))) as [rest Hrest].
  rewrite Hrest. simpl. rewrite requests_app, Hu. simpl. eauto.
Qed.

(** X10. A turn of the loop of [Run] that meets an index out of date and recovers
    from it: the decoder reports error code 401; the GET on the bare key, its
    decoding and the callback on the snapshot return; the index header
    carries the digits of [n].  After the turn the cursor is [n], the failure
    budget is one less, header capture is off, and a next turn asks for the
    index after [n]. *)
Theorem Run_recovers_from_stale_index :
  forall (key wait_url_base : string) (s : state E)
         (t t' : transfer) (w1 w2 w3 : World E) (e : thrown) (r : Reply E)
         (before after : list string) (n : Z) (rest : string),
    curl_easy_perform E (watch_url s) (world s) = (t, w1) ->
    curl_code t = CURLE_OK ->
    Reply_ctor E (received_body t) = Throw e ->
    reply_error_code e = Some 401 ->
    curl_easy_perform E (url_prefix_ (this s) ++ key) w1 = (t', w2) ->
    curl_code t' = CURLE_OK ->
    Reply_ctor E (received_body t') = Ok r ->
    callback r w2 = (Ok tt, w3) ->
    Str.getlines (received_headers t')
      = (before ++ (etcd_index_label ++ Str.to_string n ++ rest)%string
         :: after)%list ->
    no_label before ->
    no_leading_digit rest ->
    0 <= n <= Str.INT_MAX ->
    let s' := after_turn callback key wait_url_base s in
    Run_iteration callback key wait_url_base s = (Ok tt, s')
    /\ trace s'
       = (trace s ++ [GET (watch_url s); GET (url_prefix_ (this s) ++ key);
                      CALLBACK r])%list
    /\ max_failures s' = max_failures s - 1
    /\ prev_index_ (this s') = to_Index E n
    /\ watch_url s'
       = wait_url_base ++ Str.to_string (Index_add1 E (to_Index E n))
    /\ enable_header_ (handle_ (this s')) = false
    /\ exists more,
         requests (trace (after_turn callback key wait_url_base s'))
         = (requests (trace s')
            ++ (wait_url_base ++ Str.to_string (Index_add1 E (to_Index E n)))%string
               :: more)%list.
Proof.
  intros key wub s t t' w1 w2 w3 e r before after n rest
    Hp Hc Hd H401 Hp' Hc' Hd' Hcb Hlines Hb Hrest Hn s'.
  destruct (watch_decode_throws E callback wub s t w1 e Hp Hc Hd)
    as (s1 & Hw & Hwo & Htr).
  pose proof (watch_throw_frame E callback _ _ _ _ Hw)
    as (_ & _ & Hm & Hpre & _).
  rewrite <- Hpre, <- Hwo in Hp'.
  destruct (recover_with_label_line E callback key wub s1 t' w2 w3 r before after _
              Hp' Hc' Hd' Hcb Hlines Hb) as (res & s2 & Hrec & Htr2 & Hend).
  rewrite stoi_to_string in Hend by (try exact Hrest; lia).
  replace (n <=? Str.INT_MAX) with true in Hend
    by (symmetry; apply Z.leb_le; lia).
  destruct Hend as (-> & Hcur & Hurl & Hen).
  pose proof (recover_keeps_budget E callback _ _ _ _ _ Hrec) as [Hm2 _].
  assert (Hit : Run_iteration callback key wub s
                = (Ok tt, mkState (this s2) (watch_url s2) (max_failures s2 - 1)
                            (world s2) (trace s2))).
  { unfold Run_iteration, try_catch, Run_try, bind at 1. rewrite Hw.
    unfold Run_catch. rewrite H401. simpl. unfold bind, catch_all.
    rewrite Hrec. simpl.
    unfold decrement_max_failures; unfold_monad; unfold_setters. reflexivity. }
  assert (Hs' : s' = mkState (this s2) (watch_url s2) (max_failures s2 - 1)
                       (world s2) (trace s2))
    by (subst s'; unfold after_turn; rewrite Hit; reflexivity).
  split; [rewrite Hs'; exact Hit|].
  rewrite Hs'. simpl.
  split; [rewrite Htr2, Htr, Hpre, <- app_assoc; reflexivity|].
  split; [congruence|]. split; [exact Hcur|]. split; [exact Hurl|].
  split; [exact Hen|].
  destruct (turn_first_request E callback key wub
              (mkState (this s2) (watch_url s2) (max_failures s2 - 1)
                 (world s2) (trace s2))) as [more Hmore].
  rewrite Hmore. simpl. rewrite requests_app, Hurl. simpl. eauto.
Qed.

End FailingTurns.

(** ** The transport *)

Section Transport.

Variable E : Env.


(** [_SetPostOptions] sets post fields exactly when there is an option. *)
Lemma post_fields_empty (options : CurlOptions) :
  (String.length (post_fields options) =? 0)%nat
  = match options with [] => true | _ :: _ => false end.
Proof.
  destruct options as [|[first second] rest]; [reflexivity|].
  cbn [post_fields]. rewrite string_app_length. simpl.
  apply Nat.eqb_neq. lia.
Qed.

Theorem SetPostOptions_posts_when_there_are_options :
  forall (url type : string) (options : CurlOptions) (s : state E),
    exists req s',
      Curl_SetPostOptions url type options s = (Ok req, s')
      /\ request_url req = Str.c_str url
      /\ request_type req = Str.c_str type
      /\ (options = [] <-> request_fields req = None)
      /\ (options <> [] ->
          request_fields req = Some (Str.c_str (post_fields options)))
      /\ world s' = world s.
Proof.
  intros url type options s.
  unfold Curl_SetPostOptions, Curl_SetCommonOptions; unfold_monad;
    unfold_setters; simpl.
  do 2 eexists. split; [reflexivity|]. simpl.
  rewrite post_fields_empty.
  destruct options as [|o rest]; simpl; repeat split;
    try reflexivity; try discriminate; intros H; now destruct H.
Qed.

End Transport.

(** Two texts that agree up to a separator which is in neither of them agree
    before it and after it. *)
Lemma split_at_separator (c : ascii) (a b x y : string) :
  free_of c a -> free_of c b ->
  a ++ String c x = b ++ String c y -> a = b /\ x = y.
Proof.
  revert b. induction a as [|a0 a IH]; intros b Ha Hb H.
  - destruct b as [|b0 b]; simpl in *.
    + inversion H. split; reflexivity.
    + inversion H; subst. destruct Hb as [Hne _]. now destruct Hne.
  - destruct b as [|b0 b]; simpl in *.
    + inversion H; subst. destruct Ha as [Hne _]. now destruct Hne.
    + inversion H; subst. destruct Ha as [_ Ha]. destruct Hb as [_ Hb].
      destruct (IH b Ha Hb H2) as [-> ->]. split; reflexivity.
Qed.

(** X16. The post fields tell the options apart as long as no key holds the
    equals sign and no value holds the semicolon.  They are printed as they
    are: a value that holds a semicolon reads as further options. *)
Theorem post_fields_injective :
  (forall options options' : CurlOptions,
      Forall (fun o => free_of "=" (fst o) /\ free_of ";" (snd o)) options ->
      Forall (fun o => free_of "=" (fst o) /\ free_of ";" (snd o)) options' ->
      post_fields options = post_fields options' ->
      options = options')
  /\ post_fields [("a", "1;b=2")] = post_fields [("a", "1"); ("b", "2")].
Proof.
  split; [|reflexivity].
  induction options as [|[k v] rest IH]; intros [|[k' v'] rest'] H H' Heq.
  - reflexivity.
  - exfalso. apply (f_equal String.length) in Heq. cbn [post_fields] in Heq.
    rewrite string_app_length in Heq. simpl in Heq. lia.
  - exfalso. apply (f_equal String.length) in Heq. cbn [post_fields] in Heq.
    rewrite string_app_length in Heq. simpl in Heq. lia.
  - inversion H as [|? ? [Hk Hv] Hrest]; subst.
    inversion H' as [|? ? [Hk' Hv'] Hrest']; subst.
    cbn [post_fields fst snd] in *.
    change ("=" ++ ?x) with (String "=" x) in Heq.
    apply (split_at_separator "=" k k') in Heq; try assumption.
    destruct Heq as [-> Heq].
    change (";" ++ ?x) with (String ";" x) in Heq.
    apply (split_at_separator ";" v v') in Heq; try assumption.
    destruct Heq as [-> Heq].
    now rewrite (IH rest' Hrest Hrest' Heq).
Qed.

(** X17. However a transfer cuts the body into pieces for [WriteCb], every piece
    is accepted and the write stream ends up with the body after what it
    held; the same of [HeaderCb] and the header stream. *)
Theorem callbacks_collect_the_pieces :
  forall (pieces : list string) (c : Curl),
    write_pieces pieces c
      = (true, mkCurl (enable_header_ c)
                 (write_stream_ c ++ String.concat "" pieces)
                 (header_stream_ c))
    /\ header_pieces pieces c
       = (true, mkCurl (enable_header_ c) (write_stream_ c)
                  (header_stream_ c ++ String.concat "" pieces)).
Proof.
  assert (Hconcat : forall piece rest,
            String.concat "" (piece :: rest) = piece ++ String.concat "" rest).
  { intros piece [|p rest]; simpl; [now rewrite string_app_nil_r|reflexivity]. }
  induction pieces as [|piece rest IH]; intros c.
  - simpl. rewrite !string_app_nil_r. destruct c; split; reflexivity.
  - rewrite Hconcat.
    cbn [write_pieces header_pieces Curl_WriteCb Curl_HeaderCb].
    rewrite Nat.eqb_refl. rewrite Nat.mul_1_l, substring_all.
    destruct (IH (mkCurl (enable_header_ c) (write_stream_ c ++ piece)
                    (header_stream_ c))) as [-> _].
    destruct (IH (mkCurl (enable_header_ c) (write_stream_ c)
                    (header_stream_ c ++ piece))) as [_ ->].
    simpl. rewrite !string_app_assoc. split; reflexivity.
Qed.

(** X18. A [Watch] that was constructed starts without cursor and with header
    capture off, and the first request of its first call, made without
    [prevIndex], is the long poll on [http://server:port/v2/keys] followed
    by the key and [?wait=true]; when [curl_easy_init] fails the constructor
    raises [ClientException("failed init")]. *)
Theorem Watch_construct_then_first_call :
  forall (E : Env) (server : string) (port : Z) (key : string) (world : World E),
    Watch_construct false server port = Throw (ClientException "failed init")
    /\ exists w,
         Watch_construct true server port = Ok w
         /\ prev_index_ w = 0
         /\ enable_header_ (handle_ w) = false
         /\ forall callback : Callback E,
              (forall fuel, exists rest,
                  trace (snd (Run callback key 0 (S fuel) (at_call w world)))
                  = GET (("http://" ++ server ++ ":" ++ Str.to_string port
                          ++ "/v2/keys") ++ key ++ "?wait=true") :: rest)
              /\ exists rest,
                   trace (snd (RunOnce callback key 0 (at_call w world)))
                   = GET (("http://" ++ server ++ ":" ++ Str.to_string port
                           ++ "/v2/keys") ++ key ++ "?wait=true") :: rest.
Proof.
  intros E server port key world. split; [reflexivity|].
  eexists. split; [reflexivity|]. split; [reflexivity|]. split; [reflexivity|].
  intros callback.
  set (w := mkWatch 0 ("http://" ++ server ++ ":" ++ Str.to_string port ++ "/v2/keys")
              (mkCurl false "" "")).
  destruct (first_watch_url E key 0 (at_call w world)) as [Hrun Honce].
  rewrite Hrun in Honce.
  assert (Hurl : watch_url (Run_entry key 0 (at_call w world))
                 = ("http://" ++ server ++ ":" ++ Str.to_string port ++ "/v2/keys")
                   ++ key ++ "?wait=true")
    by (rewrite Hrun; reflexivity).
  rewrite <- Hrun, Hurl in Honce. clear Hrun. rename Hurl into Hrun.
  split.
  - intros fuel.
    destruct (Run_first_request E callback key 0 fuel (at_call w world))
      as [rest Hrest].
    exists rest. rewrite Hrest, Hrun. reflexivity.
  - destruct (RunOnce_first_request E callback key 0 (at_call w world))
      as [rest Hrest].
    exists rest. rewrite Hrest, Honce. reflexivity.
Qed.


(** ** Instances of the further properties *)

(** X5 at a callback that raises an object of a foreign class on the first
    reply. *)

Lemma Run_lets_foreign_exceptions_through_witness :
  let s := fresh etcd [ok "" "42"; ok "" "43"] in
  exists s1,
    Run Cases.alien "/k" 0 0 s = (None, Run_entry "/k" 0 s)
    /\ caught (Thrown None None) = false
    /\ Run Cases.alien "/k" 0 3 s = (Some (Throw (Uncaught (Thrown None None))), s1)
    /\ prev_index_ (this s1) = 0
    /\ watch_url s1 = prefix ++ "/k?wait=true"
    /\ max_failures s1 = MAX_FAILURES
    /\ requests (trace s1) = [prefix ++ "/k?wait=true"].
Proof.
  intros s.
  exists (snd (watch Cases.alien (wait_url_base prefix "/k") (Run_entry "/k" 0 s))).
  destruct (Run_lets_foreign_exceptions_through etcd Cases.alien "/k" 0 s 0%nat
              (Run_entry "/k" 0 s) _ (Thrown None None)
              eq_refl eq_refl eq_refl) as (Hrun & _).
  split; [reflexivity|]. split; [reflexivity|].
  split; [exact (Hrun 3%nat ltac:(vm_compute; lia))|].
  repeat split; reflexivity.
Defined.

(** X6 at a concrete run against the scripted server. *)
Lemma RunOnce_delivers_one_change_witness :
  let s := fresh etcd [ok "" "42"] in
  exists s',
    RunOnce (quiet etcd) "/k" 0 s = (Ok tt, s')
    /\ trace s' = [GET (prefix ++ "/k?wait=true"); CALLBACK (E := etcd) 42]
    /\ prev_index_ (this s') = 42
    /\ prev_index_ (this (Run_entry "/other" 0 s')) = 42.
Proof.
  intros s.
  destruct (RunOnce_delivers_one_change etcd (quiet etcd) "/k" 0 s
              (ok "" "42") [] [] 42 eq_refl eq_refl eq_refl eq_refl)
    as (s' & Hrun & Htr & _ & Hcur & _ & Hnext).
  exists s'. split; [exact Hrun|]. split; [exact Htr|].
  split; [exact Hcur|]. exact (proj1 (Hnext "/other")).
Defined.

(** X7 at a concrete run against the scripted server. *)
Lemma RunOnce_returns_after_stale_index_witness :
  let s := fresh etcd [stale; ok index_header "7"] in
  exists s',
    RunOnce (quiet etcd) "/k" 0 s = (Ok tt, s')
    /\ requests (trace s') = [prefix ++ "/k?wait=true"; prefix ++ "/k"].
Proof.
  intros s.
  exact (RunOnce_returns_after_stale_index etcd (quiet etcd) "/k" 0 s
           stale [ok index_header "7"] (Thrown (Some 401) (Some "etcd reply error"))
           eq_refl eq_refl eq_refl eq_refl).
Defined.

(** X8 at a server that reports the changes 42, 43 and 47. *)
Lemma Run_delivers_in_order_witness :
  let s := Run_entry "/k" 0 (fresh etcd [ok "" "42"; ok "" "43"; ok "" "47"]) in
  let wub := wait_url_base prefix "/k" in
  let sn := after_turns (quiet etcd) 3 "/k" wub s in
  answered (quiet etcd) wub (watch_url s) (world s) [42; 43; 47] []
  /\ max_failures s <> 0
  /\ Run_loop (quiet etcd) 3 "/k" wub s = (None, sn)
  /\ trace sn = exchanges (E := etcd) wub (prefix ++ "/k?wait=true") [42; 43; 47]
  /\ deliveries (trace sn) = [42; 43; 47]
  /\ requests (trace sn)
     = [prefix ++ "/k?wait=true"; prefix ++ "/k?wait=true&waitIndex=43";
        prefix ++ "/k?wait=true&waitIndex=44"]
  /\ watch_url sn = prefix ++ "/k?wait=true&waitIndex=48"
  /\ world sn = [].
Proof.
  intros s wub sn.
  assert (Hans : answered (quiet etcd) wub (watch_url s) (world s) [42; 43; 47] []).
  { exists (ok "" "42"), [ok "" "43"; ok "" "47"], [ok "" "43"; ok "" "47"].
    split; [reflexivity|]. split; [reflexivity|]. split; [reflexivity|].
    split; [reflexivity|].
    exists (ok "" "43"), [ok "" "47"], [ok "" "47"].
    split; [reflexivity|]. split; [reflexivity|]. split; [reflexivity|].
    split; [reflexivity|].
    exists (ok "" "47"), [], [].
    split; [reflexivity|]. split; [reflexivity|]. split; [reflexivity|].
    split; reflexivity. }
  destruct (Run_delivers_in_order etcd (quiet etcd) "/k" wub [42; 43; 47] s []
              Hans ltac:(discriminate))
    as (Hloop & Htr & Hdel & Hreq & Hurl & Hwo).
  split; [exact Hans|]. split; [discriminate|]. split; [exact Hloop|].
  split; [exact Htr|]. split; [exact Hdel|]. split; [exact Hreq|].
  split; [exact Hurl|exact Hwo].
Defined.

(** X11 at a concrete run against the scripted server. *)
Lemma recovery_adopts_the_index_header_witness :
  let s := fresh etcd [ok index_header "7"] in
  exists s',
    recover (quiet etcd) "/k" (wait_url_base prefix "/k") s = (Ok tt, s')
    /\ trace s' = [GET (prefix ++ "/k"); CALLBACK (E := etcd) 7]
    /\ prev_index_ (this s') = to_Index etcd 100
    /\ watch_url s'
       = wait_url_base prefix "/k"
         ++ Str.to_string (Index_add1 etcd (to_Index etcd 100))
    /\ enable_header_ (handle_ (this s')) = false.
Proof.
  intros s.
  refine (recovery_adopts_the_index_header etcd (quiet etcd) "/k"
            (wait_url_base prefix "/k") s (ok index_header "7") [] [] 7
            ["HTTP/1.1 200 OK" ++ String Str.CR "";
             "Content-Type: application/json" ++ String Str.CR ""]
            [String Str.CR ""] 100 (String Str.CR "")
            eq_refl eq_refl eq_refl eq_refl eq_refl _ eq_refl _).
  - repeat constructor.
  - vm_compute. split; discriminate.
Defined.

(** X12 at a concrete run against the scripted server. *)
Lemma recovery_rejects_an_index_above_INT_MAX_witness :
  let s := resumed etcd 9 [ok Cases.large_index_header "7"] in
  exists e s',
    recover (quiet etcd) "/k" (wait_url_base prefix "/k") s = (Throw e, s')
    /\ deliveries (trace s') = [7]
    /\ prev_index_ (this s') = 9
    /\ watch_url s' = watch_url s
    /\ enable_header_ (handle_ (this s')) = true.
Proof.
  intros s.
  refine (recovery_rejects_an_index_above_INT_MAX etcd (quiet etcd) "/k"
            (wait_url_base prefix "/k") s (ok Cases.large_index_header "7") [] [] 7
            ["HTTP/1.1 200 OK" ++ String Str.CR ""]
            [String Str.CR ""] 3000000000 (String Str.CR "")
            eq_refl eq_refl eq_refl eq_refl eq_refl _ eq_refl _).
  - repeat constructor.
  - vm_compute. reflexivity.
Defined.

(** X13 at a concrete run against the scripted server. *)
Lemma recovery_without_index_header_witness :
  let s := fresh etcd [ok Cases.plain_header "7"] in
  exists s',
    recover (quiet etcd) "/k" (wait_url_base prefix "/k") s = (Ok tt, s')
    /\ trace s' = [GET (prefix ++ "/k"); CALLBACK (E := etcd) 7]
    /\ prev_index_ (this s') = 0
    /\ watch_url s' = prefix ++ "/k?wait=true&waitIndex=1"
    /\ enable_header_ (handle_ (this s')) = false.
Proof.
  intros s.
  refine (recovery_without_index_header etcd (quiet etcd) "/k"
            (wait_url_base prefix "/k") s (ok Cases.plain_header "7") [] [] 7
            eq_refl eq_refl eq_refl eq_refl _).
  repeat constructor.
Defined.

(** X16 at a concrete run against the scripted server. *)
Lemma post_fields_injective_witness :
  Forall (fun o => free_of "=" (fst o) /\ free_of ";" (snd o))
    [("ttl", "5"); ("value", "a=b")]
  /\ post_fields [("ttl", "5"); ("value", "a=b")] = "ttl=5;value=a=b;"
  /\ forall options',
       Forall (fun o => free_of "=" (fst o) /\ free_of ";" (snd o)) options' ->
       post_fields options' = "ttl=5;value=a=b;" ->
       options' = [("ttl", "5"); ("value", "a=b")].
Proof.
  assert (H : Forall (fun o => free_of "=" (fst o) /\ free_of ";" (snd o))
                [("ttl", "5"); ("value", "a=b")])
    by (repeat constructor; discriminate).
  split; [exact H|]. split; [reflexivity|].
  intros options' H' Heq. symmetry.
  exact (proj1 post_fields_injective _ _ H H' (eq_sym Heq)).
Defined.

(** X9 at a concrete run against the scripted server. *)
Lemma Run_retries_the_same_request_witness :
  let s := Run_entry "/k" 0 (fresh etcd [ok "" "{"; ok "" "42"]) in
  let wub := wait_url_base prefix "/k" in
  let s' := after_turn (quiet etcd) "/k" wub s in
  caught (Thrown None (Some "malformed reply")) = true
  /\ Run_iteration (quiet etcd) "/k" wub s = (Ok tt, s')
  /\ max_failures s' = 4
  /\ watch_url s' = prefix ++ "/k?wait=true"
  /\ requests (trace s') = [prefix ++ "/k?wait=true"]
  /\ exists rest,
       requests (trace (after_turn (quiet etcd) "/k" wub s'))
       = (requests (trace s') ++ (prefix ++ "/k?wait=true")%string :: rest)%list.
Proof.
  intros s wub s'.
  destruct (Run_retries_the_same_request etcd (quiet etcd) "/k" wub s
              (snd (watch (quiet etcd) wub s))
              (Thrown None (Some "malformed reply"))
              eq_refl eq_refl ltac:(discriminate))
    as (Hit & Hm & _ & Hu & _ & Hreq & Hnext).
  split; [reflexivity|]. split; [exact Hit|]. split; [exact Hm|].
  split; [exact Hu|]. split; [exact Hreq|]. exact Hnext.
Defined.

(** X10 at the second scenario of the spec: no index in the first request,
    the server answers 401, the snapshot comes with [X-Etcd-Index: 100], the
    next watch asks for 101. *)
Lemma Run_recovers_from_stale_index_witness :
  let s := Run_entry "/k" 0 (fresh etcd [stale; ok index_header "7"]) in
  let wub := wait_url_base prefix "/k" in
  let s' := after_turn (quiet etcd) "/k" wub s in
  Run_iteration (quiet etcd) "/k" wub s = (Ok tt, s')
  /\ trace s' = [GET (prefix ++ "/k?wait=true"); GET (prefix ++ "/k");
                 CALLBACK (E := etcd) 7]
  /\ max_failures s' = 4
  /\ prev_index_ (this s') = to_Index etcd 100
  /\ enable_header_ (handle_ (this s')) = false
  /\ to_Index etcd 100 = 100
  /\ wub ++ Str.to_string (Index_add1 etcd (to_Index etcd 100))
     = prefix ++ "/k?wait=true&waitIndex=101"
  /\ exists more,
       requests (trace (after_turn (quiet etcd) "/k" wub s'))
       = (requests (trace s')
          ++ (wub ++ Str.to_string (Index_add1 etcd (to_Index etcd 100)))%string
             :: more)%list.
Proof.
  intros s wub s'.
  assert (Hb : no_label ["HTTP/1.1 200 OK" ++ String Str.CR "";
                         "Content-Type: application/json" ++ String Str.CR ""])
    by (repeat constructor).
  assert (Hn : 0 <= 100 <= Str.INT_MAX) by (vm_compute; split; discriminate).
  destruct (Run_recovers_from_stale_index etcd (quiet etcd) "/k" wub s
              stale (ok index_header "7") [ok index_header "7"] [] []
              (Thrown (Some 401) (Some "etcd reply error")) 7
              ["HTTP/1.1 200 OK" ++ String Str.CR "";
               "Content-Type: application/json" ++ String Str.CR ""]
              [String Str.CR ""] 100 (String Str.CR "")
              eq_refl eq_refl eq_refl eq_refl eq_refl eq_refl eq_refl eq_refl
              eq_refl Hb eq_refl Hn)
    as (Hit & Htr & Hm & Hcur & _ & Hen & Hnext).
  split; [exact Hit|]. split; [exact Htr|]. split; [exact Hm|].
  split; [exact Hcur|]. split; [exact Hen|]. split; [reflexivity|].
  split; [reflexivity|]. exact Hnext.
Defined.

(** [Set] against the echoing server: a PUT with two options posts them,
    a DELETE without options posts nothing. *)
Example Set_on_the_echo_server :
  fst (Curl_Set (E := etcd) Cases.echo "http://127.0.0.1:2379/v2/keys/k" "PUT"
         [("ttl", "5"); ("value", "x")] (fresh etcd []))
    = Ok "ttl=5;value=x;"
  /\ fst (Curl_Set (E := etcd) Cases.echo "http://127.0.0.1:2379/v2/keys/k"
            "DELETE" []
            (fresh etcd []))
     = Ok "none".
Proof. split; reflexivity. Qed.

(** A value that holds a NUL: the post fields end before it. *)
Example Set_cuts_the_post_fields :
  fst (Curl_Set (E := etcd) Cases.echo "http://127.0.0.1:2379/v2/keys/k" "PUT"
         [("value", String "a" (String Ascii.zero "b")); ("x", "1")]
         (fresh etcd []))
    = Ok "value=a".
Proof. reflexivity. Qed.

(** [RunOnce] can invoke the callback twice: here the callback raises a
    [ReplyException] with error code 401 on the reply of index 7 and is
    invoked again on the snapshot. *)
Example RunOnce_two_callbacks :
  deliveries (trace (snd (RunOnce (picky 7 401) "/k" 0
                            (fresh etcd [ok "" "7"; ok index_header "9"]))))
  = [7; 9].
Proof. reflexivity. Qed.
